(** * The valentine page: hearts, runaway button and celebration

    A shallow embedding of [src/hearts.ts], [src/runaway-button.ts] and
    [showCelebration] and [createSparkle] of the celebration module, over a
    small model of the browser: a heap of DOM elements, the console, a timer queue and the
    random source.

    - A JavaScript [number] is an exact rational ([Q]): arithmetic is not
      rounded.  A bound on a computed number is therefore stated with its
      end included wherever rounding could reach the end.  Counters, loop
      indices and counts that only ever hold integers are [Z] or [nat].
    - [Math.random] reads the next value of a stream carried by the world, so
      a statement "for every random seed" quantifies over that stream.
    - [Math.cos] and [Math.sin] are implementation-approximated in
      JavaScript: they are parameters of the development.
    - Arrow functions handed to [setTimeout], [setInterval] and
      [addEventListener], or returned to the caller, are represented by a
      constructor that names them together with the variables they capture.
    - An optional parameter is an [option]; [None] selects the default value
      of the source.
    - A function supplied by the caller is opaque: calling it is recorded,
      and it may throw.

    The file has two parts: the definitions (the code, the event loop, and
    the vocabulary of the properties), then the properties. *)

From Stdlib Require Import QArith Qminmax Qround ZArith Lia Lqa.
From stdpp Require Import base gmap strings list pretty.

Local Open Scope Z_scope.

(** ** Values *)

Abbreviation number := Q (only parsing).

(** What a [throw] carries: an [Error] object with its message, or any
    other value. *)
Inductive exn :=
| JsError (message : string)
| JsValue.

(** [error instanceof Error ? error.message : 'Unknown error'] *)
Definition error_message (e : exn) : string :=
  match e with
  | JsError m => m
  | JsValue => "Unknown error"
  end.

(** [arr[i]] for a numeric index: [undefined] outside the array. *)
Definition js_index {A} (arr : list A) (i : Z) : option A :=
  if i <? 0 then None else arr !! Z.to_nat i.

(** A style value produced by a template literal such as [`${x}px`]: the
    unit and the number it was formatted from. *)
Inductive css :=
| Px (v : number)
| Rem (v : number)
| Percent (v : number)
| Seconds (v : number)
| Raw (s : string).

(** ** Configuration records *)

Record FloatingHeartConfig := {
  minDuration : number;
  maxDuration : number;
  minSize : number;
  maxSize : number;
  spawnInterval : number;
  maxHearts : number;
}.

(** [Partial<FloatingHeartConfig>] *)
Record PartialFloatingHeartConfig := {
  p_minDuration : option number;
  p_maxDuration : option number;
  p_minSize : option number;
  p_maxSize : option number;
  p_spawnInterval : option number;
  p_maxHearts : option number;
}.

Record RunawayConfig := {
  minJumpDistance : number;
  maxJumpDistance : number;
  edgePadding : number;
  escapeMessages : list string;
}.

(** [Partial<RunawayConfig>] *)
Record PartialRunawayConfig := {
  p_minJumpDistance : option number;
  p_maxJumpDistance : option number;
  p_edgePadding : option number;
  p_escapeMessages : option (list string);
}.

(** A function supplied by the caller ([onCelebrate]).  It is opaque: a call
    is recorded in the world, and it may throw. *)
Record callback := {
  cb_name : string;
  cb_throws : option exn;
}.

(** ** The document *)

Abbreviation node := nat (only parsing).

(** The two listener bodies of [initRunawayButton]; both capture the same
    three variables. *)
Inductive handler :=
| HandleEscape (noButton yesButton : node) (mergedConfig : RunawayConfig)
| ClickEscape (noButton yesButton : node) (mergedConfig : RunawayConfig).

(** A registered listener: event type, identity of the function object, and
    its body. *)
Record listener := {
  l_type : string;
  l_fn : nat;
  l_body : handler;
}.

(** An element.  [rect_width] and [rect_height] are what
    [getBoundingClientRect] reports: layout is an input of the model.  Style
    properties are keyed by their CSS names ([fontSize] is ["font-size"]). *)
Record element := {
  localName : string;
  el_id : option string;
  classList : list string;
  textContent : string;
  style : gmap string css;
  parentNode : option node;
  children : list node;
  rect_width : number;
  rect_height : number;
  listeners : list listener;
}.

Definition blank (tag : string) : element :=
  {| localName := tag; el_id := None; classList := []; textContent := "";
     style := ∅; parentNode := None; children := [];
     rect_width := 0%Q; rect_height := 0%Q; listeners := [] |}.

Definition with_classList (f : list string → list string) (e : element) : element :=
  {| localName := localName e; el_id := el_id e; classList := f (classList e);
     textContent := textContent e; style := style e; parentNode := parentNode e;
     children := children e; rect_width := rect_width e;
     rect_height := rect_height e; listeners := listeners e |}.

Definition with_textContent (s : string) (e : element) : element :=
  {| localName := localName e; el_id := el_id e; classList := classList e;
     textContent := s; style := style e; parentNode := parentNode e;
     children := children e; rect_width := rect_width e;
     rect_height := rect_height e; listeners := listeners e |}.

Definition with_style (f : gmap string css → gmap string css) (e : element) : element :=
  {| localName := localName e; el_id := el_id e; classList := classList e;
     textContent := textContent e; style := f (style e); parentNode := parentNode e;
     children := children e; rect_width := rect_width e;
     rect_height := rect_height e; listeners := listeners e |}.

Definition with_parentNode (p : option node) (e : element) : element :=
  {| localName := localName e; el_id := el_id e; classList := classList e;
     textContent := textContent e; style := style e; parentNode := p;
     children := children e; rect_width := rect_width e;
     rect_height := rect_height e; listeners := listeners e |}.

Definition with_children (f : list node → list node) (e : element) : element :=
  {| localName := localName e; el_id := el_id e; classList := classList e;
     textContent := textContent e; style := style e; parentNode := parentNode e;
     children := f (children e); rect_width := rect_width e;
     rect_height := rect_height e; listeners := listeners e |}.

Definition with_listeners (f : list listener → list listener) (e : element) : element :=
  {| localName := localName e; el_id := el_id e; classList := classList e;
     textContent := textContent e; style := style e; parentNode := parentNode e;
     children := children e; rect_width := rect_width e;
     rect_height := rect_height e; listeners := f (listeners e) |}.

(** ** Timers *)

(** The callbacks handed to [setTimeout] and [setInterval]. *)
Inductive task :=
| SpawnHeart (container : node) (mergedConfig : FloatingHeartConfig)
| RemoveFloatingHeart (container heart : node)
| BurstHeart (centerX centerY : number)
| RemoveBurstHeart (heart : node)
| BurstAtRandomPosition
| CelebrationDisplay (celebrationScreen : node) (onCelebrate : option callback).

Record timer := {
  t_id : nat;
  t_due : number;
  t_every : option number;
  t_task : task;
}.

(** ** The world *)

(** [elements] is the heap of elements, a node being its index; [random] are
    the values [Math.random] returns, of which [drawn] have been used;
    [console] holds the messages given to [console.error]; [clock] is the
    time in ms and [timers] the pending timers in scheduling order;
    [nextTimer] and [nextFn] are the next timer handle and the next function
    identity; [invoked] lists the calls of caller-supplied functions and
    [uncaught] the exceptions that escaped a callback.  The last three fields
    are the module-level variables of the source. *)
Record world := {
  elements : list element;
  innerWidth : number;
  innerHeight : number;
  random : nat → number;
  drawn : nat;
  console : list string;
  clock : number;
  timers : list timer;
  nextTimer : nat;
  nextFn : nat;
  invoked : list string;
  uncaught : list exn;
  (* let heartIntervalId = null            (hearts.ts) *)
  heartIntervalId : option nat;
  (* let escapeCount = 0; let isRunaway = false   (runaway-button.ts) *)
  escapeCount : Z;
  isRunaway : bool;
}.

Definition set_elements (f : list element → list element) (w : world) : world :=
  {| elements := f (elements w); innerWidth := innerWidth w;
     innerHeight := innerHeight w; random := random w; drawn := drawn w;
     console := console w; clock := clock w; timers := timers w;
     nextTimer := nextTimer w; nextFn := nextFn w; invoked := invoked w;
     uncaught := uncaught w; heartIntervalId := heartIntervalId w;
     escapeCount := escapeCount w; isRunaway := isRunaway w |}.

Definition set_drawn (n : nat) (w : world) : world :=
  {| elements := elements w; innerWidth := innerWidth w;
     innerHeight := innerHeight w; random := random w; drawn := n;
     console := console w; clock := clock w; timers := timers w;
     nextTimer := nextTimer w; nextFn := nextFn w; invoked := invoked w;
     uncaught := uncaught w; heartIntervalId := heartIntervalId w;
     escapeCount := escapeCount w; isRunaway := isRunaway w |}.

Definition set_console (f : list string → list string) (w : world) : world :=
  {| elements := elements w; innerWidth := innerWidth w;
     innerHeight := innerHeight w; random := random w; drawn := drawn w;
     console := f (console w); clock := clock w; timers := timers w;
     nextTimer := nextTimer w; nextFn := nextFn w; invoked := invoked w;
     uncaught := uncaught w; heartIntervalId := heartIntervalId w;
     escapeCount := escapeCount w; isRunaway := isRunaway w |}.

Definition set_clock (t : number) (w : world) : world :=
  {| elements := elements w; innerWidth := innerWidth w;
     innerHeight := innerHeight w; random := random w; drawn := drawn w;
     console := console w; clock := t; timers := timers w;
     nextTimer := nextTimer w; nextFn := nextFn w; invoked := invoked w;
     uncaught := uncaught w; heartIntervalId := heartIntervalId w;
     escapeCount := escapeCount w; isRunaway := isRunaway w |}.

Definition set_timers (f : list timer → list timer) (w : world) : world :=
  {| elements := elements w; innerWidth := innerWidth w;
     innerHeight := innerHeight w; random := random w; drawn := drawn w;
     console := console w; clock := clock w; timers := f (timers w);
     nextTimer := nextTimer w; nextFn := nextFn w; invoked := invoked w;
     uncaught := uncaught w; heartIntervalId := heartIntervalId w;
     escapeCount := escapeCount w; isRunaway := isRunaway w |}.

Definition set_nextTimer (n : nat) (w : world) : world :=
  {| elements := elements w; innerWidth := innerWidth w;
     innerHeight := innerHeight w; random := random w; drawn := drawn w;
     console := console w; clock := clock w; timers := timers w;
     nextTimer := n; nextFn := nextFn w; invoked := invoked w;
     uncaught := uncaught w; heartIntervalId := heartIntervalId w;
     escapeCount := escapeCount w; isRunaway := isRunaway w |}.

Definition set_nextFn (n : nat) (w : world) : world :=
  {| elements := elements w; innerWidth := innerWidth w;
     innerHeight := innerHeight w; random := random w; drawn := drawn w;
     console := console w; clock := clock w; timers := timers w;
     nextTimer := nextTimer w; nextFn := n; invoked := invoked w;
     uncaught := uncaught w; heartIntervalId := heartIntervalId w;
     escapeCount := escapeCount w; isRunaway := isRunaway w |}.

Definition set_invoked (f : list string → list string) (w : world) : world :=
  {| elements := elements w; innerWidth := innerWidth w;
     innerHeight := innerHeight w; random := random w; drawn := drawn w;
     console := console w; clock := clock w; timers := timers w;
     nextTimer := nextTimer w; nextFn := nextFn w; invoked := f (invoked w);
     uncaught := uncaught w; heartIntervalId := heartIntervalId w;
     escapeCount := escapeCount w; isRunaway := isRunaway w |}.

Definition set_uncaught (f : list exn → list exn) (w : world) : world :=
  {| elements := elements w; innerWidth := innerWidth w;
     innerHeight := innerHeight w; random := random w; drawn := drawn w;
     console := console w; clock := clock w; timers := timers w;
     nextTimer := nextTimer w; nextFn := nextFn w; invoked := invoked w;
     uncaught := f (uncaught w); heartIntervalId := heartIntervalId w;
     escapeCount := escapeCount w; isRunaway := isRunaway w |}.

Definition set_heartIntervalId (v : option nat) (w : world) : world :=
  {| elements := elements w; innerWidth := innerWidth w;
     innerHeight := innerHeight w; random := random w; drawn := drawn w;
     console := console w; clock := clock w; timers := timers w;
     nextTimer := nextTimer w; nextFn := nextFn w; invoked := invoked w;
     uncaught := uncaught w; heartIntervalId := v;
     escapeCount := escapeCount w; isRunaway := isRunaway w |}.

Definition set_escapeCount (v : Z) (w : world) : world :=
  {| elements := elements w; innerWidth := innerWidth w;
     innerHeight := innerHeight w; random := random w; drawn := drawn w;
     console := console w; clock := clock w; timers := timers w;
     nextTimer := nextTimer w; nextFn := nextFn w; invoked := invoked w;
     uncaught := uncaught w; heartIntervalId := heartIntervalId w;
     escapeCount := v; isRunaway := isRunaway w |}.

Definition set_isRunaway (v : bool) (w : world) : world :=
  {| elements := elements w; innerWidth := innerWidth w;
     innerHeight := innerHeight w; random := random w; drawn := drawn w;
     console := console w; clock := clock w; timers := timers w;
     nextTimer := nextTimer w; nextFn := nextFn w; invoked := invoked w;
     uncaught := uncaught w; heartIntervalId := heartIntervalId w;
     escapeCount := escapeCount w; isRunaway := v |}.

(** ** Statements: state passing with exceptions *)

Inductive outcome (A : Type) :=
| Return (a : A)
| Throw (e : exn).
Arguments Return {A} a.
Arguments Throw {A} e.

Definition js (A : Type) : Type := world → outcome A * world.

Definition ret {A} (a : A) : js A := λ w, (Return a, w).

Definition throw {A} (e : exn) : js A := λ w, (Throw e, w).

Definition bind {A B} (m : js A) (k : A → js B) : js B :=
  λ w, match m w with
       | (Return a, w') => k a w'
       | (Throw e, w') => (Throw e, w')
       end.

(** [try { body } catch (error) { handler }] *)
Definition try_catch {A} (body : js A) (handler : exn → js A) : js A :=
  λ w, match body w with
       | (Return a, w') => (Return a, w')
       | (Throw e, w') => handler e w'
       end.

Definition gets {A} (f : world → A) : js A := λ w, (Return (f w), w).

Definition modify (f : world → world) : js unit := λ w, (Return tt, f w).

Notation "x <- m ;; k" := (bind m (λ x, k))
  (at level 100, m at next level, right associativity).
Notation "m ;; k" := (bind m (λ _, k))
  (at level 100, right associativity).

(** The world a statement leaves behind, and the value it completes with. *)
Definition exec {A} (m : js A) (w : world) : world := snd (m w).
Definition result {A} (m : js A) (w : world) : outcome A := fst (m w).

(** ** Browser primitives *)

(** The element a node denotes. *)
Definition element_at (n : node) (w : world) : element :=
  default (blank "") (elements w !! n).

(** Mutation of an element in place. *)
Definition update_element (n : node) (f : element → element) : world → world :=
  set_elements (alter f n).

(** The first element carrying the given id, if any. *)
Definition element_with_id (id : string) (w : world) : option node :=
  fst <$> list_find (λ e, el_id e = Some id) (elements w).

(** [document.getElementById(id)] *)
Definition getElementById (id : string) : js (option node) :=
  gets (element_with_id id).

(** The first [body] element, if any. *)
Definition body_element (w : world) : option node :=
  fst <$> list_find (λ e, localName e = "body") (elements w).

(** [document.body] *)
Definition document_body : js (option node) :=
  gets body_element.

(** [document.createElement(tag)]: a fresh, detached element. *)
Definition createElement (tag : string) : js node :=
  λ w, (Return (length (elements w)), set_elements (λ l, l ++ [blank tag]) w).

(** [el.classList.add(token)] *)
Definition classList_add (n : node) (token : string) : js unit :=
  modify (update_element n
    (with_classList (λ l, if decide (token ∈ l) then l else l ++ [token]))).

(** [el.classList.remove(...tokens)] *)
Definition classList_remove (n : node) (tokens : list string) : js unit :=
  modify (update_element n (with_classList (filter (λ c, c ∉ tokens)))).

(** The children of an element are removed from it: each is left without
    a parent. *)
Definition remove_children (n : node) (w : world) : world :=
  update_element n (with_children (λ _, []))
    (set_elements
       (λ l, foldr (alter (with_parentNode None)) l (children (element_at n w))) w).

(** [el.textContent = v]: the children of the element are removed and the
    text is stored; [undefined] is converted to the empty string. *)
Definition set_textContent (n : node) (v : option string) : js unit :=
  modify (λ w, update_element n (with_textContent (default "" v)) (remove_children n w)).

(** [el.style.prop = v] and [el.style.setProperty(prop, v)] *)
Definition set_style (n : node) (prop : string) (v : css) : js unit :=
  modify (update_element n (with_style <[prop := v]>)).

(** [el.parentNode] *)
Definition get_parentNode (n : node) : js (option node) :=
  gets (λ w, parentNode (element_at n w)).

(** [el.children.length] *)
Definition children_length (n : node) : js nat :=
  gets (λ w, length (children (element_at n w))).

(** A child leaves its parent, if it has one. *)
Definition unlink (child : node) (w : world) : world :=
  set_elements (λ l,
    match parentNode (element_at child w) with
    | Some p =>
        alter (with_parentNode None) child
          (alter (with_children (filter (λ c, c ≠ child))) p l)
    | None => l
    end) w.

(** [parent.appendChild(child)]: the child leaves its previous parent, if
    any, and becomes the last child of [parent]. *)
Definition appendChild (parent child : node) : js unit :=
  modify (λ w,
    update_element child (with_parentNode (Some parent))
      (update_element parent (with_children (λ l, l ++ [child])) (unlink child w))).

(** [parent.removeChild(child)]: throws a [NotFoundError] when [child] is
    not a child of [parent]. *)
Definition removeChild (parent child : node) : js unit :=
  p <- get_parentNode child;;
  if decide (p = Some parent) then modify (unlink child)
  else throw (JsError "The node to be removed is not a child of this node.").

(** [Math.random()] *)
Definition Math_random : js number :=
  λ w, (Return (random w (drawn w)), set_drawn (S (drawn w)) w).

(** [Math.PI], the double nearest to pi. *)
Definition Math_PI : number := (884279719003555 # 281474976710656)%Q.

(** [console.error(msg)] *)
Definition console_error (msg : string) : js unit :=
  modify (set_console (λ l, l ++ [msg])).

(** A new pending timer; a negative delay counts as 0.  The handle is
    returned. *)
Definition add_timer (t : task) (delay : number) (every : option number) : js nat :=
  λ w, (Return (nextTimer w),
        set_nextTimer (S (nextTimer w))
          (set_timers (λ l, l ++ [{| t_id := nextTimer w;
                                     t_due := (clock w + Qmax 0 delay)%Q;
                                     t_every := every;
                                     t_task := t |}]) w)).

(** [setTimeout(t, delay)] *)
Definition setTimeout (t : task) (delay : number) : js nat :=
  add_timer t delay None.

(** [setInterval(t, interval)] *)
Definition setInterval (t : task) (interval : number) : js nat :=
  add_timer t interval (Some interval).

(** [clearInterval(id)] *)
Definition clearInterval (id : nat) : js unit :=
  modify (set_timers (filter (λ t, t_id t ≠ id))).

(** [for (let i = from; i < from + n; i++) body(i)], with no [break]. *)
Fixpoint for_loop (from n : nat) (body : nat → js unit) : js unit :=
  match n with
  | O => ret tt
  | S n' => body from;; for_loop (S from) n' body
  end.

(** [fn()] for a function supplied by the caller. *)
Definition call (cb : callback) : js unit :=
  modify (set_invoked (λ l, l ++ [cb_name cb]));;
  match cb_throws cb with
  | Some e => throw e
  | None => ret tt
  end.

(** ** hearts.ts *)

Definition HEART_EMOJIS : list string :=
  ["💖"; "💕"; "💗"; "💓"; "💝"; "💘"; "❤️"; "🩷"; "💞"; "✨"; "🌸"].

Definition CELEBRATION_HEARTS : list string :=
  ["💖"; "💕"; "💗"; "💓"; "💝"; "💘"; "❤️"; "🎉"; "✨"; "🥰"; "💞"; "🩷"].

Definition DEFAULT_CONFIG : FloatingHeartConfig :=
  {| minDuration := 8; maxDuration := 18; minSize := 4 # 5; maxSize := 5 # 2;
     spawnInterval := 600; maxHearts := 25 |}%Q.

(** [{ ...DEFAULT_CONFIG, ...config }] *)
Definition merge_heart_config (config : PartialFloatingHeartConfig) : FloatingHeartConfig :=
  {| minDuration := default (minDuration DEFAULT_CONFIG) (p_minDuration config);
     maxDuration := default (maxDuration DEFAULT_CONFIG) (p_maxDuration config);
     minSize := default (minSize DEFAULT_CONFIG) (p_minSize config);
     maxSize := default (maxSize DEFAULT_CONFIG) (p_maxSize config);
     spawnInterval := default (spawnInterval DEFAULT_CONFIG) (p_spawnInterval config);
     maxHearts := default (maxHearts DEFAULT_CONFIG) (p_maxHearts config) |}.

(** The empty object [{}] as a [Partial<FloatingHeartConfig>]. *)
Definition no_heart_overrides : PartialFloatingHeartConfig :=
  {| p_minDuration := None; p_maxDuration := None; p_minSize := None;
     p_maxSize := None; p_spawnInterval := None; p_maxHearts := None |}.

Definition randomInRange (min max : number) : js number :=
  r <- Math_random;;
  ret (r * (max - min) + min)%Q.

(** [arr[Math.floor(Math.random() * arr.length)]] *)
Definition random_pick (arr : list string) : js (option string) :=
  r <- Math_random;;
  ret (js_index arr (Qfloor (r * inject_Z (Z.of_nat (length arr))))).

Definition createFloatingHeart (container : node) (config : FloatingHeartConfig) : js unit :=
  try_catch
    (n <- children_length container;;
     if Qle_bool (maxHearts config) (inject_Z (Z.of_nat n)) then ret tt
     else
       heart <- createElement "span";;
       classList_add heart "floating-heart";;
       glyph <- random_pick HEART_EMOJIS;;
       set_textContent heart glyph;;
       size <- randomInRange (minSize config) (maxSize config);;
       duration <- randomInRange (minDuration config) (maxDuration config);;
       left <- randomInRange 0 100;;
       delay <- randomInRange 0 3;;
       set_style heart "font-size" (Rem size);;
       set_style heart "left" (Percent left);;
       set_style heart "animation-duration" (Seconds duration);;
       set_style heart "animation-delay" (Seconds delay);;
       appendChild container heart;;
       let totalTime := ((duration + delay) * 1000)%Q in
       _ <- setTimeout (RemoveFloatingHeart container heart) totalTime;;
       ret tt)
    (λ error,
       console_error ("[Hearts] Failed to create floating heart: " +:+ error_message error)).

(** The removal callback scheduled by [createFloatingHeart]. *)
Definition removeFloatingHeart (container heart : node) : js unit :=
  try_catch
    (p <- get_parentNode heart;;
     if decide (p = Some container) then removeChild container heart else ret tt)
    (λ _, ret tt).

Definition startFloatingHearts (containerId : option string)
    (config : option PartialFloatingHeartConfig) : js unit :=
  let containerId := default "hearts-container" containerId in
  let config := default no_heart_overrides config in
  try_catch
    (container <- getElementById containerId;;
     match container with
     | None =>
         console_error ("[Hearts] Container element #" +:+ containerId +:+ " not found")
     | Some container =>
         let mergedConfig := merge_heart_config config in
         for_loop 0 8 (λ i,
           _ <- setTimeout (SpawnHeart container mergedConfig)
                  (inject_Z (Z.of_nat i) * 300)%Q;;
           ret tt);;
         id <- setInterval (SpawnHeart container mergedConfig) (spawnInterval mergedConfig);;
         modify (set_heartIntervalId (Some id))
     end)
    (λ error,
       console_error ("[Hearts] Failed to start floating hearts: " +:+ error_message error)).

Definition stopFloatingHearts : js unit :=
  id <- gets heartIntervalId;;
  match id with
  | Some id => clearInterval id;; modify (set_heartIntervalId None)
  | None => ret tt
  end.

(** [count] is a number of hearts: a natural number, 30 when omitted. *)
Definition createHeartBurst (centerX centerY : number) (count : option nat) : js unit :=
  let count := default 30%nat count in
  try_catch
    (for_loop 0 count (λ i,
       _ <- setTimeout (BurstHeart centerX centerY) (inject_Z (Z.of_nat i) * 50)%Q;;
       ret tt))
    (λ error,
       console_error ("[Hearts] Failed to create heart burst: " +:+ error_message error)).

(** The removal callback scheduled for each burst heart. *)
Definition removeBurstHeart (heart : node) : js unit :=
  try_catch
    (p <- get_parentNode heart;;
     match p with
     | Some p => removeChild p heart
     | None => ret tt
     end)
    (λ _, ret tt).

(** [() => clearInterval(id)] and the other functions returned to callers. *)
Inductive cleanup :=
| NoCleanup
| StopCelebration (id : nat)
| RunawayCleanup (noButton : node) (handleEscape : nat).

Section Hearts.

(** [Math.cos] and [Math.sin] *)
Variables Math_cos Math_sin : number → number.

(** The callback scheduled by [createHeartBurst] for each heart. *)
Definition burstHeart (centerX centerY : number) : js unit :=
  try_catch
    (heart <- createElement "span";;
     classList_add heart "burst-heart";;
     glyph <- random_pick CELEBRATION_HEARTS;;
     set_textContent heart glyph;;
     angle <- randomInRange 0 (Math_PI * 2);;
     distance <- randomInRange 100 400;;
     let tx := (Math_cos angle * distance)%Q in
     let ty := (Math_sin angle * distance)%Q in
     set_style heart "left" (Px centerX);;
     set_style heart "top" (Px centerY);;
     set_style heart "--tx" (Px tx);;
     set_style heart "--ty" (Px ty);;
     size <- randomInRange 1 3;;
     set_style heart "font-size" (Rem size);;
     body <- document_body;;
     match body with
     | Some body => appendChild body heart
     | None => throw (JsError "Cannot read properties of null (reading 'appendChild')")
     end;;
     _ <- setTimeout (RemoveBurstHeart heart) 3000;;
     ret tt)
    (λ _, ret tt).

End Hearts.

Definition burstAtRandomPosition : js unit :=
  w <- gets innerWidth;;
  x <- randomInRange 100 (w - 100);;
  h <- gets innerHeight;;
  y <- randomInRange 100 (h - 100);;
  createHeartBurst x y (Some 15%nat).

Definition startCelebrationLoop (intervalMs : option number) : js cleanup :=
  let intervalMs := default 2000%Q intervalMs in
  w <- gets innerWidth;;
  h <- gets innerHeight;;
  createHeartBurst (w / 2) (h / 2) (Some 40%nat);;
  _ <- setTimeout BurstAtRandomPosition 500;;
  _ <- setTimeout BurstAtRandomPosition 1000;;
  id <- setInterval BurstAtRandomPosition intervalMs;;
  ret (StopCelebration id).

(** ** celebration.ts *)

Definition showCelebration (questionScreenId celebrationScreenId : option string)
    (onCelebrate : option callback) : js unit :=
  let questionScreenId := default "question-screen" questionScreenId in
  let celebrationScreenId := default "celebration-screen" celebrationScreenId in
  try_catch
    (questionScreen <- getElementById questionScreenId;;
     celebrationScreen <- getElementById celebrationScreenId;;
     match questionScreen with
     | None =>
         console_error
           ("[Celebration] Question screen #" +:+ questionScreenId +:+ " not found")
     | Some questionScreen =>
         match celebrationScreen with
         | None =>
             console_error
               ("[Celebration] Celebration screen #" +:+ celebrationScreenId +:+ " not found")
         | Some celebrationScreen =>
             classList_remove questionScreen ["active"];;
             _ <- setTimeout (CelebrationDisplay celebrationScreen onCelebrate) 400;;
             ret tt
         end
     end)
    (λ error,
       console_error ("[Celebration] Failed to show celebration: " +:+ error_message error)).

(** The callback [showCelebration] defers by 400 ms. *)
Definition celebrationDisplay (celebrationScreen : node) (onCelebrate : option callback)
    : js unit :=
  try_catch
    (classList_add celebrationScreen "active";;
     w <- gets innerWidth;;
     h <- gets innerHeight;;
     createHeartBurst (w / 2) (h / 2) (Some 50%nat);;
     _ <- startCelebrationLoop (Some 3000%Q);;
     match onCelebrate with
     | Some onCelebrate => call onCelebrate
     | None => ret tt
     end)
    (λ error,
       console_error
         ("[Celebration] Failed during celebration display: " +:+ error_message error)).

(** [event.clientX] and [event.clientY] of the [MouseEvent] a listener
    receives. *)
Record MouseEvent := {
  clientX : number;
  clientY : number;
}.

(** The glyphs of [createSparkle], as the source file spells them. *)
Definition sparkleEmojis : list string :=
  ["âœ¨"; "ðŸ’–"; "â­"; "ðŸ’«"; "ðŸŒŸ"].

(** The removal callback it schedules has the body of the one scheduled for
    a burst heart (the element leaves whatever parent it has, and a failure
    is swallowed): it is the same [task], applied to the sparkle. *)
Definition createSparkle (event : MouseEvent) : js unit :=
  try_catch
    (sparkle <- createElement "span";;
     classList_add sparkle "sparkle";;
     glyph <- random_pick sparkleEmojis;;
     set_textContent sparkle glyph;;
     rx <- Math_random;;
     let offsetX := ((rx - (1 # 2)) * 30)%Q in
     ry <- Math_random;;
     let offsetY := ((ry - (1 # 2)) * 30)%Q in
     set_style sparkle "left" (Px (clientX event + offsetX)%Q);;
     set_style sparkle "top" (Px (clientY event + offsetY)%Q);;
     body <- document_body;;
     match body with
     | Some body => appendChild body sparkle
     | None => throw (JsError "Cannot read properties of null (reading 'appendChild')")
     end;;
     _ <- setTimeout (RemoveBurstHeart sparkle) 800;;
     ret tt)
    (λ error,
       console_error ("[Celebration] Failed to create sparkle: " +:+ error_message error)).

(** ** runaway-button.ts *)

Definition DEFAULT_RUNAWAY_CONFIG : RunawayConfig :=
  {| minJumpDistance := 100; maxJumpDistance := 300; edgePadding := 20;
     escapeMessages :=
       [ "Ні 💔";
         "Ти впевнена? 🥺";
         "Серйозно?? 😢";
         "Подумай ще раз! 😭";
         "Ну будь ласка! 💕";
         "Не роби так! 🥹";
         "Мені буде сумно... 😿";
         "Ну прошуууу! 🙏";
         "Останній шанс! 💝";
         "Тобі мене не зловити! 😜" ] |}%Q.

(** [{ ...DEFAULT_RUNAWAY_CONFIG, ...config }] *)
Definition merge_runaway_config (config : PartialRunawayConfig) : RunawayConfig :=
  {| minJumpDistance :=
       default (minJumpDistance DEFAULT_RUNAWAY_CONFIG) (p_minJumpDistance config);
     maxJumpDistance :=
       default (maxJumpDistance DEFAULT_RUNAWAY_CONFIG) (p_maxJumpDistance config);
     edgePadding := default (edgePadding DEFAULT_RUNAWAY_CONFIG) (p_edgePadding config);
     escapeMessages :=
       default (escapeMessages DEFAULT_RUNAWAY_CONFIG) (p_escapeMessages config) |}.

(** The empty object [{}] as a [Partial<RunawayConfig>]. *)
Definition no_runaway_overrides : PartialRunawayConfig :=
  {| p_minJumpDistance := None; p_maxJumpDistance := None;
     p_edgePadding := None; p_escapeMessages := None |}.

Definition randomBetween (min max : number) : js number :=
  r <- Math_random;;
  ret (r * (max - min) + min)%Q.

Definition getRandomSafePosition (buttonWidth buttonHeight : number)
    (config : RunawayConfig) : js (number * number) :=
  iw <- gets innerWidth;;
  let maxX := (iw - buttonWidth - edgePadding config)%Q in
  ih <- gets innerHeight;;
  let maxY := (ih - buttonHeight - edgePadding config)%Q in
  rx <- randomBetween (edgePadding config) maxX;;
  let x := Qmax (edgePadding config) (Qmin rx maxX) in
  ry <- randomBetween (edgePadding config) maxY;;
  let y := Qmax (edgePadding config) (Qmin ry maxY) in
  ret (x, y).

Definition escapeFromCursor (button : node) (config : RunawayConfig) : js unit :=
  try_catch
    (runaway <- gets isRunaway;;
     (if negb runaway
      then modify (set_isRunaway true);; classList_add button "runaway"
      else ret tt);;
     width <- gets (λ w, rect_width (element_at button w));;
     height <- gets (λ w, rect_height (element_at button w));;
     pos <- getRandomSafePosition width height config;;
     set_style button "left" (Px (fst pos));;
     set_style button "top" (Px (snd pos));;
     set_style button "transition" (Raw "left 0.2s ease-out, top 0.2s ease-out");;
     count <- gets escapeCount;;
     let messageIndex :=
       Z.min count (Z.of_nat (length (escapeMessages config)) - 1) in
     set_textContent button (js_index (escapeMessages config) messageIndex);;
     modify (λ w, set_escapeCount (escapeCount w + 1) w))
    (λ error,
       console_error ("[RunawayButton] Failed to escape: " +:+ error_message error)).

Definition growYesButton (yesButton : node) : js unit :=
  try_catch
    (count <- gets escapeCount;;
     let growthLevel := Z.min (count / 2) 4 in
     classList_remove yesButton ["growing-1"; "growing-2"; "growing-3"; "growing-4"];;
     if 0 <? growthLevel
     then classList_add yesButton ("growing-" +:+ pretty growthLevel)
     else ret tt)
    (λ error,
       console_error ("[RunawayButton] Failed to grow Yes button: " +:+ error_message error)).

(** Evaluating an arrow function expression yields a new function object. *)
Definition new_function : js nat :=
  λ w, (Return (nextFn w), set_nextFn (S (nextFn w)) w).

(** [el.addEventListener(type, fn)]: ignored when the same function is
    already registered for that type. *)
Definition addEventListener (n : node) (type : string) (fn : nat) (body : handler)
    : js unit :=
  modify (update_element n (with_listeners (λ l,
    if decide (Exists (λ x, l_type x = type ∧ l_fn x = fn) l) then l
    else l ++ [{| l_type := type; l_fn := fn; l_body := body |}]))).

(** [el.removeEventListener(type, fn)] *)
Definition removeEventListener (n : node) (type : string) (fn : nat) : js unit :=
  modify (update_element n (with_listeners
    (filter (λ x, ¬ (l_type x = type ∧ l_fn x = fn))))).

Definition initRunawayButton (noButtonId yesButtonId : option string)
    (config : option PartialRunawayConfig) : js cleanup :=
  let noButtonId := default "no-button" noButtonId in
  let yesButtonId := default "yes-button" yesButtonId in
  let config := default no_runaway_overrides config in
  try_catch
    (noButton <- getElementById noButtonId;;
     yesButton <- getElementById yesButtonId;;
     match noButton with
     | None =>
         console_error
           ("[RunawayButton] No button element #" +:+ noButtonId +:+ " not found");;
         ret NoCleanup
     | Some noButton =>
         match yesButton with
         | None =>
             console_error
               ("[RunawayButton] Yes button element #" +:+ yesButtonId +:+ " not found");;
             ret NoCleanup
         | Some yesButton =>
             let mergedConfig := merge_runaway_config config in
             handleEscape <- new_function;;
             addEventListener noButton "mouseenter" handleEscape
               (HandleEscape noButton yesButton mergedConfig);;
             addEventListener noButton "touchstart" handleEscape
               (HandleEscape noButton yesButton mergedConfig);;
             onClick <- new_function;;
             addEventListener noButton "click" onClick
               (ClickEscape noButton yesButton mergedConfig);;
             ret (RunawayCleanup noButton handleEscape)
         end
     end)
    (λ error,
       console_error ("[RunawayButton] Failed to initialize: " +:+ error_message error);;
       ret NoCleanup).

Definition getEscapeCount : js Z := gets escapeCount.

(** The body of a listener; [preventDefault] and [stopPropagation] have no
    effect on the modelled state. *)
Definition run_handler (h : handler) : js unit :=
  match h with
  | HandleEscape noButton yesButton mergedConfig
  | ClickEscape noButton yesButton mergedConfig =>
      escapeFromCursor noButton mergedConfig;;
      growYesButton yesButton
  end.

(** Calling a function returned by [startCelebrationLoop] or
    [initRunawayButton]. *)
Definition run_cleanup (c : cleanup) : js unit :=
  match c with
  | NoCleanup => ret tt
  | StopCelebration id => clearInterval id
  | RunawayCleanup noButton handleEscape =>
      removeEventListener noButton "mouseenter" handleEscape;;
      removeEventListener noButton "touchstart" handleEscape;;
      modify (set_escapeCount 0);;
      modify (set_isRunaway false)
  end.

(** ** The event loop *)

(** A callback run by the browser: an exception it lets escape is reported
    and goes no further. *)
Definition top_level (m : js unit) (w : world) : world :=
  match m w with
  | (Return _, w') => w'
  | (Throw e, w') => set_uncaught (λ l, l ++ [e]) w'
  end.

(** Dispatching an event of the given type at an element runs its listeners
    for that type in registration order. *)
Definition dispatch (target : node) (type : string) (w : world) : world :=
  foldl (λ w l, top_level (run_handler (l_body l)) w) w
    (filter (λ l, l_type l = type) (listeners (element_at target w))).

(** The pending timer that is due first; among equals, the one scheduled
    first. *)
Fixpoint earliest (l : list timer) : option timer :=
  match l with
  | [] => None
  | t :: l' =>
      match earliest l' with
      | Some u => if Qlt_le_dec (t_due u) (t_due t) then Some u else Some t
      | None => Some t
      end
  end.

Section EventLoop.

Variables Math_cos Math_sin : number → number.

Definition run_task (t : task) : js unit :=
  match t with
  | SpawnHeart container mergedConfig => createFloatingHeart container mergedConfig
  | RemoveFloatingHeart container heart => removeFloatingHeart container heart
  | BurstHeart centerX centerY => burstHeart Math_cos Math_sin centerX centerY
  | RemoveBurstHeart heart => removeBurstHeart heart
  | BurstAtRandomPosition => burstAtRandomPosition
  | CelebrationDisplay celebrationScreen onCelebrate =>
      celebrationDisplay celebrationScreen onCelebrate
  end.

(** The timer leaves the queue (a timeout) or is queued again one period
    later (an interval); the clock moves to its due time; its callback
    runs. *)
Definition fire (t : timer) (w : world) : world :=
  let rest := filter (λ u, t_id u ≠ t_id t) in
  let requeue :=
    match t_every t with
    | Some p => λ l, rest l ++ [{| t_id := t_id t;
                                   t_due := (Qmax (clock w) (t_due t) + Qmax 0 p)%Q;
                                   t_every := Some p;
                                   t_task := t_task t |}]
    | None => rest
    end in
  top_level (run_task (t_task t))
    (set_timers requeue (set_clock (Qmax (clock w) (t_due t)) w)).

(** One turn of the event loop, when a timer is pending. *)
Definition turn (w : world) : world :=
  match earliest (timers w) with
  | Some t => fire t w
  | None => w
  end.

(** What can happen to the page: the event loop runs a pending timer, the
    user triggers an event, or the page script calls an exported
    function or a function one of them returned.  [Fire i] runs the i-th
    pending timer whatever its due time, so that a property of all sequences
    of actions holds for every order in which timers can fire. *)
Inductive action :=
| Fire (i : nat)
| Dispatch (target : node) (type : string)
| CallStartFloatingHearts (containerId : option string)
    (config : option PartialFloatingHeartConfig)
| CallStopFloatingHearts
| CallCreateHeartBurst (centerX centerY : number) (count : option nat)
| CallStartCelebrationLoop (intervalMs : option number)
| CallShowCelebration (questionScreenId celebrationScreenId : option string)
    (onCelebrate : option callback)
| CallInitRunawayButton (noButtonId yesButtonId : option string)
    (config : option PartialRunawayConfig)
| CallCleanup (c : cleanup)
| CallGetEscapeCount
| CallCreateSparkle (event : MouseEvent).

Definition perform (a : action) (w : world) : world :=
  match a with
  | Fire i =>
      match timers w !! i with
      | Some t => fire t w
      | None => w
      end
  | Dispatch target type => dispatch target type w
  | CallStartFloatingHearts containerId config =>
      top_level (startFloatingHearts containerId config) w
  | CallStopFloatingHearts => top_level stopFloatingHearts w
  | CallCreateHeartBurst centerX centerY count =>
      top_level (createHeartBurst centerX centerY count) w
  | CallStartCelebrationLoop intervalMs =>
      top_level (startCelebrationLoop intervalMs;; ret tt) w
  | CallShowCelebration questionScreenId celebrationScreenId onCelebrate =>
      top_level (showCelebration questionScreenId celebrationScreenId onCelebrate) w
  | CallInitRunawayButton noButtonId yesButtonId config =>
      top_level (initRunawayButton noButtonId yesButtonId config;; ret tt) w
  | CallCleanup c => top_level (run_cleanup c) w
  | CallGetEscapeCount => top_level (getEscapeCount;; ret tt) w
  | CallCreateSparkle event => top_level (createSparkle event) w
  end.

Definition run (actions : list action) (w : world) : world :=
  foldl (λ w a, perform a w) w actions.

End EventLoop.

(** ** A concrete page

    The document of [index.html] reduced to the elements the modules look
    up, in a viewport of 800 by 600. *)

Definition tagged (tag : string) (id : option string) (classes : list string)
    (parent : option node) (kids : list node) (width height : number) : element :=
  {| localName := tag; el_id := id; classList := classes; textContent := "";
     style := ∅; parentNode := parent; children := kids;
     rect_width := width; rect_height := height; listeners := [] |}.

Definition page_elements : list element :=
  [ tagged "body" None [] None [1; 2; 3]%nat 800 600;
    tagged "div" (Some "hearts-container") [] (Some 0%nat) [] 800 600;
    tagged "div" (Some "question-screen") ["screen"; "active"] (Some 0%nat) [4; 5]%nat 800 600;
    tagged "div" (Some "celebration-screen") ["screen"] (Some 0%nat) [] 800 600;
    tagged "button" (Some "no-button") ["btn"] (Some 2%nat) [] 100 40;
    tagged "button" (Some "yes-button") ["btn"] (Some 2%nat) [] 120 48 ]%Q.

(** A random source that cycles through tenths: 0, 0.1, ..., 0.9, 0, ... *)
Definition tenths (n : nat) : number := (Z.of_nat (n mod 10) # 10)%Q.

Definition page : world :=
  {| elements := page_elements; innerWidth := 800; innerHeight := 600;
     random := tenths; drawn := 0; console := []; clock := 0; timers := [];
     nextTimer := 1; nextFn := 0; invoked := []; uncaught := [];
     heartIntervalId := None; escapeCount := 0; isRunaway := false |}%Q.

(** The same page without any of the looked-up elements. *)
Definition bare_page : world :=
  set_elements (λ _, [tagged "body" None [] None [] 800 600]%Q) page.

(** A page state in which the No button has already escaped [n] times. *)
Definition page_after_escapes (n : Z) : world := set_escapeCount n page.

(** The emitter's overrides [{ maxHearts: 3 }]. *)
Definition three_hearts : PartialFloatingHeartConfig :=
  {| p_minDuration := None; p_maxDuration := None; p_minSize := None;
     p_maxSize := None; p_spawnInterval := None; p_maxHearts := Some 3%Q |}.

(** A document without a body. *)
Definition no_document : world := set_elements (λ _, []) page.

(** Stand-ins for [Math.cos] and [Math.sin] when a statement is run on
    concrete data. *)
Definition flat_cos (x : number) : number := 1%Q.
Definition flat_sin (x : number) : number := 0%Q.

(** ** Vocabulary of the properties *)

(** [m] keeps [I], however it completes. *)
Definition preserves {A} (I : world → Prop) (m : js A) : Prop :=
  ∀ w, I w → I (exec m w).

(** The class names [growYesButton] manages. *)
Definition growth_markers : list string :=
  ["growing-1"; "growing-2"; "growing-3"; "growing-4"].

(** The function returned by a successful [initRunawayButton]. *)
Definition is_runaway_cleanup (c : cleanup) : bool :=
  match c with
  | RunawayCleanup _ _ => true
  | _ => false
  end.

(** The one action that may lower the escape counter: calling the function
    a successful [initRunawayButton] returned. *)
Definition resets_counter (a : action) : bool :=
  match a with
  | CallCleanup c => is_runaway_cleanup c
  | _ => false
  end.

(** A pending recurring timer that spawns floating hearts. *)
Definition is_spawn_interval (t : timer) : bool :=
  match t_every t, t_task t with
  | Some _, SpawnHeart _ _ => true
  | _, _ => false
  end.

(** The timers a loop of [setTimeout] calls appends: the [n] iterations
    starting at index [from], with the delay of each. *)
Definition staggered (t : task) (delay : nat → number) (w : world) (from n : nat)
    : list timer :=
  map (λ i, {| t_id := (nextTimer w + i)%nat;
               t_due := (clock w + Qmax 0 (delay (from + i)%nat))%Q;
               t_every := None;
               t_task := t |}) (seq 0 n).

Section BurstHeartElement.

Variables Math_cos Math_sin : number → number.

(** The element [burstHeart] has built when it reaches [appendChild]. *)
Definition burst_heart_element (centerX centerY : number) (w : world) : element :=
  let angle := (random w (S (drawn w)) * (Math_PI * 2 - 0) + 0)%Q in
  let distance := (random w (S (S (drawn w))) * (400 - 100) + 100)%Q in
  {| localName := "span"; el_id := None; classList := ["burst-heart"];
     textContent :=
       default "" (js_index CELEBRATION_HEARTS
                     (Qfloor (random w (drawn w) * inject_Z 12)));
     style :=
       <["font-size" := Rem (random w (S (S (S (drawn w)))) * (3 - 1) + 1)%Q]>
         (<["--ty" := Px (Math_sin angle * distance)%Q]>
            (<["--tx" := Px (Math_cos angle * distance)%Q]>
               (<["top" := Px centerY]> (<["left" := Px centerX]> ∅))));
     parentNode := None; children := [];
     rect_width := 0%Q; rect_height := 0%Q; listeners := [] |}.

End BurstHeartElement.

(** The timers [startCelebrationLoop] adds after its first burst of 40. *)
Definition loop_timers (intervalMs : number) (w : world) : list timer :=
  [ {| t_id := (nextTimer w + 40)%nat; t_due := (clock w + 500)%Q;
       t_every := None; t_task := BurstAtRandomPosition |};
    {| t_id := (nextTimer w + 41)%nat; t_due := (clock w + 1000)%Q;
       t_every := None; t_task := BurstAtRandomPosition |};
    {| t_id := (nextTimer w + 42)%nat; t_due := (clock w + Qmax 0 intervalMs)%Q;
       t_every := Some intervalMs; t_task := BurstAtRandomPosition |} ].

(** The element [createFloatingHeart] has built when it reaches
    [appendChild]. *)
Definition floating_heart_element (config : FloatingHeartConfig) (w : world) : element :=
  let size := (random w (S (drawn w)) * (maxSize config - minSize config)
               + minSize config)%Q in
  let duration := (random w (S (S (drawn w)))
                   * (maxDuration config - minDuration config) + minDuration config)%Q in
  let left := (random w (S (S (S (drawn w)))) * (100 - 0) + 0)%Q in
  let delay := (random w (S (S (S (S (drawn w))))) * (3 - 0) + 0)%Q in
  {| localName := "span"; el_id := None; classList := ["floating-heart"];
     textContent :=
       default "" (js_index HEART_EMOJIS (Qfloor (random w (drawn w) * inject_Z 11)));
     style :=
       <["animation-delay" := Seconds delay]>
         (<["animation-duration" := Seconds duration]>
            (<["left" := Percent left]> (<["font-size" := Rem size]> ∅)));
     parentNode := None; children := [];
     rect_width := 0%Q; rect_height := 0%Q; listeners := [] |}.

(** How long a floating heart lives, in milliseconds. *)
Definition floating_heart_life (config : FloatingHeartConfig) (w : world) : Q :=
  ((random w (S (S (drawn w))) * (maxDuration config - minDuration config)
    + minDuration config
    + (random w (S (S (S (S (drawn w))))) * (3 - 0) + 0)) * 1000)%Q.

(** Every pending spawn for [container] was configured with the ceiling
    [M]. *)
Definition spawns_respect (container : nat) (M : nat) (l : list timer) : Prop :=
  ∀ t cfg, t ∈ l → t_task t = SpawnHeart container cfg →
           (maxHearts cfg == inject_Z (Z.of_nat M))%Q.

(** The children of [container] that are floating hearts. *)
Definition floating_hearts (container : nat) (w : world) : list nat :=
  filter (λ h, "floating-heart" ∈ classList (element_at h w))
    (children (element_at container w)).

(** What the emitter maintains for its container: the floating hearts in it
    are at most [M], and so are all its children unless it is the document
    body, to which bursts are attached. *)
Definition emitter_inv (container : nat) (M : nat) (w : world) : Prop :=
  (container < length (elements w))%nat ∧
  Forall (λ h, (h < length (elements w))%nat) (children (element_at container w)) ∧
  (length (floating_hearts container w) ≤ M)%nat ∧
  (localName (element_at container w) ≠ "body" →
   (length (children (element_at container w)) ≤ M)%nat) ∧
  spawns_respect container M (timers w).

(** A start of the emitter uses the ceiling [M]; any other action is
    unconstrained. *)
Definition respects_ceiling (M : nat) (a : action) : Prop :=
  match a with
  | CallStartFloatingHearts _ config =>
      (maxHearts (merge_heart_config (default no_heart_overrides config))
       == inject_Z (Z.of_nat M))%Q
  | _ => True
  end.

(** A task that may be queued: no spawn for the container with another
    ceiling. *)
Definition task_ok (container M : nat) (t : task) : Prop :=
  ∀ cfg, t = SpawnHeart container cfg → (maxHearts cfg == inject_Z (Z.of_nat M))%Q.

(** The element does not carry the marker [active]. *)
Definition inactive (n : nat) (w : world) : Prop :=
  "active" ∉ classList (element_at n w).

(** The deferred step of [showCelebration]. *)
Definition is_display (t : task) : bool :=
  match t with
  | CelebrationDisplay _ _ => true
  | _ => false
  end.

(** The action runs a deferred step of [showCelebration]. *)
Definition displays (a : action) (w : world) : Prop :=
  match a with
  | Fire i =>
      match timers w !! i with
      | Some t => is_display (t_task t) = true
      | None => False
      end
  | _ => False
  end.

(** The element [createSparkle] has built when it reaches [appendChild]. *)
Definition sparkle_element (event : MouseEvent) (w : world) : element :=
  {| localName := "span"; el_id := None; classList := ["sparkle"];
     textContent :=
       default "" (js_index sparkleEmojis (Qfloor (random w (drawn w) * inject_Z 5)));
     style :=
       <["top" := Px (clientY event + (random w (S (S (drawn w))) - (1 # 2)) * 30)%Q]>
         (<["left" := Px (clientX event + (random w (S (drawn w)) - (1 # 2)) * 30)%Q]> ∅);
     parentNode := None; children := [];
     rect_width := 0%Q; rect_height := 0%Q; listeners := [] |}.

(** Every pending recurring spawn timer is the one whose handle the module
    remembers in [heartIntervalId]. *)
Definition remembered (w : world) : Prop :=
  ∀ t, t ∈ timers w → is_spawn_interval t = true → heartIntervalId w = Some (t_id t).

(** The emitter is started only while no handle is remembered. *)
Definition starts_when_stopped (a : action) (w : world) : Prop :=
  match a with
  | CallStartFloatingHearts _ _ => heartIntervalId w = None
  | _ => True
  end.

Section Discipline.

Variables Math_cos Math_sin : number → number.

(** A sequence of actions in which every start of the emitter finds it
    stopped. *)
Fixpoint disciplined (actions : list action) (w : world) : Prop :=
  match actions with
  | [] => True
  | a :: rest =>
      starts_when_stopped a w ∧ disciplined rest (perform Math_cos Math_sin a w)
  end.

End Discipline.

(** The event types [initRunawayButton] listens to. *)
Definition escape_triggers : list string := ["mouseenter"; "touchstart"; "click"].

(** * Properties *)

Arguments body_element : simpl never.
Arguments element_with_id : simpl never.
Arguments Qfloor : simpl never.
Arguments js_index : simpl never.
Arguments createHeartBurst : simpl never.
Arguments staggered : simpl never.
Arguments remove_children : simpl never.

(** Projections of updated worlds, and nothing else. *)
Ltac world_simpl :=
  cbn [elements innerWidth innerHeight random drawn console clock timers nextTimer
       nextFn invoked uncaught heartIntervalId escapeCount isRunaway
       set_elements set_drawn set_console set_clock set_timers set_nextTimer
       set_nextFn set_invoked set_uncaught set_heartIntervalId set_escapeCount
       set_isRunaway update_element fst snd app default from_option id].

Lemma world_ext (w1 w2 : world) :
  elements w1 = elements w2 → innerWidth w1 = innerWidth w2 →
  innerHeight w1 = innerHeight w2 → random w1 = random w2 → drawn w1 = drawn w2 →
  console w1 = console w2 → clock w1 = clock w2 → timers w1 = timers w2 →
  nextTimer w1 = nextTimer w2 → nextFn w1 = nextFn w2 → invoked w1 = invoked w2 →
  uncaught w1 = uncaught w2 → heartIntervalId w1 = heartIntervalId w2 →
  escapeCount w1 = escapeCount w2 → isRunaway w1 = isRunaway w2 →
  w1 = w2.
Proof. destruct w1, w2. cbn. intros. subst. reflexivity. Qed.

Lemma bind_returns {A B} (m : js A) (k : A → js B) w a w' :
  m w = (Return a, w') → bind m k w = k a w'.
Proof. intros H. unfold bind. rewrite H. reflexivity. Qed.

(** ** The element heap *)

Lemma elements_update n f w :
  elements (update_element n f w) = alter f n (elements w).
Proof. reflexivity. Qed.

Lemma elements_length_update n f w :
  length (elements (update_element n f w)) = length (elements w).
Proof. rewrite elements_update. apply length_alter. Qed.

Lemma element_at_update_eq n f w :
  (n < length (elements w))%nat →
  element_at n (update_element n f w) = f (element_at n w).
Proof.
  intros H. unfold element_at. rewrite elements_update, list_lookup_alter_eq.
  destruct (lookup_lt_is_Some_2 _ _ H) as [e ->]. reflexivity.
Qed.

Lemma element_at_update_ne n m f w :
  n ≠ m → element_at n (update_element m f w) = element_at n w.
Proof.
  intros H. unfold element_at. rewrite elements_update.
  rewrite list_lookup_alter_ne by congruence. reflexivity.
Qed.

Lemma length_foldr_alter {A} (g : A → A) (cs : list nat) (l : list A) :
  length (foldr (alter g) l cs) = length l.
Proof.
  induction cs as [|c cs IH]; [reflexivity|]. cbn [foldr].
  rewrite length_alter. exact IH.
Qed.

Lemma lookup_foldr_alter {A} (g : A → A) (cs : list nat) (l : list A) (m : nat) :
  (∀ e, g (g e) = g e) →
  foldr (alter g) l cs !! m = if decide (m ∈ cs) then g <$> l !! m else l !! m.
Proof.
  intros Hg. induction cs as [|c cs IH]; cbn [foldr].
  - destruct (decide (m ∈ [])) as [H|_]; [inversion H | reflexivity].
  - destruct (decide (m = c)) as [->|Hne].
    + rewrite list_lookup_alter_eq, IH.
      destruct (decide (c ∈ c :: cs)) as [_|H]; [|exfalso; apply H, list_elem_of_here].
      destruct (decide (c ∈ cs)); destruct (l !! c); cbn; [rewrite Hg| | |]; reflexivity.
    + rewrite list_lookup_alter_ne by congruence. rewrite IH.
      destruct (decide (m ∈ cs)) as [Hin|Hout], (decide (m ∈ c :: cs)) as [Hin'|Hout'];
        try reflexivity; exfalso.
      * apply Hout', list_elem_of_further, Hin.
      * apply elem_of_cons in Hin' as [E|Hin']; [congruence | contradiction].
Qed.

Lemma elements_length_remove_children n w :
  length (elements (remove_children n w)) = length (elements w).
Proof.
  unfold remove_children. rewrite elements_length_update. cbn.
  apply length_foldr_alter.
Qed.

(** Removing the children of [n]: [n] has no child left, its former
    children have no parent, and nothing else changes. *)
Lemma element_at_remove_children n m w :
  element_at m (remove_children n w) =
  (if decide (m = n) then with_children (λ _, []) else id)
    ((if decide (m ∈ children (element_at n w)) then with_parentNode None else id)
       (element_at m w)).
Proof.
  set (cs := children (element_at n w)).
  assert (∀ k, default (blank "")
                 (foldr (alter (with_parentNode None)) (elements w) cs !! k)
               = (if decide (k ∈ cs) then with_parentNode None else id) (element_at k w))
    as Hparents.
  { intros k. unfold element_at. rewrite lookup_foldr_alter by reflexivity.
    destruct (decide (k ∈ cs)); [|reflexivity].
    destruct (elements w !! k); reflexivity. }
  unfold remove_children, element_at at 1. rewrite elements_update. cbn [elements set_elements].
  fold cs. destruct (decide (m = n)) as [->|Hne].
  - rewrite list_lookup_alter_eq, <- Hparents.
    destruct (foldr _ _ _ !! n); reflexivity.
  - rewrite list_lookup_alter_ne by congruence. apply Hparents.
Qed.

(** An element found by id is an element of the heap. *)
Lemma element_with_id_valid id w n :
  element_with_id id w = Some n →
  (n < length (elements w))%nat ∧ el_id (element_at n w) = Some id.
Proof.
  unfold element_with_id. intros H.
  destruct (list_find _ _) as [[i e]|] eqn:Hf; [|discriminate].
  cbn in H. injection H as <-.
  apply list_find_Some in Hf as (Hl & He & _).
  split; [eapply lookup_lt_Some; eassumption|].
  unfold element_at. rewrite Hl. exact He.
Qed.

(** Discharges [n < length (elements w')] for a world [w'] obtained from [w]
    by updates in place. *)
Ltac valid :=
  cbn;
  repeat first [ rewrite elements_length_update | rewrite length_alter
               | rewrite elements_length_remove_children | progress cbn ];
  first [assumption | lia].

(** Unfolds the statement combinators so that [cbn] runs a straight-line
    body. *)
Ltac run_js := unfold exec, result, try_catch, bind, gets, modify, ret, throw; cbn.

(** ** Safe positions of the runaway button *)

Lemma clamp_bounds (lo hi r : Q) :
  (lo <= hi)%Q → (lo <= Qmax lo (Qmin r hi) <= hi)%Q.
Proof.
  intros H. split.
  - apply Q.le_max_l.
  - apply Q.max_lub; [exact H | apply Q.le_min_r].
Qed.

Lemma getRandomSafePosition_returns bw bh cfg w :
  ∃ x y, result (getRandomSafePosition bw bh cfg) w = Return (x, y) ∧
    x = Qmax (edgePadding cfg)
          (Qmin (random w (drawn w)
                 * (innerWidth w - bw - edgePadding cfg - edgePadding cfg)
                 + edgePadding cfg)
             (innerWidth w - bw - edgePadding cfg))%Q ∧
    y = Qmax (edgePadding cfg)
          (Qmin (random w (S (drawn w))
                 * (innerHeight w - bh - edgePadding cfg - edgePadding cfg)
                 + edgePadding cfg)
             (innerHeight w - bh - edgePadding cfg))%Q.
Proof. eexists _, _. split; [reflexivity|]. split; reflexivity. Qed.

Lemma safe_position_bounds bw bh cfg w :
  (2 * edgePadding cfg + bw < innerWidth w)%Q →
  (2 * edgePadding cfg + bh < innerHeight w)%Q →
  ∃ x y, result (getRandomSafePosition bw bh cfg) w = Return (x, y) ∧
    (edgePadding cfg <= x <= innerWidth w - bw - edgePadding cfg)%Q ∧
    (edgePadding cfg <= y <= innerHeight w - bh - edgePadding cfg)%Q.
Proof.
  intros Hw Hh.
  destruct (getRandomSafePosition_returns bw bh cfg w) as (x & y & Hr & -> & ->).
  eexists _, _. split; [exact Hr|].
  split; apply clamp_bounds; lra.
Qed.

(** C5. For every random source and every viewport wider than
    [2*edgePadding + elementWidth] and taller than
    [2*edgePadding + elementHeight], the position computed by
    [getRandomSafePosition] satisfies
    [edgePadding <= x <= viewportWidth - elementWidth - edgePadding] and
    [edgePadding <= y <= viewportHeight - elementHeight - edgePadding]; in
    particular, in a viewport of 800 by 600 with an element of 100 by 40 and
    [edgePadding] 20, x lies in [20, 680] and y in [20, 540]. *)
Theorem getRandomSafePosition_in_bounds :
  (∀ w bw bh cfg,
     (2 * edgePadding cfg + bw < innerWidth w)%Q →
     (2 * edgePadding cfg + bh < innerHeight w)%Q →
     ∃ x y, result (getRandomSafePosition bw bh cfg) w = Return (x, y) ∧
       (edgePadding cfg <= x <= innerWidth w - bw - edgePadding cfg)%Q ∧
       (edgePadding cfg <= y <= innerHeight w - bh - edgePadding cfg)%Q) ∧
  (∀ w cfg,
     (innerWidth w == 800)%Q → (innerHeight w == 600)%Q →
     (edgePadding cfg == 20)%Q →
     ∃ x y, result (getRandomSafePosition 100 40 cfg) w = Return (x, y) ∧
       (20 <= x <= 680)%Q ∧ (20 <= y <= 540)%Q).
Proof.
  split.
  - intros. apply safe_position_bounds; assumption.
  - intros w cfg Hw Hh Hp.
    destruct (safe_position_bounds 100 40 cfg w) as (x & y & Hr & Hx & Hy);
      [lra | lra |].
    exists x, y. split; [exact Hr|]. lra.
Qed.

(** ** Invariants of statements *)

Lemma preserves_ret {A} I (a : A) : preserves I (ret a).
Proof. intros w H. exact H. Qed.

Lemma preserves_throw {A} I e : preserves I (@throw A e).
Proof. intros w H. exact H. Qed.

Lemma preserves_gets {A} I (f : world → A) : preserves I (gets f).
Proof. intros w H. exact H. Qed.

Lemma preserves_bind {A B} I (m : js A) (k : A → js B) :
  preserves I m → (∀ a, preserves I (k a)) → preserves I (bind m k).
Proof.
  intros Hm Hk w H. specialize (Hm w H). unfold exec, bind in *.
  destruct (m w) as [[a|e] w']; cbn in *; [apply Hk, Hm | exact Hm].
Qed.

Lemma preserves_try_catch {A} I (m : js A) (h : exn → js A) :
  preserves I m → (∀ e, preserves I (h e)) → preserves I (try_catch m h).
Proof.
  intros Hm Hh w H. specialize (Hm w H). unfold exec, try_catch in *.
  destruct (m w) as [[a|e] w']; cbn in *; [exact Hm | apply Hh, Hm].
Qed.

Lemma preserves_for_loop I from n body :
  (∀ i, preserves I (body i)) → preserves I (for_loop from n body).
Proof.
  intros Hb. revert from. induction n as [|n IH]; intros from; cbn.
  - apply preserves_ret.
  - apply preserves_bind; [apply Hb | intros _; apply IH].
Qed.

Lemma preserves_modify I f :
  (∀ w, I w → I (f w)) → preserves I (modify f).
Proof. intros Hf w H. apply Hf, H. Qed.

Lemma preserves_top_level I m w :
  (∀ e w, I w → I (set_uncaught (λ l, l ++ [e]) w)) →
  preserves I m → I w → I (top_level m w).
Proof.
  intros Hu Hm H. specialize (Hm w H). unfold top_level, exec in *.
  destruct (m w) as [[a|e] w']; cbn in *; [exact Hm | apply Hu, Hm].
Qed.

(** Walks through the control structure of a statement down to the
    primitives, which [leaf] must handle. *)
Ltac preserves_with leaf :=
  repeat lazymatch goal with
  | |- preserves _ (bind _ _) => apply preserves_bind; [| intros ?]
  | |- preserves _ (try_catch _ _) => apply preserves_try_catch; [| intros ?]
  | |- preserves _ (ret _) => apply preserves_ret
  | |- preserves _ (throw _) => apply preserves_throw
  | |- preserves _ (gets _) => apply preserves_gets
  | |- preserves _ (for_loop _ _ _) => apply preserves_for_loop; intros ?
  | |- preserves _ (match ?x with _ => _ end) => destruct x
  | |- preserves _ (let _ := _ in _) => cbv zeta
  | |- preserves _ _ => leaf
  end.

Create HintDb page_code.
#[global] Hint Unfold createFloatingHeart removeFloatingHeart startFloatingHearts
  stopFloatingHearts createHeartBurst removeBurstHeart burstHeart
  burstAtRandomPosition startCelebrationLoop showCelebration celebrationDisplay
  randomInRange randomBetween random_pick getRandomSafePosition escapeFromCursor
  growYesButton initRunawayButton getEscapeCount run_handler run_cleanup run_task
  removeChild call get_parentNode children_length getElementById document_body
  setTimeout setInterval : page_code.
#[global] Hint Unfold createSparkle : page_code.

(** ** The escape routine *)

Lemma escapeFromCursor_count button cfg w :
  escapeCount (exec (escapeFromCursor button cfg) w) = escapeCount w + 1.
Proof. unfold escapeFromCursor. run_js. destruct (isRunaway w); reflexivity. Qed.

Lemma escapeFromCursor_returns button cfg w :
  result (escapeFromCursor button cfg) w = Return tt.
Proof. unfold escapeFromCursor. run_js. destruct (isRunaway w); reflexivity. Qed.

Lemma escapeFromCursor_flag button cfg w :
  isRunaway (exec (escapeFromCursor button cfg) w) = true.
Proof. unfold escapeFromCursor. run_js. destruct (isRunaway w) eqn:E; cbn; [exact E | reflexivity]. Qed.

Lemma escapeFromCursor_length button cfg w :
  length (elements (exec (escapeFromCursor button cfg) w)) = length (elements w).
Proof.
  unfold escapeFromCursor. run_js.
  destruct (isRunaway w); cbn;
    repeat first [ rewrite elements_length_update | rewrite length_alter
                 | rewrite elements_length_remove_children | progress cbn ];
    reflexivity.
Qed.

Lemma escapeFromCursor_text button cfg w :
  (button < length (elements w))%nat →
  textContent (element_at button (exec (escapeFromCursor button cfg) w)) =
  default "" (js_index (escapeMessages cfg)
                (Z.min (escapeCount w) (Z.of_nat (length (escapeMessages cfg)) - 1))).
Proof.
  intros Hb. unfold escapeFromCursor. run_js.
  destruct (isRunaway w); cbn;
    change (element_at button (set_escapeCount ?v ?w)) with (element_at button w);
    rewrite element_at_update_eq by valid; reflexivity.
Qed.

(** ** The growth tier of the Yes button *)

Lemma small_tier (k : Z) : 1 ≤ k ≤ 4 → k = 1 ∨ k = 2 ∨ k = 3 ∨ k = 4.
Proof. lia. Qed.

Lemma marker_listed (k : Z) :
  1 ≤ k ≤ 4 → "growing-" +:+ pretty k ∈ growth_markers.
Proof.
  intros H. destruct (small_tier k H) as [-> | [-> | [-> | ->]]];
    unfold growth_markers;
    repeat first [apply list_elem_of_here | apply list_elem_of_further].
Qed.

Lemma marker_inj (j k : Z) :
  1 ≤ j ≤ 4 → 1 ≤ k ≤ 4 →
  "growing-" +:+ pretty j = "growing-" +:+ pretty k → j = k.
Proof.
  intros Hj Hk.
  destruct (small_tier j Hj) as [-> | [-> | [-> | ->]]];
    destruct (small_tier k Hk) as [-> | [-> | [-> | ->]]];
    intros E; first [reflexivity | discriminate E].
Qed.

Lemma growYesButton_classes yes w :
  (yes < length (elements w))%nat →
  classList (element_at yes (exec (growYesButton yes) w)) =
  let tier := Z.min (escapeCount w / 2) 4 in
  let kept := filter (λ c, c ∉ growth_markers) (classList (element_at yes w)) in
  if 0 <? tier
  then if decide ("growing-" +:+ pretty tier ∈ kept) then kept
       else kept ++ ["growing-" +:+ pretty tier]
  else kept.
Proof.
  intros Hy. unfold growYesButton. run_js.
  destruct (0 <? _); cbn; rewrite !element_at_update_eq by valid; reflexivity.
Qed.

Lemma growYesButton_marker yes w (k : Z) :
  (yes < length (elements w))%nat → 1 ≤ k ≤ 4 →
  "growing-" +:+ pretty k ∈ classList (element_at yes (exec (growYesButton yes) w)) ↔
  k = Z.min (escapeCount w / 2) 4.
Proof.
  intros Hy Hk. rewrite growYesButton_classes by assumption. cbv zeta.
  set (tier := Z.min (escapeCount w / 2) 4).
  set (kept := filter _ _).
  assert ("growing-" +:+ pretty k ∉ kept) as Hnot.
  { unfold kept. rewrite list_elem_of_filter. intros [Hn _].
    apply Hn, marker_listed, Hk. }
  destruct (0 <? tier) eqn:Ht.
  - apply Z.ltb_lt in Ht. assert (1 ≤ tier ≤ 4) as Hr by (unfold tier in *; lia).
    destruct (decide _) as [Hin|Hin].
    + split; [intros H; contradiction|].
      intros ->. contradiction.
    + rewrite elem_of_app, list_elem_of_singleton. split.
      * intros [H|H]; [contradiction|]. apply marker_inj; assumption.
      * intros ->. right. reflexivity.
  - apply Z.ltb_ge in Ht. split; [intros H; contradiction | lia].
Qed.

Lemma growYesButton_count yes w :
  escapeCount (exec (growYesButton yes) w) = escapeCount w.
Proof. unfold growYesButton. run_js. destruct (0 <? _); reflexivity. Qed.

Lemma growYesButton_flag yes w :
  isRunaway (exec (growYesButton yes) w) = isRunaway w.
Proof. unfold growYesButton. run_js. destruct (0 <? _); reflexivity. Qed.

Lemma exec_bind {A B} (m : js A) (k : A → js B) a w :
  result m w = Return a → exec (bind m k) w = exec (k a) (exec m w).
Proof.
  unfold result, exec, bind. destruct (m w) as [[a'|e] w']; cbn; [|discriminate].
  intros [= ->]. reflexivity.
Qed.

Lemma result_bind {A B} (m : js A) (k : A → js B) a w :
  result m w = Return a → result (bind m k) w = result (k a) (exec m w).
Proof.
  unfold result, exec, bind. destruct (m w) as [[a'|e] w']; cbn; [|discriminate].
  intros [= ->]. reflexivity.
Qed.

(** Both listeners run the escape routine and then regrow the Yes button. *)
Lemma run_handler_exec h w :
  exec (run_handler h) w =
  match h with
  | HandleEscape noButton yesButton cfg | ClickEscape noButton yesButton cfg =>
      exec (growYesButton yesButton) (exec (escapeFromCursor noButton cfg) w)
  end.
Proof.
  destruct h as [n y c|n y c]; cbn [run_handler];
    exact (exec_bind _ (λ _, growYesButton y) tt w (escapeFromCursor_returns n c w)).
Qed.

Lemma run_handler_count h w :
  escapeCount (exec (run_handler h) w) = escapeCount w + 1.
Proof.
  rewrite run_handler_exec.
  destruct h; rewrite growYesButton_count; apply escapeFromCursor_count.
Qed.

Lemma run_handler_flag h w : isRunaway (exec (run_handler h) w) = true.
Proof.
  rewrite run_handler_exec.
  destruct h; rewrite growYesButton_flag; apply escapeFromCursor_flag.
Qed.

(** C3. After every escape event, for every value of the escape counter, the
    Yes button's growth tier is [min(floor(escapeCount/2), 4)] for the
    counter value at that moment: of the markers [growing-1] to [growing-4],
    the button carries exactly the one of that tier, and none when the tier
    is 0.  Both listener bodies (hover or touch, and click) behave alike. *)
Theorem growth_tier_after_escape noButton yesButton cfg w (k : Z) :
  (yesButton < length (elements w))%nat →
  1 ≤ k ≤ 4 →
  let after := exec (run_handler (HandleEscape noButton yesButton cfg)) w in
  exec (run_handler (ClickEscape noButton yesButton cfg)) w = after ∧
  escapeCount after = escapeCount w + 1 ∧
  ("growing-" +:+ pretty k ∈ classList (element_at yesButton after) ↔
   k = Z.min (escapeCount after / 2) 4).
Proof.
  intros Hy Hk after. split; [|split].
  - unfold after. rewrite !run_handler_exec. reflexivity.
  - apply run_handler_count.
  - unfold after. rewrite run_handler_exec, growYesButton_count.
    apply growYesButton_marker; [|exact Hk].
    rewrite escapeFromCursor_length. exact Hy.
Qed.

(** ** The escalating message *)

Lemma js_index_nat {A} (l : list A) (i : Z) :
  0 ≤ i → js_index l i = l !! Z.to_nat i.
Proof. intros H. unfold js_index. destruct (Z.ltb_spec i 0); [lia | reflexivity]. Qed.

(** For any non-empty message list the text shown is the entry at the
    clamped index. *)
Lemma escape_message_index button cfg w :
  (button < length (elements w))%nat →
  0 ≤ escapeCount w →
  escapeMessages cfg ≠ [] →
  escapeMessages cfg
    !! Z.to_nat (Z.min (escapeCount w) (Z.of_nat (length (escapeMessages cfg)) - 1))
  = Some (textContent (element_at button (exec (escapeFromCursor button cfg) w))).
Proof.
  intros Hb Hc Hne. rewrite escapeFromCursor_text by exact Hb.
  assert (0 < length (escapeMessages cfg))%nat as Hlen.
  { destruct (escapeMessages cfg); [congruence | cbn; lia]. }
  rewrite js_index_nat by lia.
  destruct (lookup_lt_is_Some_2 (escapeMessages cfg)
              (Z.to_nat (Z.min (escapeCount w)
                           (Z.of_nat (length (escapeMessages cfg)) - 1))))
    as [m Hm]; [lia|].
  rewrite Hm. reflexivity.
Qed.

(** C4. On every escape the No button shows the message at index
    [min(escapeCount before the increment, length - 1)] of the ten
    predefined messages; from a counter of 9 on, it is the last message every
    time: the index clamps and never wraps. *)
Theorem escape_message_clamped button cfg w :
  (button < length (elements w))%nat →
  0 ≤ escapeCount w →
  escapeMessages cfg = escapeMessages DEFAULT_RUNAWAY_CONFIG →
  let shown := textContent (element_at button (exec (escapeFromCursor button cfg) w)) in
  length (escapeMessages cfg) = 10%nat ∧
  escapeMessages cfg !! Z.to_nat (Z.min (escapeCount w) (10 - 1)) = Some shown ∧
  (9 ≤ escapeCount w →
   shown = "Тобі мене не зловити! 😜" ∧ last (escapeMessages cfg) = Some shown).
Proof.
  intros Hb Hc Hm shown.
  assert (length (escapeMessages cfg) = 10%nat) as Hlen by (rewrite Hm; reflexivity).
  assert (escapeMessages cfg
            !! Z.to_nat (Z.min (escapeCount w) (10 - 1)) = Some shown) as Hshown.
  { pose proof (escape_message_index button cfg w Hb Hc) as H.
    rewrite Hlen in H. apply H. rewrite Hm. discriminate. }
  split; [exact Hlen|]. split; [exact Hshown|].
  intros H9. replace (Z.min (escapeCount w) (10 - 1)) with 9 in Hshown by lia.
  rewrite Hm in Hshown |- *. cbn in Hshown. injection Hshown as <-.
  split; reflexivity.
Qed.

(** ** The shared escape counter *)

Lemma getEscapeCount_reads w : result getEscapeCount w = Return (escapeCount w).
Proof. reflexivity. Qed.

Lemma growYesButton_returns yes w : result (growYesButton yes) w = Return tt.
Proof. unfold growYesButton. run_js. destruct (0 <? _); reflexivity. Qed.

Lemma run_handler_returns h w : result (run_handler h) w = Return tt.
Proof.
  destruct h as [n y c|n y c]; cbn [run_handler];
    rewrite (result_bind _ (λ _, growYesButton y) tt w (escapeFromCursor_returns n c w));
    apply growYesButton_returns.
Qed.

Lemma top_level_returns m w :
  result m w = Return tt → top_level m w = exec m w.
Proof.
  unfold top_level, result, exec. destruct (m w) as [[[]|e] w']; cbn; congruence.
Qed.

(** Primitives that leave a field alone, or only raise the counter. *)
Ltac count_leaf :=
  let w := fresh "w" in let H := fresh "H" in
  intros w H; first [exact H | cbn in *; lia].

(** Every listener that runs adds one to the counter. *)
Lemma dispatch_count target type w :
  escapeCount (dispatch target type w) =
  escapeCount w
  + Z.of_nat (length (filter (λ l, l_type l = type) (listeners (element_at target w)))).
Proof.
  unfold dispatch. generalize (filter (λ l, l_type l = type) (listeners (element_at target w))).
  intros ls. revert w. induction ls as [|l ls IH]; intros w; cbn [foldl length].
  - lia.
  - rewrite IH, top_level_returns by apply run_handler_returns.
    rewrite run_handler_count. lia.
Qed.

Section Counter.

Variables Math_cos Math_sin : number → number.

Lemma run_task_keeps_count n t :
  preserves (λ w, n ≤ escapeCount w) (run_task Math_cos Math_sin t).
Proof. destruct t; autounfold with page_code; preserves_with count_leaf. Qed.

Lemma perform_keeps_count a w :
  resets_counter a = false →
  escapeCount w ≤ escapeCount (perform Math_cos Math_sin a w).
Proof.
  intros Ha.
  assert (∀ m : js unit, preserves (λ w', escapeCount w ≤ escapeCount w') m →
            escapeCount w ≤ escapeCount (top_level m w)) as Htop.
  { intros m Hm. apply (preserves_top_level (λ w', escapeCount w ≤ escapeCount w'));
      [intros e w' H; exact H | exact Hm | lia]. }
  destruct a; cbn [perform].
  - destruct (timers w !! i) as [t|]; [|lia]. unfold fire.
    apply (preserves_top_level (λ w', escapeCount w ≤ escapeCount w'));
      [intros e w' H; exact H | apply run_task_keeps_count | cbn; lia].
  - rewrite dispatch_count. lia.
  - apply Htop. autounfold with page_code. preserves_with count_leaf.
  - apply Htop. autounfold with page_code. preserves_with count_leaf.
  - apply Htop. autounfold with page_code. preserves_with count_leaf.
  - apply Htop. autounfold with page_code. preserves_with count_leaf.
  - apply Htop. autounfold with page_code. preserves_with count_leaf.
  - apply Htop. autounfold with page_code. preserves_with count_leaf.
  - apply Htop. destruct c; [| |discriminate Ha];
      autounfold with page_code; preserves_with count_leaf.
  - apply Htop. autounfold with page_code. preserves_with count_leaf.
  - apply Htop. autounfold with page_code. preserves_with count_leaf.
Qed.

End Counter.

(** ** Registering the runaway button *)

Lemma fresh_listener type fn (l : list listener) bound :
  (∀ x, x ∈ l → (l_fn x < bound)%nat) → (bound ≤ fn)%nat →
  ¬ Exists (λ x, l_type x = type ∧ l_fn x = fn) l.
Proof.
  intros Hl Hfn. rewrite Exists_exists. intros (x & Hx & _ & Hf).
  specialize (Hl x Hx). lia.
Qed.

(** With both buttons in the document, [initRunawayButton] registers the
    three listeners on the No button and returns the cleanup that captures
    the No button and [handleEscape]; the counter and the flag are not
    touched. *)
Lemma initRunawayButton_installs noButtonId yesButtonId config noButton yesButton w :
  element_with_id (default "no-button" noButtonId) w = Some noButton →
  element_with_id (default "yes-button" yesButtonId) w = Some yesButton →
  (∀ x, x ∈ listeners (element_at noButton w) → (l_fn x < nextFn w)%nat) →
  let mergedConfig := merge_runaway_config (default no_runaway_overrides config) in
  let w' := exec (initRunawayButton noButtonId yesButtonId config) w in
  result (initRunawayButton noButtonId yesButtonId config) w
    = Return (RunawayCleanup noButton (nextFn w)) ∧
  listeners (element_at noButton w') =
    listeners (element_at noButton w)
    ++ [ {| l_type := "mouseenter"; l_fn := nextFn w;
            l_body := HandleEscape noButton yesButton mergedConfig |};
         {| l_type := "touchstart"; l_fn := nextFn w;
            l_body := HandleEscape noButton yesButton mergedConfig |};
         {| l_type := "click"; l_fn := S (nextFn w);
            l_body := ClickEscape noButton yesButton mergedConfig |} ] ∧
  escapeCount w' = escapeCount w ∧ isRunaway w' = isRunaway w ∧
  console w' = console w.
Proof.
  intros Hno Hyes Hfresh mergedConfig w'.
  destruct (element_with_id_valid _ _ _ Hno) as [Hvalid _].
  unfold w', initRunawayButton, getElementById. run_js. rewrite Hno, Hyes. cbn.
  split; [reflexivity|]. split; [|repeat split].
  change (element_at noButton (set_nextFn ?v ?w)) with (element_at noButton w).
  rewrite element_at_update_eq by valid. cbn.
  change (element_at noButton (set_nextFn ?v ?w)) with (element_at noButton w).
  rewrite !element_at_update_eq by valid. cbn.
  change (element_at noButton (set_nextFn ?v ?w)) with (element_at noButton w).
  set (ls := listeners (element_at noButton w)) in *.
  destruct (decide (Exists _ ls)) as [H|_].
  { exfalso. revert H. apply (fresh_listener _ _ _ (nextFn w)); [exact Hfresh | lia]. }
  destruct (decide (Exists _ (ls ++ [_]))) as [H|_].
  { exfalso. apply Exists_app in H as [H|H].
    - revert H. apply (fresh_listener _ _ _ (nextFn w)); [exact Hfresh | lia].
    - apply Exists_cons in H as [[H _]|H]; [discriminate H | inversion H]. }
  destruct (decide (Exists _ ((ls ++ [_]) ++ [_]))) as [H|_].
  { exfalso. apply Exists_app in H as [H|H]; [apply Exists_app in H as [H|H]|].
    - revert H. apply (fresh_listener _ _ _ (nextFn w)); [exact Hfresh | lia].
    - apply Exists_cons in H as [[H _]|H]; [discriminate H | inversion H].
    - apply Exists_cons in H as [[H _]|H]; [discriminate H | inversion H]. }
  rewrite <- !app_assoc. reflexivity.
Qed.

(** Two registrations on the sample page, for the same buttons: one hover
    runs both listeners, and the first cleanup resets the counter that the
    second registration's click listener goes on using. *)
Example two_registrations_share_the_counter :
  let w1 := exec (initRunawayButton None None None) page in
  let w2 := exec (initRunawayButton None None None) w1 in
  let hovered := dispatch 4 "mouseenter" w2 in
  let cleaned := exec (run_cleanup (RunawayCleanup 4 0)) hovered in
  result (initRunawayButton None None None) page = Return (RunawayCleanup 4 0) ∧
  escapeCount hovered = 2 ∧ isRunaway hovered = true ∧
  escapeCount cleaned = 0 ∧ isRunaway cleaned = false ∧
  escapeCount (dispatch 4 "mouseenter" cleaned) = 1 ∧
  escapeCount (dispatch 4 "click" cleaned) = 2.
Proof. vm_compute. repeat split. Qed.

(** ** Missing elements *)

Lemma getElementById_reads id w :
  result (getElementById id) w = Return (element_with_id id w).
Proof. reflexivity. Qed.

Lemma startFloatingHearts_missing containerId config w :
  let id := default "hearts-container" containerId in
  element_with_id id w = None →
  startFloatingHearts containerId config w =
  (Return tt,
   set_console (λ l, l ++ ["[Hearts] Container element #" +:+ id +:+ " not found"]) w).
Proof.
  intros id H. unfold startFloatingHearts, getElementById. run_js.
  fold id. rewrite H. reflexivity.
Qed.

Lemma showCelebration_missing questionScreenId celebrationScreenId onCelebrate w :
  let qid := default "question-screen" questionScreenId in
  let cid := default "celebration-screen" celebrationScreenId in
  element_with_id qid w = None ∨ element_with_id cid w = None →
  showCelebration questionScreenId celebrationScreenId onCelebrate w =
  (Return tt,
   set_console (λ l, l ++ [
     match element_with_id qid w with
     | Some _ => "[Celebration] Celebration screen #" +:+ cid +:+ " not found"
     | None => "[Celebration] Question screen #" +:+ qid +:+ " not found"
     end]) w).
Proof.
  intros qid cid H. unfold showCelebration, getElementById. fold qid cid. run_js.
  destruct (element_with_id qid w); [|reflexivity].
  destruct H as [H|H]; [discriminate H|]. rewrite H. reflexivity.
Qed.

Lemma initRunawayButton_missing noButtonId yesButtonId config w :
  let nid := default "no-button" noButtonId in
  let yid := default "yes-button" yesButtonId in
  element_with_id nid w = None ∨ element_with_id yid w = None →
  initRunawayButton noButtonId yesButtonId config w =
  (Return NoCleanup,
   set_console (λ l, l ++ [
     match element_with_id nid w with
     | Some _ => "[RunawayButton] Yes button element #" +:+ yid +:+ " not found"
     | None => "[RunawayButton] No button element #" +:+ nid +:+ " not found"
     end]) w).
Proof.
  intros nid yid H. unfold initRunawayButton, getElementById. fold nid yid. run_js.
  destruct (element_with_id nid w); [|reflexivity].
  destruct H as [H|H]; [discriminate H|]. rewrite H. reflexivity.
Qed.

(** C8. Each entry point that looks an element up ([startFloatingHearts],
    [initRunawayButton], [showCelebration]), called when a required id is not
    in the document, logs exactly one error and completes normally.  The
    world after [startFloatingHearts] and [showCelebration] is the world
    before with that one console line added; [initRunawayButton] moreover
    returns a cleanup function whose call changes nothing. *)
Theorem missing_element_is_logged_once :
  (∀ containerId config w,
     result (getElementById (default "hearts-container" containerId)) w = Return None →
     ∃ msg, startFloatingHearts containerId config w
            = (Return tt, set_console (λ l, l ++ [msg]) w)) ∧
  (∀ questionScreenId celebrationScreenId onCelebrate w,
     result (getElementById (default "question-screen" questionScreenId)) w = Return None
     ∨ result (getElementById (default "celebration-screen" celebrationScreenId)) w
       = Return None →
     ∃ msg, showCelebration questionScreenId celebrationScreenId onCelebrate w
            = (Return tt, set_console (λ l, l ++ [msg]) w)) ∧
  (∀ noButtonId yesButtonId config w,
     result (getElementById (default "no-button" noButtonId)) w = Return None
     ∨ result (getElementById (default "yes-button" yesButtonId)) w = Return None →
     ∃ msg c, initRunawayButton noButtonId yesButtonId config w
              = (Return c, set_console (λ l, l ++ [msg]) w)
              ∧ ∀ w', run_cleanup c w' = (Return tt, w')).
Proof.
  split; [|split].
  - intros containerId config w H. rewrite getElementById_reads in H.
    injection H as H. eexists. apply startFloatingHearts_missing, H.
  - intros q c cb w H. rewrite !getElementById_reads in H.
    eexists. apply showCelebration_missing.
    destruct H as [[= H]|[= H]]; [left | right]; exact H.
  - intros n y cfg w H. rewrite !getElementById_reads in H.
    eexists _, NoCleanup. split; [|reflexivity].
    apply initRunawayButton_missing.
    destruct H as [[= H]|[= H]]; [left | right]; exact H.
Qed.

(** ** The counter across registrations *)

Lemma count_new_listeners type (a b c : listener) :
  l_type a = "mouseenter" → l_type b = "touchstart" → l_type c = "click" →
  length (filter (λ l, l_type l = type) [a; b; c])
  = if bool_decide (type ∈ escape_triggers) then 1%nat else 0%nat.
Proof.
  intros Ha Hb Hc. rewrite !filter_cons, filter_nil, Ha, Hb, Hc.
  destruct (decide ("mouseenter" = type)) as [<-|H1]; [reflexivity|].
  destruct (decide ("touchstart" = type)) as [<-|H2]; [reflexivity|].
  destruct (decide ("click" = type)) as [<-|H3]; [reflexivity|].
  rewrite bool_decide_eq_false_2; [reflexivity|].
  unfold escape_triggers. rewrite !elem_of_cons, elem_of_nil. intuition congruence.
Qed.

Lemma element_at_update n m f w :
  element_at n (update_element m f w) = element_at n w ∨
  (n = m ∧ element_at n (update_element m f w) = f (element_at n w)).
Proof.
  destruct (decide (n = m)) as [->|Hne].
  - destruct (decide (m < length (elements w))%nat) as [Hv|Hv].
    + right. split; [reflexivity | apply element_at_update_eq, Hv].
    + left. unfold element_at. rewrite elements_update.
      rewrite !lookup_ge_None_2 by (rewrite ?length_alter; lia). reflexivity.
  - left. apply element_at_update_ne, Hne.
Qed.

Lemma listeners_update n m f w :
  (∀ e, listeners (f e) = listeners e) →
  listeners (element_at n (update_element m f w)) = listeners (element_at n w).
Proof.
  intros Hf. destruct (element_at_update n m f w) as [->|[_ ->]]; [reflexivity | apply Hf].
Qed.

Lemma children_update n m f w :
  (∀ e, children (f e) = children e) →
  children (element_at n (update_element m f w)) = children (element_at n w).
Proof.
  intros Hf. destruct (element_at_update n m f w) as [->|[_ ->]]; [reflexivity | apply Hf].
Qed.

Lemma textContent_update n m f w :
  (∀ e, textContent (f e) = textContent e) →
  textContent (element_at n (update_element m f w)) = textContent (element_at n w).
Proof.
  intros Hf. destruct (element_at_update n m f w) as [->|[_ ->]]; [reflexivity | apply Hf].
Qed.

Lemma listeners_set_textContent n m v ls :
  preserves (λ w, listeners (element_at n w) = ls) (set_textContent m v).
Proof.
  intros w H. unfold exec, set_textContent, modify. cbn [snd].
  rewrite listeners_update by (intros e; reflexivity).
  rewrite element_at_remove_children.
  destruct (decide (n = m)), (decide (n ∈ children (element_at m w))); exact H.
Qed.

(** Primitives that register and remove no listener. *)
Ltac listeners_leaf :=
  first
    [ apply listeners_set_textContent
    | let w := fresh "w" in let H := fresh "H" in
      intros w H;
      first [ exact H
            | unfold exec; cbn [snd classList_add classList_remove set_style modify];
              rewrite listeners_update by (intros e; reflexivity); exact H ] ].

(** The listener bodies register and remove no listener. *)
Lemma run_handler_listeners n ls h :
  preserves (λ w, listeners (element_at n w) = ls) (run_handler h).
Proof. destruct h; autounfold with page_code; preserves_with listeners_leaf. Qed.

(** What one trigger does when the three listeners of a registration are
    the only ones on the No button. *)
Lemma dispatch_trigger noButton yesButton cfg fn type w :
  type ∈ escape_triggers →
  listeners (element_at noButton w) =
    [ {| l_type := "mouseenter"; l_fn := fn; l_body := HandleEscape noButton yesButton cfg |};
      {| l_type := "touchstart"; l_fn := fn; l_body := HandleEscape noButton yesButton cfg |};
      {| l_type := "click"; l_fn := S fn; l_body := ClickEscape noButton yesButton cfg |} ] →
  dispatch noButton type w = exec (run_handler (HandleEscape noButton yesButton cfg)) w.
Proof.
  intros Ht Hls. unfold dispatch. rewrite Hls.
  unfold escape_triggers in Ht. rewrite !elem_of_cons, elem_of_nil in Ht.
  destruct Ht as [-> | [-> | [-> | []]]];
    repeat first [ rewrite filter_cons_True by reflexivity
                 | rewrite filter_cons_False by discriminate ];
    rewrite filter_nil; cbn [foldl l_body];
    rewrite top_level_returns by apply run_handler_returns;
    rewrite ?run_handler_exec; reflexivity.
Qed.

(** Altering an element in a way the search does not see leaves the index
    found unchanged. *)
Lemma find_alter {A} (P : A → Prop) `{∀ x, Decision (P x)} (f : A → A) (l : list A) :
  (∀ x, P (f x) ↔ P x) →
  ∀ n, fst <$> list_find P (alter f n l) = fst <$> list_find P l.
Proof.
  intros Hf. induction l as [|x l IH]; intros n; [reflexivity|].
  destruct n as [|n]; cbn.
  - destruct (decide (P (f x))) as [Hx|Hx], (decide (P x)) as [Hy|Hy];
      try reflexivity; exfalso; [apply Hy, Hf, Hx | apply Hx, Hf, Hy].
  - destruct (decide (P x)); [reflexivity|].
    specialize (IH n).
    destruct (list_find P (alter f n l)) as [[? ?]|], (list_find P l) as [[? ?]|];
      cbn in *; congruence.
Qed.

Lemma element_with_id_update id n f w :
  (∀ e, el_id (f e) = el_id e) →
  element_with_id id (update_element n f w) = element_with_id id w.
Proof.
  intros Hf. unfold element_with_id. rewrite elements_update.
  apply find_alter. intros e. rewrite Hf. reflexivity.
Qed.

(** A registration touches the listeners of its No button and nothing else
    in the document. *)
Lemma initRunawayButton_elsewhere noButtonId yesButtonId config w :
  let W := exec (initRunawayButton noButtonId yesButtonId config) w in
  (∀ id, element_with_id id W = element_with_id id w) ∧
  (∀ n, element_with_id (default "no-button" noButtonId) w ≠ Some n →
        element_at n W = element_at n w) ∧
  escapeCount W = escapeCount w ∧ isRunaway W = isRunaway w.
Proof.
  intros W. unfold W, initRunawayButton, getElementById. run_js.
  destruct (element_with_id (default "no-button" noButtonId) w) as [noButton|];
    [|repeat split].
  destruct (element_with_id (default "yes-button" yesButtonId) w) as [yesButton|];
    [|repeat split].
  cbn. split; [|split; [|split; reflexivity]].
  - intros id. unfold element_with_id. cbn.
    rewrite !find_alter by (intros e; reflexivity). reflexivity.
  - intros n Hn. assert (n ≠ noButton) as Hne by congruence.
    repeat first
      [ progress change (element_at n (set_nextFn ?v ?x)) with (element_at n x)
      | rewrite element_at_update_ne by exact Hne ].
    reflexivity.
Qed.

Lemma run_cleanup_elsewhere noButton handleEscape n w :
  n ≠ noButton →
  element_at n (exec (run_cleanup (RunawayCleanup noButton handleEscape)) w)
  = element_at n w.
Proof.
  intros Hne. unfold run_cleanup, removeEventListener. run_js.
  change (element_at n (set_isRunaway ?v ?w)) with (element_at n w).
  change (element_at n (set_escapeCount ?v ?w)) with (element_at n w).
  rewrite !element_at_update_ne by exact Hne. reflexivity.
Qed.

Section CounterClaim.

Variables Math_cos Math_sin : number → number.

(** C2. The value returned by [getEscapeCount] grows by exactly 1 with every
    invocation of the escape routine, and so with every listener a hover, a
    touch or a click on the No button runs after [initRunawayButton]: the
    one listener it registered for that event, and any registered before.
    No other step of the page lowers the value (timers, events, calls of the
    exported functions, the functions they return) except the cleanup
    function a successful [initRunawayButton] returns, which resets it to 0
    in whatever state it is called; the function returned when a button is
    missing resets nothing. *)
Theorem escape_count_steps :
  (∀ button cfg w n,
     result getEscapeCount w = Return n →
     result getEscapeCount (exec (escapeFromCursor button cfg) w) = Return (n + 1)) ∧
  (∀ a w n m,
     resets_counter a = false →
     result getEscapeCount w = Return n →
     result getEscapeCount (perform Math_cos Math_sin a w) = Return m →
     n ≤ m) ∧
  (∀ noButton handleEscape w,
     result getEscapeCount
       (exec (run_cleanup (RunawayCleanup noButton handleEscape)) w) = Return 0) ∧
  (∀ noButtonId yesButtonId config noButton yesButton w,
     element_with_id (default "no-button" noButtonId) w = Some noButton →
     element_with_id (default "yes-button" yesButtonId) w = Some yesButton →
     (∀ x, x ∈ listeners (element_at noButton w) → (l_fn x < nextFn w)%nat) →
     let registered := exec (initRunawayButton noButtonId yesButtonId config) w in
     ∃ c, result (initRunawayButton noButtonId yesButtonId config) w = Return c ∧
       resets_counter (CallCleanup c) = true ∧
       (∀ type n,
          type ∈ escape_triggers →
          result getEscapeCount w = Return n →
          result getEscapeCount (dispatch noButton type registered)
          = Return (n + 1
                    + Z.of_nat (length (filter (λ l, l_type l = type)
                                          (listeners (element_at noButton w)))))) ∧
       (∀ w', result getEscapeCount (exec (run_cleanup c) w') = Return 0) ∧
       (∀ w', result getEscapeCount (perform Math_cos Math_sin (CallCleanup c) w')
              = Return 0)) ∧
  (∀ noButtonId yesButtonId config w,
     element_with_id (default "no-button" noButtonId) w = None
     ∨ element_with_id (default "yes-button" yesButtonId) w = None →
     ∃ c, result (initRunawayButton noButtonId yesButtonId config) w = Return c ∧
       resets_counter (CallCleanup c) = false).
Proof.
  split; [|split; [|split; [|split]]].
  - intros button cfg w n. rewrite !getEscapeCount_reads.
    intros [= <-]. rewrite escapeFromCursor_count. reflexivity.
  - intros a w n m Ha. rewrite !getEscapeCount_reads.
    intros [= <-] [= <-]. apply perform_keeps_count, Ha.
  - intros. reflexivity.
  - intros noButtonId yesButtonId config noButton yesButton w Hno Hyes Hfresh registered.
    destruct (initRunawayButton_installs noButtonId yesButtonId config noButton yesButton w
                Hno Hyes Hfresh) as (Hres & Hls & Hcount & _).
    fold registered in Hls, Hcount.
    eexists. split; [exact Hres|]. split; [reflexivity|].
    split; [|split; intros w'; reflexivity].
    intros type n Htype. rewrite !getEscapeCount_reads. intros [= <-].
    rewrite dispatch_count, Hls, Hcount, filter_app, length_app.
    rewrite count_new_listeners by reflexivity.
    rewrite bool_decide_eq_true_2 by exact Htype. f_equal. lia.
  - intros noButtonId yesButtonId config w Hmissing.
    exists NoCleanup. split; [|reflexivity].
    unfold result. rewrite initRunawayButton_missing by exact Hmissing. reflexivity.
Qed.

End CounterClaim.

(** C10. All invocations of [initRunawayButton] share the one counter and
    the one flag of the module.  Two invocations for different No buttons,
    with any identifiers and configurations: an escape event on the first
    button and one on the second advance the same counter, which
    [getEscapeCount] reads, from [n] to [n + 1] to [n + 2], and raise the
    same flag; the cleanup function returned by the first invocation sets
    that counter to 0 and the flag to false for both; the listener of the
    second invocation, still registered, then counts again from 0 and raises
    the flag again, and the cleanup of the second resets counter and flag
    as well. *)
Theorem escape_state_is_shared
    (noButtonId1 yesButtonId1 noButtonId2 yesButtonId2 : option string)
    (config1 config2 : option PartialRunawayConfig)
    (noButton1 yesButton1 noButton2 yesButton2 : nat) (type1 type2 : string) w :
  element_with_id (default "no-button" noButtonId1) w = Some noButton1 →
  element_with_id (default "yes-button" yesButtonId1) w = Some yesButton1 →
  element_with_id (default "no-button" noButtonId2) w = Some noButton2 →
  element_with_id (default "yes-button" yesButtonId2) w = Some yesButton2 →
  noButton1 ≠ noButton2 →
  listeners (element_at noButton1 w) = [] →
  listeners (element_at noButton2 w) = [] →
  type1 ∈ escape_triggers → type2 ∈ escape_triggers →
  let w1 := exec (initRunawayButton noButtonId1 yesButtonId1 config1) w in
  let w2 := exec (initRunawayButton noButtonId2 yesButtonId2 config2) w1 in
  ∃ cleanup1 cleanup2,
    result (initRunawayButton noButtonId1 yesButtonId1 config1) w = Return cleanup1 ∧
    result (initRunawayButton noButtonId2 yesButtonId2 config2) w1 = Return cleanup2 ∧
    let first := dispatch noButton1 type1 w2 in
    let second := dispatch noButton2 type2 first in
    result getEscapeCount first = Return (escapeCount w + 1) ∧
    isRunaway first = true ∧
    result getEscapeCount second = Return (escapeCount w + 2) ∧
    let cleaned := exec (run_cleanup cleanup1) second in
    result getEscapeCount cleaned = Return 0 ∧
    isRunaway cleaned = false ∧
    result getEscapeCount (dispatch noButton2 type2 cleaned) = Return 1 ∧
    isRunaway (dispatch noButton2 type2 cleaned) = true ∧
    result getEscapeCount
      (exec (run_cleanup cleanup2) (dispatch noButton2 type2 cleaned)) = Return 0 ∧
    isRunaway (exec (run_cleanup cleanup2) (dispatch noButton2 type2 cleaned)) = false.
Proof.
  intros Hno1 Hyes1 Hno2 Hyes2 Hne Hnone1 Hnone2 Ht1 Ht2 w1 w2.
  destruct (initRunawayButton_installs noButtonId1 yesButtonId1 config1
              noButton1 yesButton1 w Hno1 Hyes1) as (Hres1 & Hls1 & Hc1 & Hf1 & _).
  { rewrite Hnone1. intros x Hx. inversion Hx. }
  fold w1 in Hls1, Hc1, Hf1. rewrite Hnone1 in Hls1. cbn [app] in Hls1.
  destruct (initRunawayButton_elsewhere noButtonId1 yesButtonId1 config1 w)
    as (Hids1 & Helse1 & _).
  fold w1 in Hids1, Helse1.
  assert (listeners (element_at noButton2 w1) = []) as Hnone2'.
  { rewrite Helse1; [exact Hnone2|]. rewrite Hno1. congruence. }
  destruct (initRunawayButton_installs noButtonId2 yesButtonId2 config2
              noButton2 yesButton2 w1) as (Hres2 & Hls2 & Hc2 & Hf2 & _).
  { rewrite Hids1. exact Hno2. }
  { rewrite Hids1. exact Hyes2. }
  { rewrite Hnone2'. intros x Hx. inversion Hx. }
  fold w2 in Hls2, Hc2, Hf2. rewrite Hnone2' in Hls2. cbn [app] in Hls2.
  destruct (initRunawayButton_elsewhere noButtonId2 yesButtonId2 config2 w1)
    as (_ & Helse2 & _).
  fold w2 in Helse2.
  assert (listeners (element_at noButton1 w2) = listeners (element_at noButton1 w1))
    as Hkeep1.
  { rewrite Helse2; [reflexivity|]. rewrite Hids1, Hno2. congruence. }
  rewrite Hls1 in Hkeep1.
  eexists _, _. split; [exact Hres1|]. split; [exact Hres2|]. cbv zeta.
  rewrite (dispatch_trigger noButton1 yesButton1 _ (nextFn w) type1 w2 Ht1 Hkeep1).
  set (h1 := HandleEscape noButton1 yesButton1 _).
  set (first := exec (run_handler h1) w2).
  assert (listeners (element_at noButton2 first) = listeners (element_at noButton2 w2))
    as Hkeep2 by (apply (run_handler_listeners noButton2 _ h1 w2 eq_refl)).
  rewrite Hls2 in Hkeep2.
  rewrite (dispatch_trigger noButton2 yesButton2 _ (nextFn w1) type2 first Ht2 Hkeep2).
  set (h2 := HandleEscape noButton2 yesButton2 _).
  set (second := exec (run_handler h2) first).
  set (cleaned := exec (run_cleanup (RunawayCleanup noButton1 (nextFn w))) second).
  assert (listeners (element_at noButton2 cleaned) = listeners (element_at noButton2 first))
    as Hkeep3.
  { unfold cleaned. rewrite run_cleanup_elsewhere by congruence.
    apply (run_handler_listeners noButton2 _ h2 first eq_refl). }
  rewrite Hkeep2 in Hkeep3.
  rewrite (dispatch_trigger noButton2 yesButton2 _ (nextFn w1) type2 cleaned Ht2 Hkeep3).
  fold h2.
  rewrite !getEscapeCount_reads.
  split; [unfold first; rewrite run_handler_count, Hc2, Hc1; reflexivity|].
  split; [apply run_handler_flag|].
  split; [unfold second, first; rewrite !run_handler_count, Hc2, Hc1; f_equal; lia|].
  split; [reflexivity|]. split; [reflexivity|].
  split; [rewrite run_handler_count; reflexivity|].
  split; [apply run_handler_flag|]. split; reflexivity.
Qed.

(** ** Heart bursts *)

Lemma schedule_loop t delay n : ∀ from w,
  for_loop from n (λ i, _ <- setTimeout t (delay i);; ret tt) w =
  (Return tt,
   set_nextTimer (nextTimer w + n)
     (set_timers (λ l, l ++ staggered t delay w from n) w)).
Proof.
  induction n as [|n IH]; intros from w.
  - cbn. unfold ret, staggered. cbn. destruct w; unfold set_nextTimer, set_timers; cbn.
    rewrite app_nil_r, Nat.add_0_r. reflexivity.
  - cbn [for_loop]. unfold bind at 1. unfold setTimeout, add_timer, bind, ret. cbn.
    rewrite IH. destruct w; unfold set_nextTimer, set_timers, staggered; cbn.
    f_equal. f_equal; [|f_equal; lia].
    rewrite <- app_assoc. f_equal. cbn. f_equal.
    + rewrite !Nat.add_0_r. reflexivity.
    + rewrite <- seq_shift, map_map. apply map_ext. intros i.
      f_equal; [lia|]. repeat f_equal. lia.
Qed.

Lemma createHeartBurst_schedules cx cy count w :
  createHeartBurst cx cy count w =
  (Return tt,
   set_nextTimer (nextTimer w + default 30%nat count)
     (set_timers (λ l, l ++ staggered (BurstHeart cx cy)
                              (λ i, inject_Z (Z.of_nat i) * 50)%Q w 0
                              (default 30%nat count)) w)).
Proof.
  unfold createHeartBurst, try_catch.
  rewrite (schedule_loop (BurstHeart cx cy) (λ i, inject_Z (Z.of_nat i) * 50)%Q).
  reflexivity.
Qed.

Lemma staggered_length t delay w from n : length (staggered t delay w from n) = n.
Proof. unfold staggered. rewrite length_map, length_seq. reflexivity. Qed.

Lemma staggered_lookup t delay w from n i :
  (i < n)%nat →
  staggered t delay w from n !! i =
  Some {| t_id := (nextTimer w + i)%nat;
          t_due := (clock w + Qmax 0 (delay (from + i)%nat))%Q;
          t_every := None; t_task := t |}.
Proof.
  intros H. unfold staggered. rewrite list_lookup_fmap, lookup_seq_lt by exact H.
  reflexivity.
Qed.

Lemma stagger_due (c : Q) (i : nat) (step : Q) :
  (0 <= step)%Q →
  (c + Qmax 0 (inject_Z (Z.of_nat i) * step) == c + step * inject_Z (Z.of_nat i))%Q.
Proof.
  intros Hs.
  assert (0 <= inject_Z (Z.of_nat i))%Q as Hi.
  { change 0%Q with (inject_Z 0). rewrite <- Zle_Qle. lia. }
  rewrite Q.max_r; [ring|]. apply Qmult_le_0_compat; assumption.
Qed.

Lemma find_snoc {A} (P : A → Prop) `{∀ x, Decision (P x)} (l : list A) y :
  ¬ P y → fst <$> list_find P (l ++ [y]) = fst <$> list_find P l.
Proof.
  intros Hy. induction l as [|x l IH]; cbn.
  - destruct (decide (P y)); [contradiction | reflexivity].
  - destruct (decide (P x)); [reflexivity|].
    destruct (list_find P (l ++ [y])) as [[? ?]|], (list_find P l) as [[? ?]|];
      cbn in *; congruence.
Qed.

Lemma body_element_valid w b :
  body_element w = Some b → (b < length (elements w))%nat.
Proof.
  unfold body_element. destruct (list_find _ _) as [[i e]|] eqn:Hf; [|discriminate].
  intros [= <-]. apply list_find_Some in Hf as (Hl & _).
  eapply lookup_lt_Some, Hl.
Qed.

Lemma alter_last {A} (f : A → A) (l : list A) x :
  alter f (length l) (l ++ [x]) = l ++ [f x].
Proof.
  replace (length l) with (length l + 0)%nat by lia.
  rewrite alter_app_r. reflexivity.
Qed.

Lemma set_elements_same w : set_elements (λ l, l) w = w.
Proof. destruct w. reflexivity. Qed.

Lemma unlink_detached n w :
  parentNode (element_at n w) = None → unlink n w = w.
Proof. intros H. unfold unlink. rewrite H. apply set_elements_same. Qed.

Lemma update_element_set_drawn n f d w :
  update_element n f (set_drawn d w) = set_drawn d (update_element n f w).
Proof. reflexivity. Qed.

(** Updating the element that was allocated last. *)
Lemma update_appended f e w :
  update_element (length (elements w)) f (set_elements (λ l, l ++ [e]) w)
  = set_elements (λ l, l ++ [f e]) w.
Proof.
  destruct w as [els ? ? ? ? ? ? ? ? ? ? ? ? ? ?].
  unfold update_element, set_elements. cbn [elements]. rewrite alter_last.
  reflexivity.
Qed.

(** Child removal, one update at a time. *)
Lemma remove_children_steps n w :
  remove_children n w =
  update_element n (with_children (λ _, []))
    (foldr (λ c, update_element c (with_parentNode None)) w (children (element_at n w))).
Proof.
  unfold remove_children. f_equal.
  induction (children (element_at n w)) as [|c cs IH]; cbn [foldr].
  - apply set_elements_same.
  - rewrite <- IH. reflexivity.
Qed.

Lemma remove_children_set_drawn n d w :
  remove_children n (set_drawn d w) = set_drawn d (remove_children n w).
Proof. reflexivity. Qed.

(** The element that was allocated last has no child to lose. *)
Lemma remove_children_appended e w :
  children e = [] →
  remove_children (length (elements w)) (set_elements (λ l, l ++ [e]) w)
  = set_elements (λ l, l ++ [e]) w.
Proof.
  intros He. unfold remove_children, element_at.
  cbn [elements set_elements]. rewrite lookup_app_r, Nat.sub_diag by lia.
  cbn [lookup list_lookup default from_option id]. rewrite He. cbn [foldr].
  change (set_elements (λ l, l) (set_elements ?f w)) with (set_elements f w).
  rewrite update_appended. destruct e. cbn in He. subst. reflexivity.
Qed.

Lemma element_at_appended w e :
  element_at (length (elements w)) (set_elements (λ l, l ++ [e]) w) = e.
Proof.
  unfold element_at. cbn. rewrite lookup_app_r, Nat.sub_diag by lia. reflexivity.
Qed.

Lemma body_element_appended e w :
  localName e ≠ "body" →
  body_element (set_elements (λ l, l ++ [e]) w) = body_element w.
Proof. intros H. unfold body_element. cbn. apply find_snoc. exact H. Qed.

(** Collects the updates of a freshly allocated element into the element
    itself. *)
Ltac build_element :=
  repeat first
    [ rewrite update_element_set_drawn
    | rewrite remove_children_set_drawn
    | rewrite update_appended
    | rewrite remove_children_appended by reflexivity ];
  reflexivity.

Section Burst.

Variables Math_cos Math_sin : number → number.

(** The part of [burstHeart] before the document is touched: the new element
    is built and styled, whatever follows. *)
Lemma burstHeart_builds {A} cx cy (k : nat → js A) w :
  (heart <- createElement "span";;
   classList_add heart "burst-heart";;
   glyph <- random_pick CELEBRATION_HEARTS;;
   set_textContent heart glyph;;
   angle <- randomInRange 0 (Math_PI * 2);;
   distance <- randomInRange 100 400;;
   let tx := (Math_cos angle * distance)%Q in
   let ty := (Math_sin angle * distance)%Q in
   set_style heart "left" (Px cx);;
   set_style heart "top" (Px cy);;
   set_style heart "--tx" (Px tx);;
   set_style heart "--ty" (Px ty);;
   size <- randomInRange 1 3;;
   set_style heart "font-size" (Rem size);;
   k heart) w
  = k (length (elements w))
      (set_drawn (S (S (S (S (drawn w)))))
         (set_elements (λ l, l ++ [burst_heart_element Math_cos Math_sin cx cy w]) w)).
Proof.
  unfold random_pick, randomInRange. run_js. f_equal. build_element.
Qed.

Lemma burstHeart_runs cx cy w :
  let heart := length (elements w) in
  let built :=
    set_drawn (S (S (S (S (drawn w)))))
      (set_elements (λ l, l ++ [burst_heart_element Math_cos Math_sin cx cy w]) w) in
  burstHeart Math_cos Math_sin cx cy w =
  (Return tt,
   match body_element w with
   | Some body =>
       set_nextTimer (S (nextTimer w))
         (set_timers (λ l, l ++ [{| t_id := nextTimer w;
                                    t_due := (clock w + 3000)%Q;
                                    t_every := None;
                                    t_task := RemoveBurstHeart heart |}])
            (update_element heart (with_parentNode (Some body))
               (update_element body (with_children (λ l, l ++ [heart])) built)))
   | None => built
   end).
Proof.
  intros heart built.
  unfold burstHeart, try_catch. rewrite burstHeart_builds. fold built.
  assert (body_element built = body_element w) as Hb.
  { unfold built. change (body_element (set_drawn ?d ?w)) with (body_element w).
    apply body_element_appended. discriminate. }
  unfold document_body. run_js. rewrite Hb.
  destruct (body_element w) as [body|]; [|reflexivity].
  unfold appendChild, modify. cbn.
  rewrite unlink_detached; [reflexivity|].
  unfold built.
  change (element_at ?n (set_drawn ?d ?w)) with (element_at n w).
  rewrite element_at_appended. reflexivity.
Qed.
End Burst.

(** The part of [createSparkle] before the document is touched. *)
Lemma createSparkle_builds {A} event (k : nat → js A) w :
  (sparkle <- createElement "span";;
   classList_add sparkle "sparkle";;
   glyph <- random_pick sparkleEmojis;;
   set_textContent sparkle glyph;;
   rx <- Math_random;;
   let offsetX := ((rx - (1 # 2)) * 30)%Q in
   ry <- Math_random;;
   let offsetY := ((ry - (1 # 2)) * 30)%Q in
   set_style sparkle "left" (Px (clientX event + offsetX)%Q);;
   set_style sparkle "top" (Px (clientY event + offsetY)%Q);;
   k sparkle) w
  = k (length (elements w))
      (set_drawn (S (S (S (drawn w))))
         (set_elements (λ l, l ++ [sparkle_element event w]) w)).
Proof.
  unfold random_pick. run_js. f_equal. build_element.
Qed.

Lemma createSparkle_runs event w :
  let sparkle := length (elements w) in
  let built :=
    set_drawn (S (S (S (drawn w))))
      (set_elements (λ l, l ++ [sparkle_element event w]) w) in
  createSparkle event w =
  (Return tt,
   match body_element w with
   | Some body =>
       set_nextTimer (S (nextTimer w))
         (set_timers (λ l, l ++ [{| t_id := nextTimer w;
                                    t_due := (clock w + 800)%Q;
                                    t_every := None;
                                    t_task := RemoveBurstHeart sparkle |}])
            (update_element sparkle (with_parentNode (Some body))
               (update_element body (with_children (λ l, l ++ [sparkle])) built)))
   | None =>
       set_console
         (λ l, l ++ ["[Celebration] Failed to create sparkle: "
                     +:+ "Cannot read properties of null (reading 'appendChild')"])
         built
   end).
Proof.
  intros sparkle built.
  unfold createSparkle, try_catch. rewrite createSparkle_builds. fold built.
  assert (body_element built = body_element w) as Hb.
  { unfold built. change (body_element (set_drawn ?d ?w)) with (body_element w).
    apply body_element_appended. discriminate. }
  unfold document_body. run_js. rewrite Hb.
  destruct (body_element w) as [body|]; [|reflexivity].
  unfold appendChild, modify. cbn.
  rewrite unlink_detached; [reflexivity|].
  unfold built.
  change (element_at ?n (set_drawn ?d ?w)) with (element_at n w).
  rewrite element_at_appended. reflexivity.
Qed.

Lemma element_at_older n w e :
  (n < length (elements w))%nat →
  element_at n (set_elements (λ l, l ++ [e]) w) = element_at n w.
Proof. intros H. unfold element_at. cbn. rewrite lookup_app_l by exact H. reflexivity. Qed.

Lemma removeBurstHeart_runs heart w :
  removeBurstHeart heart w = (Return tt, unlink heart w).
Proof.
  unfold removeBurstHeart, removeChild, get_parentNode. run_js.
  destruct (parentNode (element_at heart w)) as [p|] eqn:E; cbn.
  - rewrite E. destruct (decide (Some p = Some p)); [reflexivity | congruence].
  - rewrite unlink_detached by exact E. reflexivity.
Qed.

Lemma unlink_detaches child p w :
  (child < length (elements w))%nat →
  parentNode (element_at child w) = Some p →
  parentNode (element_at child (unlink child w)) = None ∧
  child ∉ children (element_at p (unlink child w)).
Proof.
  intros Hc Hp. unfold unlink. rewrite Hp.
  change (set_elements ?f w) with
    (update_element child (with_parentNode None)
       (update_element p (with_children (filter (λ c, c ≠ child))) w)).
  split.
  - rewrite element_at_update_eq by valid. reflexivity.
  - destruct (decide (p = child)) as [->|Hne].
    + rewrite !element_at_update_eq by valid. cbn.
      rewrite list_elem_of_filter. tauto.
    + rewrite element_at_update_ne by exact Hne.
      destruct (decide (p < length (elements w))%nat) as [Hv|Hv].
      * rewrite element_at_update_eq by valid. cbn.
        rewrite list_elem_of_filter. tauto.
      * unfold element_at. rewrite elements_update.
        rewrite lookup_ge_None_2 by (rewrite length_alter; lia). cbn.
        apply not_elem_of_nil.
Qed.




Section BurstClaim.

Variables Math_cos Math_sin : number → number.



End BurstClaim.

(** ** The celebration *)

Lemma startCelebrationLoop_runs intervalMs w :
  let every := default 2000%Q intervalMs in
  startCelebrationLoop intervalMs w =
  (Return (StopCelebration (nextTimer w + 42)),
   set_nextTimer (nextTimer w + 43)
     (set_timers (λ l, l ++ staggered (BurstHeart (innerWidth w / 2) (innerHeight w / 2))
                              (λ i, inject_Z (Z.of_nat i) * 50)%Q w 0 40
                          ++ loop_timers every w) w)).
Proof.
  intros every. unfold startCelebrationLoop. fold every.
  unfold bind, gets. rewrite createHeartBurst_schedules.
  unfold setTimeout, setInterval, add_timer, ret. world_simpl.
  f_equal; [repeat f_equal; lia|].
  apply world_ext; world_simpl; try reflexivity; [|lia].
  rewrite <- !app_assoc. unfold loop_timers.
  cbn [app]. repeat f_equal; first [reflexivity | lia].
Qed.

Lemma showCelebration_runs questionScreenId celebrationScreenId onCelebrate
    questionScreen celebrationScreen w :
  element_with_id (default "question-screen" questionScreenId) w = Some questionScreen →
  element_with_id (default "celebration-screen" celebrationScreenId) w
    = Some celebrationScreen →
  showCelebration questionScreenId celebrationScreenId onCelebrate w =
  (Return tt,
   set_nextTimer (S (nextTimer w))
     (set_timers (λ l, l ++ [{| t_id := nextTimer w; t_due := (clock w + 400)%Q;
                                t_every := None;
                                t_task := CelebrationDisplay celebrationScreen onCelebrate |}])
        (update_element questionScreen
           (with_classList (filter (λ c, c ∉ ["active"]))) w))).
Proof.
  intros Hq Hc. unfold showCelebration, getElementById. run_js.
  rewrite Hq, Hc. reflexivity.
Qed.

(** What the deferred callback of [showCelebration] does, step by step. *)
Lemma celebrationDisplay_runs celebrationScreen onCelebrate w :
  let shown := exec (classList_add celebrationScreen "active") w in
  let burst :=
    exec (createHeartBurst (innerWidth w / 2) (innerHeight w / 2) (Some 50%nat)) shown in
  let looping := exec (startCelebrationLoop (Some 3000%Q)) burst in
  celebrationDisplay celebrationScreen onCelebrate w =
  (Return tt,
   match onCelebrate with
   | Some f =>
       let called := set_invoked (λ l, l ++ [cb_name f]) looping in
       match cb_throws f with
       | Some e =>
           set_console (λ l, l ++ ["[Celebration] Failed during celebration display: "
                                    +:+ error_message e]) called
       | None => called
       end
   | None => looping
   end).
Proof.
  intros shown burst looping. unfold celebrationDisplay, try_catch.
  rewrite (bind_returns _ _ w tt shown) by reflexivity.
  rewrite (bind_returns _ _ shown (innerWidth w) shown) by reflexivity.
  rewrite (bind_returns _ _ shown (innerHeight w) shown) by reflexivity.
  rewrite (bind_returns _ _ shown tt burst)
    by (unfold burst, exec; rewrite createHeartBurst_schedules; reflexivity).
  rewrite (bind_returns _ _ burst (StopCelebration (nextTimer burst + 42)) looping)
    by (unfold looping, exec; rewrite startCelebrationLoop_runs; reflexivity).
  destruct onCelebrate as [f|]; [|reflexivity].
  unfold call, bind, modify. cbn [fst snd].
  destruct (cb_throws f); reflexivity.
Qed.

(** ** Stopping the emitter *)

Lemma stopFloatingHearts_returns w : result stopFloatingHearts w = Return tt.
Proof. unfold stopFloatingHearts. run_js. destruct (heartIntervalId w); reflexivity. Qed.

(** Safe when the emitter was never started: nothing changes. *)
Lemma stopFloatingHearts_not_started w :
  heartIntervalId w = None → stopFloatingHearts w = (Return tt, w).
Proof. intros H. unfold stopFloatingHearts. run_js. rewrite H. reflexivity. Qed.

Lemma stopFloatingHearts_forgets w :
  heartIntervalId (exec stopFloatingHearts w) = None.
Proof.
  unfold stopFloatingHearts. run_js.
  destruct (heartIntervalId w) eqn:E; [reflexivity | exact E].
Qed.

(** The second of two calls in a row is a no-op. *)
Lemma stopFloatingHearts_twice w :
  stopFloatingHearts (exec stopFloatingHearts w) = (Return tt, exec stopFloatingHearts w).
Proof. apply stopFloatingHearts_not_started, stopFloatingHearts_forgets. Qed.

(** Hearts already spawned stay where they are. *)
Lemma stopFloatingHearts_keeps_hearts w :
  elements (exec stopFloatingHearts w) = elements w.
Proof. unfold stopFloatingHearts. run_js. destruct (heartIntervalId w); reflexivity. Qed.

(** The timer the module remembers is cancelled, and only that one. *)
Lemma stopFloatingHearts_timers w :
  timers (exec stopFloatingHearts w) =
  match heartIntervalId w with
  | Some id => filter (λ t, t_id t ≠ id) (timers w)
  | None => timers w
  end.
Proof. unfold stopFloatingHearts. run_js. destruct (heartIntervalId w); reflexivity. Qed.

(** When the only recurring spawn timers are those the module remembers,
    none is left after [stopFloatingHearts]. *)
Lemma stopFloatingHearts_clears_remembered w :
  (∀ t, t ∈ timers w → is_spawn_interval t = true →
        heartIntervalId w = Some (t_id t)) →
  ∀ t, t ∈ timers (exec stopFloatingHearts w) → is_spawn_interval t = false.
Proof.
  intros Hw t. rewrite stopFloatingHearts_timers.
  destruct (heartIntervalId w) as [id|] eqn:E.
  - rewrite list_elem_of_filter. intros [Hne Hin].
    destruct (is_spawn_interval t) eqn:Hs; [|reflexivity].
    specialize (Hw t Hin Hs). congruence.
  - intros Hin. destruct (is_spawn_interval t) eqn:Hs; [|reflexivity].
    specialize (Hw t Hin Hs). discriminate.
Qed.

(** With the container in the document, [startFloatingHearts] queues the
    initial batch of eight spawns, 300 ms apart, then the recurring spawn,
    and remembers the handle of the latter. *)
Lemma startFloatingHearts_runs containerId config container w :
  element_with_id (default "hearts-container" containerId) w = Some container →
  let mergedConfig := merge_heart_config (default no_heart_overrides config) in
  startFloatingHearts containerId config w =
  (Return tt,
   set_heartIntervalId (Some (nextTimer w + 8)%nat)
     (set_nextTimer (nextTimer w + 9)
        (set_timers
           (λ l, l ++ staggered (SpawnHeart container mergedConfig)
                        (λ i, inject_Z (Z.of_nat i) * 300)%Q w 0 8
                   ++ [{| t_id := (nextTimer w + 8)%nat;
                          t_due := (clock w + Qmax 0 (spawnInterval mergedConfig))%Q;
                          t_every := Some (spawnInterval mergedConfig);
                          t_task := SpawnHeart container mergedConfig |}]) w))).
Proof.
  intros Hid mergedConfig. unfold startFloatingHearts, try_catch, getElementById.
  rewrite (bind_returns _ _ w (Some container) w) by (unfold gets; rewrite Hid; reflexivity).
  fold mergedConfig.
  rewrite (bind_returns _ _ w tt _ (schedule_loop _ _ 8 0%nat w)).
  unfold setInterval, add_timer, bind, modify. world_simpl.
  f_equal. apply world_ext; world_simpl; try reflexivity; [|lia].
  rewrite <- app_assoc. repeat f_equal; lia.
Qed.

(** Started once from a state without recurring spawn timers, the emitter
    leaves none behind when it is stopped. *)
Lemma stopFloatingHearts_after_one_start containerId config w :
  (∀ t, t ∈ timers w → is_spawn_interval t = false) →
  ∀ t, t ∈ timers (exec stopFloatingHearts (exec (startFloatingHearts containerId config) w)) →
       is_spawn_interval t = false.
Proof.
  intros Hnone.
  destruct (element_with_id (default "hearts-container" containerId) w)
    as [container|] eqn:Hid.
  - apply stopFloatingHearts_clears_remembered. unfold exec.
    rewrite (startFloatingHearts_runs containerId config container w Hid).
    world_simpl. intros t Hin Hspawn.
    apply elem_of_app in Hin as [Hin|Hin].
    { rewrite (Hnone t Hin) in Hspawn. discriminate Hspawn. }
    apply elem_of_app in Hin as [Hin|Hin].
    { unfold staggered in Hin. apply list_elem_of_fmap in Hin as (i & -> & _).
      discriminate Hspawn. }
    apply list_elem_of_singleton in Hin as ->. reflexivity.
  - intros t. unfold exec at 2.
    rewrite (startFloatingHearts_missing containerId config w Hid). cbn [snd].
    rewrite stopFloatingHearts_timers. world_simpl.
    destruct (heartIntervalId w).
    + intros Hin. apply list_elem_of_filter in Hin as [_ Hin]. apply Hnone, Hin.
    + apply Hnone.
Qed.

Section SecondStart.

Variables Math_cos Math_sin : number → number.

(** C9, at the failing input.  On the sample page the emitter is started
    twice and then stopped: the module has forgotten its timer, yet the
    recurring spawn timer of the first start is still pending, and when it
    fires it puts a new heart into the container. *)
Theorem stopFloatingHearts_after_restart :
  let stopped :=
    run Math_cos Math_sin
      [ CallStartFloatingHearts None None;
        CallStartFloatingHearts None None;
        CallStopFloatingHearts ] page in
  heartIntervalId stopped = None ∧
  timers stopped !! 8%nat
    = Some {| t_id := 9; t_due := 600; t_every := Some 600%Q;
              t_task := SpawnHeart 1 DEFAULT_CONFIG |} ∧
  (∃ t, t ∈ timers stopped ∧ is_spawn_interval t = true) ∧
  children (element_at 1 stopped) = [] ∧
  children (element_at 1 (perform Math_cos Math_sin (Fire 8) stopped)) = [6%nat].
Proof.
  intros stopped.
  assert (timers stopped !! 8%nat
          = Some {| t_id := 9; t_due := 600; t_every := Some 600%Q;
                    t_task := SpawnHeart 1 DEFAULT_CONFIG |}) as Hpending
    by (vm_compute; reflexivity).
  split; [vm_compute; reflexivity|]. split; [exact Hpending|].
  split; [|split; vm_compute; reflexivity].
  eexists. split; [eapply list_elem_of_lookup_2, Hpending | reflexivity].
Qed.

End SecondStart.

(** ** The ceiling on floating hearts *)

Lemma createFloatingHeart_builds {A} cfg (k : nat → Q → Q → js A) w :
  (heart <- createElement "span";;
   classList_add heart "floating-heart";;
   glyph <- random_pick HEART_EMOJIS;;
   set_textContent heart glyph;;
   size <- randomInRange (minSize cfg) (maxSize cfg);;
   duration <- randomInRange (minDuration cfg) (maxDuration cfg);;
   left <- randomInRange 0 100;;
   delay <- randomInRange 0 3;;
   set_style heart "font-size" (Rem size);;
   set_style heart "left" (Percent left);;
   set_style heart "animation-duration" (Seconds duration);;
   set_style heart "animation-delay" (Seconds delay);;
   k heart duration delay) w
  = k (length (elements w))
      (random w (S (S (drawn w))) * (maxDuration cfg - minDuration cfg) + minDuration cfg)%Q
      (random w (S (S (S (S (drawn w))))) * (3 - 0) + 0)%Q
      (set_drawn (S (S (S (S (S (drawn w))))))
         (set_elements (λ l, l ++ [floating_heart_element cfg w]) w)).
Proof.
  unfold random_pick, randomInRange. run_js. f_equal. build_element.
Qed.

Lemma createFloatingHeart_runs container cfg w :
  let heart := length (elements w) in
  let built :=
    set_drawn (S (S (S (S (S (drawn w))))))
      (set_elements (λ l, l ++ [floating_heart_element cfg w]) w) in
  createFloatingHeart container cfg w =
  (Return tt,
   if Qle_bool (maxHearts cfg)
        (inject_Z (Z.of_nat (length (children (element_at container w)))))
   then w
   else
     set_nextTimer (S (nextTimer w))
       (set_timers (λ l, l ++ [{| t_id := nextTimer w;
                                  t_due := (clock w + Qmax 0 (floating_heart_life cfg w))%Q;
                                  t_every := None;
                                  t_task := RemoveFloatingHeart container heart |}])
          (update_element heart (with_parentNode (Some container))
             (update_element container (with_children (λ l, l ++ [heart])) built)))).
Proof.
  intros heart built. unfold createFloatingHeart, try_catch.
  rewrite (bind_returns _ _ w (length (children (element_at container w))) w)
    by reflexivity.
  destruct (Qle_bool _ _); [reflexivity|].
  rewrite createFloatingHeart_builds. fold built.
  unfold appendChild, modify, setTimeout, add_timer, bind, ret. world_simpl.
  rewrite unlink_detached; [reflexivity|].
  unfold built.
  change (element_at ?n (set_drawn ?d ?w)) with (element_at n w).
  rewrite element_at_appended. reflexivity.
Qed.

Lemma filter_length_mono {A} (P P' : A → Prop)
    `{∀ x, Decision (P x)} `{∀ x, Decision (P' x)} (l l' : list A) :
  sublist l' l → (∀ x, P' x → P x) →
  (length (filter P' l') ≤ length (filter P l))%nat.
Proof.
  intros Hsub Himp. induction Hsub as [|x l1 l2 _ IH|x l1 l2 _ IH].
  - reflexivity.
  - rewrite !filter_cons.
    destruct (decide (P' x)) as [Hx|Hx], (decide (P x)) as [Hy|Hy]; cbn; try lia.
    exfalso. apply Hy, Himp, Hx.
  - rewrite filter_cons. destruct (decide (P x)); cbn; lia.
Qed.

Lemma Forall_sublist {A} (P : A → Prop) (l l' : list A) :
  sublist l' l → Forall P l → Forall P l'.
Proof.
  intros Hsub. induction Hsub as [|x l1 l2 _ IH|x l1 l2 _ IH]; intros Hl.
  - constructor.
  - inversion Hl; subst. constructor; [assumption | apply IH; assumption].
  - inversion Hl; subst. apply IH. assumption.
Qed.

Section Ceiling.

Variables (container M : nat).

Local Abbreviation inv := (emitter_inv container M).

Lemma inv_frame w w' :
  elements w' = elements w → timers w' = timers w → inv w → inv w'.
Proof.
  unfold emitter_inv, floating_hearts, element_at. intros -> ->. tauto.
Qed.

(** Updating an element in place: it may lose children or classes, but
    gains no child, does not become a floating heart and keeps its name. *)
Lemma inv_update n f w :
  (∀ e, sublist (children (f e)) (children e)
        ∧ ("floating-heart" ∈ classList (f e) → "floating-heart" ∈ classList e)
        ∧ localName (f e) = localName e) →
  inv w → inv (update_element n f w).
Proof.
  intros Hf (Hv & Hk & Hc & Hb & Ht). unfold emitter_inv.
  rewrite elements_length_update.
  assert (sublist (children (element_at container (update_element n f w)))
                  (children (element_at container w))) as Hsub.
  { destruct (decide (container = n)) as [<-|Hne].
    - rewrite element_at_update_eq by exact Hv. apply Hf.
    - rewrite element_at_update_ne by exact Hne. reflexivity. }
  assert (localName (element_at container (update_element n f w))
          = localName (element_at container w)) as Hname.
  { destruct (decide (container = n)) as [<-|Hne].
    - rewrite element_at_update_eq by exact Hv. apply Hf.
    - rewrite element_at_update_ne by exact Hne. reflexivity. }
  assert (∀ h, "floating-heart" ∈ classList (element_at h (update_element n f w)) →
               "floating-heart" ∈ classList (element_at h w)) as Hclass.
  { intros h. destruct (decide (h = n)) as [->|Hne].
    - destruct (decide (n < length (elements w))%nat) as [Hn|Hn].
      + rewrite element_at_update_eq by exact Hn. apply Hf.
      + unfold element_at. rewrite elements_update.
        rewrite !lookup_ge_None_2 by (rewrite ?length_alter; lia).
        intros H. exact H.
    - rewrite element_at_update_ne by exact Hne. intros H. exact H. }
  split; [exact Hv|]. split; [|split; [|split]].
  - eapply Forall_impl; [|intros h Hh; exact Hh].
    eapply Forall_sublist; [exact Hsub | exact Hk].
  - etransitivity; [|exact Hc]. unfold floating_hearts.
    apply filter_length_mono; [exact Hsub | exact Hclass].
  - rewrite Hname. intros Hnb. etransitivity; [|exact (Hb Hnb)].
    apply sublist_length, Hsub.
  - exact Ht.
Qed.

(** An update that touches neither children, classes nor name. *)
Lemma inv_update_plain n f w :
  (∀ e, children (f e) = children e ∧ classList (f e) = classList e
        ∧ localName (f e) = localName e) →
  inv w → inv (update_element n f w).
Proof.
  intros Hf. apply inv_update. intros e. destruct (Hf e) as (-> & -> & ->).
  split; [reflexivity|]. split; [intros H; exact H | reflexivity].
Qed.

(** Setting the text of an element takes children away and adds none. *)
Lemma inv_set_textContent n v : preserves inv (set_textContent n v).
Proof.
  intros w H. unfold exec, set_textContent, modify. cbn [snd].
  apply inv_update_plain; [intros e; repeat split|].
  rewrite remove_children_steps.
  apply inv_update.
  { intros e. cbn [children classList localName with_children].
    split; [apply sublist_nil_l|]. split; [intros Hin; exact Hin | reflexivity]. }
  induction (children (element_at n w)) as [|c cs IH]; cbn [foldr]; [exact H|].
  apply inv_update_plain; [intros e; repeat split | exact IH].
Qed.

Lemma inv_classList_add n token :
  token ≠ "floating-heart" → preserves inv (classList_add n token).
Proof.
  intros Htoken w H. unfold exec, classList_add, modify. cbn [snd].
  apply inv_update; [|exact H]. intros e. cbn [children classList localName with_classList].
  split; [reflexivity|]. split; [|reflexivity].
  destruct (decide _); [intros Hin; exact Hin|].
  intros Hin. apply elem_of_app in Hin as [Hin|Hin]; [exact Hin|].
  apply list_elem_of_singleton in Hin. congruence.
Qed.

Lemma inv_classList_remove n tokens : preserves inv (classList_remove n tokens).
Proof.
  intros w H. unfold exec, classList_remove, modify. cbn [snd].
  apply inv_update; [|exact H]. intros e. cbn [children classList localName with_classList].
  split; [reflexivity|]. split; [|reflexivity].
  intros Hin. apply list_elem_of_filter in Hin as [_ Hin]. exact Hin.
Qed.

Lemma inv_unlink child w : inv w → inv (unlink child w).
Proof.
  intros H. unfold unlink.
  destruct (parentNode (element_at child w)) as [p|].
  - change (set_elements ?f w) with
      (update_element child (with_parentNode None)
         (update_element p (with_children (filter (λ c, c ≠ child))) w)).
    apply inv_update_plain; [intros e; repeat split|].
    apply inv_update; [|exact H].
    intros e. cbn [children classList localName with_children].
    split; [apply sublist_filter|]. split; [intros Hin; exact Hin | reflexivity].
  - rewrite set_elements_same. exact H.
Qed.

Lemma floating_hearts_appended e w :
  Forall (λ h, (h < length (elements w))%nat) (children (element_at container w)) →
  (container < length (elements w))%nat →
  floating_hearts container (set_elements (λ l, l ++ [e]) w)
  = floating_hearts container w.
Proof.
  intros Hk Hv. unfold floating_hearts. rewrite element_at_older by exact Hv.
  induction Hk as [|h l Hh _ IH]; [reflexivity|].
  rewrite !filter_cons, IH, (element_at_older h) by exact Hh. reflexivity.
Qed.

(** Allocating an element changes nothing for the container. *)
Lemma inv_appended e w :
  inv w → inv (set_elements (λ l, l ++ [e]) w).
Proof.
  intros (Hv & Hk & Hc & Hb & Ht). unfold emitter_inv.
  rewrite floating_hearts_appended by assumption.
  rewrite element_at_older by exact Hv. world_simpl. rewrite length_app.
  cbn [length]. split; [lia|]. split; [|repeat split; assumption].
  eapply Forall_impl; [exact Hk|]. cbn beta. intros h Hh. lia.
Qed.

(** The element allocated last becomes the last child of [parent].  When
    [parent] is the container, a floating heart needs room below the
    ceiling, and so does any child unless the container is the body. *)
Lemma inv_attach e parent w :
  let heart := length (elements w) in
  parentNode e = None →
  (parent = container →
   ("floating-heart" ∈ classList e →
    (length (children (element_at container w)) < M)%nat) ∧
   (localName (element_at container w) ≠ "body" →
    (length (children (element_at container w)) < M)%nat)) →
  inv w →
  inv (update_element heart (with_parentNode (Some parent))
         (update_element parent (with_children (λ l, l ++ [heart]))
            (set_elements (λ l, l ++ [e]) w))).
Proof.
  intros heart He Hroom H.
  pose proof (inv_appended e w H) as Hbuilt.
  set (built := set_elements (λ l, l ++ [e]) w) in *.
  apply inv_update_plain; [intros x; repeat split|].
  destruct (decide (parent = container)) as [->|Hne].
  - destruct (Hroom eq_refl) as [Hfloat Hall].
    destruct H as (Hv & Hk & Hc & Hb & Ht).
    destruct Hbuilt as (Hv' & Hk' & Hc' & Hb' & Ht').
    assert (element_at container built = element_at container w) as Hsame
      by (apply element_at_older, Hv).
    assert (element_at heart (update_element container
                                (with_children (λ l, l ++ [heart])) built) = e) as Hheart.
    { rewrite element_at_update_ne by (unfold heart; lia).
      apply element_at_appended. }
    unfold emitter_inv. rewrite elements_length_update.
    rewrite element_at_update_eq by exact Hv'.
    cbn [children localName with_children]. rewrite Hsame.
    split; [exact Hv'|]. split; [|split; [|split]].
    + apply Forall_app. split; [rewrite <- Hsame; exact Hk'|].
      apply Forall_singleton. unfold built. world_simpl. rewrite length_app.
      cbn [length]. unfold heart. lia.
    + unfold floating_hearts. rewrite element_at_update_eq by exact Hv'.
      cbn [children with_children]. rewrite Hsame, filter_app, length_app.
      assert (filter (λ h, "floating-heart"
                ∈ classList (element_at h (update_element container
                                (with_children (λ l, l ++ [heart])) built)))
                (children (element_at container w))
              = floating_hearts container w) as ->.
      { unfold floating_hearts. clear -Hk Hv.
        induction Hk as [|h l Hh _ IH]; [reflexivity|].
        rewrite !filter_cons, IH.
        destruct (decide (h = container)) as [->|Hhc].
        - rewrite element_at_update_eq by (unfold built; world_simpl;
                                           rewrite length_app; lia).
          cbn [classList with_children].
          unfold built. rewrite element_at_older by exact Hh. reflexivity.
        - rewrite element_at_update_ne by exact Hhc.
          unfold built. rewrite element_at_older by exact Hh. reflexivity. }
      rewrite filter_cons, filter_nil, Hheart.
      destruct (decide _) as [Hf|_]; cbn [length]; [|lia].
      specialize (Hfloat Hf).
      assert (length (floating_hearts container w)
              ≤ length (children (element_at container w)))%nat
        by apply length_filter.
      lia.
    + intros Hnb. rewrite length_app. cbn [length]. specialize (Hall Hnb). lia.
    + exact Ht'.
  - destruct Hbuilt as (Hv' & Hk' & Hc' & Hb' & Ht').
    assert (∀ h, classList (element_at h (update_element parent
                                (with_children (λ l, l ++ [heart])) built))
                 = classList (element_at h built)) as Hclass.
    { intros h. destruct (decide (h = parent)) as [->|Hhp].
      - destruct (decide (parent < length (elements built))%nat) as [Hp|Hp].
        + rewrite element_at_update_eq by exact Hp. reflexivity.
        + unfold element_at. rewrite elements_update.
          rewrite !lookup_ge_None_2 by (rewrite ?length_alter; lia). reflexivity.
      - rewrite element_at_update_ne by exact Hhp. reflexivity. }
    unfold emitter_inv, floating_hearts. rewrite elements_length_update.
    rewrite element_at_update_ne by (intros E; apply Hne; symmetry; exact E).
    split; [exact Hv'|]. split; [exact Hk'|]. split; [|split; [exact Hb' | exact Ht']].
    erewrite list_filter_iff; [exact Hc'|].
    intros h. cbn beta. rewrite Hclass. reflexivity.
Qed.

Lemma inv_timers f w :
  (spawns_respect container M (timers w) → spawns_respect container M (f (timers w))) →
  inv w → inv (set_timers f w).
Proof.
  intros Hf (Hv & Hk & Hc & Hb & Ht).
  split; [exact Hv|]. split; [exact Hk|]. split; [exact Hc|]. split; [exact Hb|].
  apply Hf, Ht.
Qed.

Lemma spawns_respect_app l1 l2 :
  spawns_respect container M l1 → spawns_respect container M l2 →
  spawns_respect container M (l1 ++ l2).
Proof.
  intros H1 H2 t cfg Hin. apply elem_of_app in Hin as [Hin|Hin];
    [apply H1 | apply H2]; exact Hin.
Qed.

Lemma spawns_respect_filter (P : timer → Prop) `{∀ t, Decision (P t)} l :
  spawns_respect container M l → spawns_respect container M (filter P l).
Proof.
  intros Hl t cfg Hin. apply list_elem_of_filter in Hin as [_ Hin].
  apply Hl, Hin.
Qed.

Lemma spawns_respect_one t :
  task_ok container M (t_task t) → spawns_respect container M [t].
Proof.
  intros Hok u cfg Hin Hu. apply list_elem_of_singleton in Hin as ->.
  apply Hok, Hu.
Qed.

Lemma inv_add_timer t delay every :
  task_ok container M t → preserves inv (add_timer t delay every).
Proof.
  intros Hok w H. unfold exec, add_timer. cbn [snd].
  apply (inv_frame (set_timers (λ l, l ++ [{| t_id := nextTimer w;
                                              t_due := (clock w + Qmax 0 delay)%Q;
                                              t_every := every; t_task := t |}]) w));
    [reflexivity | reflexivity |].
  apply inv_timers; [|exact H].
  intros Hs. apply spawns_respect_app; [exact Hs|].
  apply spawns_respect_one. exact Hok.
Qed.

Lemma spawns_respect_staggered t delay w from n :
  task_ok container M t → spawns_respect container M (staggered t delay w from n).
Proof.
  intros Hok u cfg Hin Hu. unfold staggered in Hin.
  apply list_elem_of_fmap in Hin as (i & -> & _). apply Hok, Hu.
Qed.

Lemma inv_createHeartBurst cx cy count :
  preserves inv (createHeartBurst cx cy count).
Proof.
  intros w H. unfold exec. rewrite createHeartBurst_schedules. cbn [snd].
  eapply inv_frame; [reflexivity | reflexivity |].
  apply inv_timers; [|exact H].
  intros Hs. apply spawns_respect_app; [exact Hs|].
  apply spawns_respect_staggered. intros cfg E. discriminate E.
Qed.

(** A spawn adds a child only below the ceiling. *)
Lemma inv_createFloatingHeart c cfg :
  task_ok container M (SpawnHeart c cfg) → preserves inv (createFloatingHeart c cfg).
Proof.
  intros Hok w H. unfold exec. rewrite createFloatingHeart_runs. cbn [snd].
  destruct (Qle_bool _ _) eqn:Hfull; [exact H|].
  eapply inv_frame; [reflexivity | reflexivity |].
  apply inv_timers.
  { intros Hs. apply spawns_respect_app; [exact Hs|].
    apply spawns_respect_one. intros cfg' E. discriminate E. }
  eapply inv_frame; [| |apply (inv_attach (floating_heart_element cfg w) c w)];
    [reflexivity | reflexivity | reflexivity | | exact H].
  intros ->. specialize (Hok cfg eq_refl).
  assert (length (children (element_at container w)) < M)%nat as Hroom.
  { assert (¬ (maxHearts cfg
               <= inject_Z (Z.of_nat (length (children (element_at container w)))))%Q)
      as Hlt.
    { intros Hle. apply Qle_bool_iff in Hle. congruence. }
    rewrite Hok in Hlt. rewrite <- Zle_Qle in Hlt. lia. }
  split; intros _; exact Hroom.
Qed.

Lemma body_element_named w body :
  body_element w = Some body → localName (element_at body w) = "body".
Proof.
  unfold body_element. destruct (list_find _ _) as [[i e]|] eqn:Hf; [|discriminate].
  intros [= <-]. apply list_find_Some in Hf as (Hl & He & _).
  unfold element_at. rewrite Hl. exact He.
Qed.

Variables Math_cos Math_sin : Q → Q.

Lemma inv_burstHeart cx cy :
  preserves inv (burstHeart Math_cos Math_sin cx cy).
Proof.
  intros w H. unfold exec. rewrite burstHeart_runs. cbn [snd].
  destruct (body_element w) as [body|] eqn:Hbody.
  - eapply inv_frame; [reflexivity | reflexivity |].
    apply inv_timers.
    { intros Hs. apply spawns_respect_app; [exact Hs|].
      apply spawns_respect_one. intros cfg' E. discriminate E. }
    eapply inv_frame;
      [| |apply (inv_attach (burst_heart_element Math_cos Math_sin cx cy w) body w)];
      [reflexivity | reflexivity | reflexivity | | exact H].
    intros ->. split.
    + cbn [classList burst_heart_element]. intros Hin.
      apply list_elem_of_singleton in Hin. discriminate Hin.
    + intros Hnb. exfalso. apply Hnb, body_element_named, Hbody.
  - eapply inv_frame; [reflexivity | reflexivity |]. apply inv_appended, H.
Qed.

(** A sparkle is attached to the body, and is no floating heart. *)
Lemma inv_createSparkle event : preserves inv (createSparkle event).
Proof.
  intros w H. unfold exec. rewrite createSparkle_runs. cbn [snd].
  destruct (body_element w) as [body|] eqn:Hbody.
  - eapply inv_frame; [reflexivity | reflexivity |].
    apply inv_timers.
    { intros Hs. apply spawns_respect_app; [exact Hs|].
      apply spawns_respect_one. intros cfg' E. discriminate E. }
    eapply inv_frame;
      [| |apply (inv_attach (sparkle_element event w) body w)];
      [reflexivity | reflexivity | reflexivity | | exact H].
    intros ->. split.
    + cbn [classList sparkle_element]. intros Hin.
      apply list_elem_of_singleton in Hin. discriminate Hin.
    + intros Hnb. exfalso. apply Hnb, body_element_named, Hbody.
  - eapply inv_frame; [reflexivity | reflexivity |]. apply inv_appended, H.
Qed.

(** Leaves of the page's statements, as far as the emitter's invariant is
    concerned. *)
Ltac inv_leaf :=
  first
    [ apply inv_createHeartBurst
    | apply inv_set_textContent
    | apply inv_classList_add;
      first [ discriminate
            | let E := fresh "E" in
              intros E; cbn [String.append] in E; discriminate E ]
    | apply inv_classList_remove
    | apply inv_add_timer;
      first [ assumption
            | intros ? ?; discriminate
            | let E := fresh "E" in intros ? E; injection E as _ <-; assumption ]
    | apply preserves_modify; intros ? ?;
      first
        [ apply inv_unlink; assumption
        | apply inv_update_plain; [intros ?; repeat split | assumption]
        | apply inv_timers; [apply spawns_respect_filter | assumption]
        | eapply inv_frame; [reflexivity | reflexivity | eassumption] ]
    | let w := fresh "w" in let H := fresh "H" in
      intros w H; eapply inv_frame; [reflexivity | reflexivity | exact H] ].

Lemma inv_run_task t :
  task_ok container M t → preserves inv (run_task Math_cos Math_sin t).
Proof.
  intros Hok. destruct t; cbn [run_task].
  - apply inv_createFloatingHeart, Hok.
  - autounfold with page_code. preserves_with inv_leaf.
  - apply inv_burstHeart.
  - autounfold with page_code. preserves_with inv_leaf.
  - autounfold with page_code. preserves_with inv_leaf.
  - autounfold with page_code. preserves_with inv_leaf.
Qed.

Lemma inv_uncaught e w : inv w → inv (set_uncaught (λ l, l ++ [e]) w).
Proof. apply inv_frame; reflexivity. Qed.

Lemma inv_fire t w : t ∈ timers w → inv w → inv (fire Math_cos Math_sin t w).
Proof.
  intros Hin H. unfold fire.
  assert (task_ok container M (t_task t)) as Hok.
  { intros cfg E. destruct H as (_ & _ & _ & _ & Hs). exact (Hs t cfg Hin E). }
  apply preserves_top_level;
    [intros e w'; apply inv_uncaught | apply inv_run_task, Hok |].
  apply inv_timers.
  - intros Hs. destruct (t_every t).
    + apply spawns_respect_app; [apply spawns_respect_filter; exact Hs|].
      apply spawns_respect_one. exact Hok.
    + apply spawns_respect_filter. exact Hs.
  - eapply inv_frame; [reflexivity | reflexivity | exact H].
Qed.

Lemma inv_run_handler h : preserves inv (run_handler h).
Proof. destruct h; autounfold with page_code; preserves_with inv_leaf. Qed.

Lemma inv_dispatch target type w : inv w → inv (dispatch target type w).
Proof.
  unfold dispatch. generalize (filter (λ l, l_type l = type) (listeners (element_at target w))).
  intros ls. revert w. induction ls as [|l ls IH]; intros w H; cbn [foldl]; [exact H|].
  apply IH. apply preserves_top_level;
    [intros e w'; apply inv_uncaught | apply inv_run_handler | exact H].
Qed.

Lemma inv_perform a w :
  respects_ceiling M a → inv w → inv (perform Math_cos Math_sin a w).
Proof.
  intros Ha H.
  assert (∀ m : js unit, preserves inv m → inv (top_level m w)) as Htop.
  { intros m Hm. apply preserves_top_level;
      [intros e w'; apply inv_uncaught | exact Hm | exact H]. }
  destruct a; cbn [perform].
  - destruct (timers w !! i) as [t|] eqn:Hi; [|exact H].
    apply inv_fire; [|exact H]. eapply list_elem_of_lookup_2, Hi.
  - apply inv_dispatch, H.
  - cbn [respects_ceiling] in Ha.
    apply Htop. autounfold with page_code. preserves_with inv_leaf.
  - apply Htop. autounfold with page_code. preserves_with inv_leaf.
  - apply Htop. apply inv_createHeartBurst.
  - apply Htop. autounfold with page_code. preserves_with inv_leaf.
  - apply Htop. autounfold with page_code. preserves_with inv_leaf.
  - apply Htop. autounfold with page_code. preserves_with inv_leaf.
  - apply Htop. destruct c; autounfold with page_code; preserves_with inv_leaf.
  - apply Htop. autounfold with page_code. preserves_with inv_leaf.
  - apply Htop. apply inv_createSparkle.
Qed.

Lemma inv_run actions : ∀ w,
  Forall (respects_ceiling M) actions → inv w → inv (run Math_cos Math_sin actions w).
Proof.
  induction actions as [|a actions IH]; intros w Hall H; cbn [run foldl]; [exact H|].
  inversion Hall as [|? ? Ha Hrest]; subst.
  apply IH; [exact Hrest|]. apply inv_perform; assumption.
Qed.

End Ceiling.

Section CeilingClaim.

Variables Math_cos Math_sin : number → number.

Lemma inv_startFloatingHearts container M containerId config :
  (maxHearts (merge_heart_config (default no_heart_overrides config))
   == inject_Z (Z.of_nat M))%Q →
  preserves (emitter_inv container M) (startFloatingHearts containerId config).
Proof.
  intros Hcfg w H.
  pose proof (inv_perform container M Math_cos Math_sin
                (CallStartFloatingHearts containerId config) w Hcfg H) as Hp.
  cbn [perform] in Hp. rewrite top_level_returns in Hp; [exact Hp|].
  unfold startFloatingHearts, result, try_catch.
  destruct (bind _ _ w) as [[[]|e] w']; reflexivity.
Qed.

(** A spawn request at the ceiling is dropped: nothing is created, nothing
    is logged. *)
Lemma createFloatingHeart_dropped container cfg w :
  (maxHearts cfg
   <= inject_Z (Z.of_nat (length (children (element_at container w)))))%Q →
  createFloatingHeart container cfg w = (Return tt, w).
Proof.
  intros Hfull. rewrite createFloatingHeart_runs.
  apply Qle_bool_iff in Hfull. rewrite Hfull. reflexivity.
Qed.

(** C1. For every ceiling [M]: start the emitter on a container that is
    empty, with [maxHearts] configured to [M]; then, after any sequence of
    timer firings, input events and calls of the page's functions (any
    further start of the emitter using the same ceiling), the container holds
    at most [M] floating hearts, and at most [M] children altogether unless
    it is the document body.  A spawn request that finds [M] or more children
    creates nothing and logs nothing. *)
Theorem floating_hearts_never_exceed_ceiling
    (M : nat) containerId config w0 container actions :
  element_with_id (default "hearts-container" containerId) w0 = Some container →
  children (element_at container w0) = [] →
  spawns_respect container M (timers w0) →
  (maxHearts (merge_heart_config (default no_heart_overrides config))
   == inject_Z (Z.of_nat M))%Q →
  Forall (respects_ceiling M) actions →
  let w := run Math_cos Math_sin actions
             (exec (startFloatingHearts containerId config) w0) in
  (length (floating_hearts container w) ≤ M)%nat ∧
  (localName (element_at container w) ≠ "body" →
   (length (children (element_at container w)) ≤ M)%nat) ∧
  (∀ cfg,
     (maxHearts cfg == inject_Z (Z.of_nat M))%Q →
     (M ≤ length (children (element_at container w)))%nat →
     createFloatingHeart container cfg w = (Return tt, w)).
Proof.
  intros Hid Hempty Hspawns Hcfg Hactions w.
  destruct (element_with_id_valid _ _ _ Hid) as [Hvalid _].
  assert (emitter_inv container M w0) as H0.
  { unfold emitter_inv, floating_hearts. rewrite Hempty.
    split; [exact Hvalid|]. split; [constructor|].
    split; [cbn; lia|]. split; [intros _; cbn; lia | exact Hspawns]. }
  assert (emitter_inv container M w) as (_ & _ & Hfloat & Hall & _).
  { apply inv_run; [exact Hactions|].
    apply inv_startFloatingHearts; assumption. }
  split; [exact Hfloat|]. split; [exact Hall|].
  intros cfg Hmax Hfull. apply createFloatingHeart_dropped.
  rewrite Hmax. rewrite <- Zle_Qle. lia.
Qed.

End CeilingClaim.

(** ** Showing the celebration screen *)

Section Inactive.

Variable n : nat.

Local Abbreviation off := (inactive n).

Lemma off_frame w w' : elements w' = elements w → off w → off w'.
Proof. unfold inactive, element_at. intros ->. tauto. Qed.

Lemma off_update m f w :
  (∀ e, "active" ∈ classList (f e) → "active" ∈ classList e) →
  off w → off (update_element m f w).
Proof.
  intros Hf H. unfold inactive.
  destruct (decide (n = m)) as [<-|Hne].
  - destruct (decide (n < length (elements w))%nat) as [Hn|Hn].
    + rewrite element_at_update_eq by exact Hn. intros Hin. apply H, Hf, Hin.
    + unfold element_at. rewrite elements_update.
      rewrite lookup_ge_None_2 by (rewrite length_alter; lia).
      cbn. apply not_elem_of_nil.
  - rewrite element_at_update_ne by exact Hne. exact H.
Qed.

Lemma off_update_plain m f w :
  (∀ e, classList (f e) = classList e) → off w → off (update_element m f w).
Proof. intros Hf. apply off_update. intros e. rewrite Hf. tauto. Qed.

Lemma off_set_textContent m v : preserves off (set_textContent m v).
Proof.
  intros w H. unfold exec, set_textContent, modify. cbn [snd].
  apply off_update_plain; [reflexivity|].
  rewrite remove_children_steps.
  apply off_update_plain; [reflexivity|].
  induction (children (element_at m w)) as [|c cs IH]; cbn [foldr]; [exact H|].
  apply off_update_plain; [reflexivity | exact IH].
Qed.

Lemma off_classList_add m token :
  token ≠ "active" → preserves off (classList_add m token).
Proof.
  intros Htoken w H. unfold exec, classList_add, modify. cbn [snd].
  apply off_update; [|exact H]. intros e. cbn [classList with_classList].
  destruct (decide _); [tauto|].
  intros Hin. apply elem_of_app in Hin as [Hin|Hin]; [exact Hin|].
  apply list_elem_of_singleton in Hin. congruence.
Qed.

Lemma off_classList_remove m tokens : preserves off (classList_remove m tokens).
Proof.
  intros w H. unfold exec, classList_remove, modify. cbn [snd].
  apply off_update; [|exact H]. intros e. cbn [classList with_classList].
  intros Hin. apply list_elem_of_filter in Hin as [_ Hin]. exact Hin.
Qed.

Lemma off_unlink child w : off w → off (unlink child w).
Proof.
  intros H. unfold unlink.
  destruct (parentNode (element_at child w)) as [p|].
  - change (set_elements ?f w) with
      (update_element child (with_parentNode None)
         (update_element p (with_children (filter (λ c, c ≠ child))) w)).
    apply off_update_plain; [reflexivity|].
    apply off_update_plain; [reflexivity | exact H].
  - rewrite set_elements_same. exact H.
Qed.

Lemma off_appended e w :
  "active" ∉ classList e → off w → off (set_elements (λ l, l ++ [e]) w).
Proof.
  intros He H. unfold inactive.
  destruct (decide (n < length (elements w))%nat) as [Hn|Hn].
  - rewrite element_at_older by exact Hn. exact H.
  - destruct (decide (n = length (elements w))) as [->|Hne].
    + rewrite element_at_appended. exact He.
    + unfold element_at. world_simpl.
      rewrite lookup_ge_None_2 by (rewrite length_app; cbn [length]; lia).
      cbn. apply not_elem_of_nil.
Qed.

Lemma off_createHeartBurst cx cy count :
  preserves off (createHeartBurst cx cy count).
Proof.
  intros w H. unfold exec. rewrite createHeartBurst_schedules. cbn [snd].
  eapply off_frame; [reflexivity | exact H].
Qed.

Lemma off_createFloatingHeart c cfg : preserves off (createFloatingHeart c cfg).
Proof.
  intros w H. unfold exec. rewrite createFloatingHeart_runs. cbn [snd].
  destruct (Qle_bool _ _); [exact H|].
  eapply off_frame; [reflexivity|].
  apply off_update_plain; [reflexivity|].
  apply off_update_plain; [reflexivity|].
  eapply off_frame; [reflexivity|].
  apply off_appended; [|exact H].
  cbn [classList floating_heart_element]. intros Hin.
  apply list_elem_of_singleton in Hin. discriminate Hin.
Qed.

Section Tasks.

Variables Math_cos Math_sin : Q → Q.

Lemma off_burstHeart cx cy : preserves off (burstHeart Math_cos Math_sin cx cy).
Proof.
  intros w H. unfold exec. rewrite burstHeart_runs. cbn [snd].
  assert (off (set_elements
                 (λ l, l ++ [burst_heart_element Math_cos Math_sin cx cy w]) w))
    as Hbuilt.
  { apply off_appended; [|exact H].
    cbn [classList burst_heart_element]. intros Hin.
    apply list_elem_of_singleton in Hin. discriminate Hin. }
  destruct (body_element w) as [body|].
  - eapply off_frame; [reflexivity|].
    apply off_update_plain; [reflexivity|].
    apply off_update_plain; [reflexivity|].
    eapply off_frame; [reflexivity | exact Hbuilt].
  - eapply off_frame; [reflexivity | exact Hbuilt].
Qed.

Lemma off_createSparkle event : preserves off (createSparkle event).
Proof.
  intros w H. unfold exec. rewrite createSparkle_runs. cbn [snd].
  assert (off (set_elements (λ l, l ++ [sparkle_element event w]) w)) as Hbuilt.
  { apply off_appended; [|exact H].
    cbn [classList sparkle_element]. intros Hin.
    apply list_elem_of_singleton in Hin. discriminate Hin. }
  destruct (body_element w) as [body|].
  - eapply off_frame; [reflexivity|].
    apply off_update_plain; [reflexivity|].
    apply off_update_plain; [reflexivity|].
    eapply off_frame; [reflexivity | exact Hbuilt].
  - eapply off_frame; [reflexivity | exact Hbuilt].
Qed.

Ltac off_leaf :=
  first
    [ apply off_createHeartBurst
    | apply off_set_textContent
    | apply off_classList_add;
      first [ discriminate
            | let E := fresh "E" in
              intros E; cbn [String.append] in E; discriminate E ]
    | apply off_classList_remove
    | apply preserves_modify; intros ? ?;
      first
        [ apply off_unlink; assumption
        | apply off_update_plain; [reflexivity | assumption]
        | eapply off_frame; [reflexivity | eassumption] ]
    | let w := fresh "w" in let H := fresh "H" in
      intros w H; eapply off_frame; [reflexivity | exact H] ].

Lemma off_run_task t :
  is_display t = false → preserves off (run_task Math_cos Math_sin t).
Proof.
  intros Ht. destruct t; cbn [run_task]; try discriminate Ht.
  - apply off_createFloatingHeart.
  - autounfold with page_code. preserves_with off_leaf.
  - apply off_burstHeart.
  - autounfold with page_code. preserves_with off_leaf.
  - autounfold with page_code. preserves_with off_leaf.
Qed.

Lemma off_run_handler h : preserves off (run_handler h).
Proof. destruct h; autounfold with page_code; preserves_with off_leaf. Qed.

Lemma off_uncaught e w : off w → off (set_uncaught (λ l, l ++ [e]) w).
Proof. apply off_frame. reflexivity. Qed.

Lemma off_dispatch target type w : off w → off (dispatch target type w).
Proof.
  unfold dispatch. generalize (filter (λ l, l_type l = type) (listeners (element_at target w))).
  intros ls. revert w. induction ls as [|l ls IH]; intros w H; cbn [foldl]; [exact H|].
  apply IH. apply preserves_top_level;
    [intros e w'; apply off_uncaught | apply off_run_handler | exact H].
Qed.

Lemma off_perform a w :
  ¬ displays a w → off w → off (perform Math_cos Math_sin a w).
Proof.
  intros Ha H.
  assert (∀ m : js unit, preserves off m → off (top_level m w)) as Htop.
  { intros m Hm. apply preserves_top_level;
      [intros e w'; apply off_uncaught | exact Hm | exact H]. }
  destruct a; cbn [perform].
  - cbn [displays] in Ha. destruct (timers w !! i) as [t|]; [|exact H].
    unfold fire. apply preserves_top_level;
      [intros e w'; apply off_uncaught | | eapply off_frame; [reflexivity | exact H]].
    apply off_run_task. destruct (is_display (t_task t)); [contradiction | reflexivity].
  - apply off_dispatch, H.
  - apply Htop. autounfold with page_code. preserves_with off_leaf.
  - apply Htop. autounfold with page_code. preserves_with off_leaf.
  - apply Htop. apply off_createHeartBurst.
  - apply Htop. autounfold with page_code. preserves_with off_leaf.
  - apply Htop. autounfold with page_code. preserves_with off_leaf.
  - apply Htop. autounfold with page_code. preserves_with off_leaf.
  - apply Htop. destruct c; autounfold with page_code; preserves_with off_leaf.
  - apply Htop. autounfold with page_code. preserves_with off_leaf.
  - apply Htop. apply off_createSparkle.
Qed.

End Tasks.

End Inactive.

(** An element gains [active] only when a deferred step of
    [showCelebration] runs. *)
Lemma active_only_by_display Math_cos Math_sin a w n :
  ¬ displays a w →
  "active" ∈ classList (element_at n (perform Math_cos Math_sin a w)) →
  "active" ∈ classList (element_at n w).
Proof.
  intros Ha Hafter.
  destruct (decide ("active" ∈ classList (element_at n w))) as [Hin|Hout];
    [exact Hin|].
  exfalso. exact (off_perform n Math_cos Math_sin a w Ha Hout Hafter).
Qed.

Lemma classList_add_has n token w :
  (n < length (elements w))%nat →
  token ∈ classList (element_at n (exec (classList_add n token) w)).
Proof.
  intros H. unfold exec, classList_add, modify. cbn [snd].
  rewrite element_at_update_eq by exact H. cbn [classList with_classList].
  destruct (decide _) as [Hin|_]; [exact Hin|].
  apply elem_of_app. right. apply list_elem_of_here.
Qed.

Section Celebration.

Variables Math_cos Math_sin : number → number.

(** C6. With both screens in the document, [showCelebration] takes the
    marker [active] off the question screen at once and touches no other
    element: the celebration screen does not gain [active] in the call, which
    only queues the deferred step, due 400 ms later.  That step puts [active]
    on the celebration screen, schedules the centred burst of 50 hearts,
    starts the recurring loop (every 3000 ms), and calls the optional
    callback last, in the world where all of that is done.  With either
    screen missing, the call only logs: no element and no timer changes.
    No other step of the page (timer, event or call) than such a deferred
    step gives any element the marker [active]. *)
Theorem celebration_transition :
  (∀ questionScreenId celebrationScreenId onCelebrate w questionScreen celebrationScreen,
     element_with_id (default "question-screen" questionScreenId) w
       = Some questionScreen →
     element_with_id (default "celebration-screen" celebrationScreenId) w
       = Some celebrationScreen →
     let W := exec (showCelebration questionScreenId celebrationScreenId onCelebrate) w in
     result (showCelebration questionScreenId celebrationScreenId onCelebrate) w
       = Return tt ∧
     ("active" ∉ classList (element_at questionScreen W)) ∧
     (∀ n, n ≠ questionScreen → element_at n W = element_at n w) ∧
     ("active" ∈ classList (element_at celebrationScreen W) →
      "active" ∈ classList (element_at celebrationScreen w)) ∧
     timers W = timers w ++ [{| t_id := nextTimer w; t_due := (clock w + 400)%Q;
                                t_every := None;
                                t_task := CelebrationDisplay celebrationScreen
                                                             onCelebrate |}] ∧
     console W = console w ∧ invoked W = invoked w) ∧
  (∀ celebrationScreen onCelebrate w,
     (celebrationScreen < length (elements w))%nat →
     let centre := BurstHeart (innerWidth w / 2) (innerHeight w / 2) in
     let delay := (λ i : nat, inject_Z (Z.of_nat i) * 50)%Q in
     let shown := exec (classList_add celebrationScreen "active") w in
     let burst :=
       exec (createHeartBurst (innerWidth w / 2) (innerHeight w / 2) (Some 50%nat))
         shown in
     let looping := exec (startCelebrationLoop (Some 3000%Q)) burst in
     let W := exec (run_task Math_cos Math_sin
                      (CelebrationDisplay celebrationScreen onCelebrate)) w in
     "active" ∈ classList (element_at celebrationScreen W) ∧
     timers W = timers w ++ staggered centre delay w 0 50
                ++ staggered centre delay burst 0 40 ++ loop_timers 3000 burst ∧
     nextTimer burst = (nextTimer w + 50)%nat ∧ clock burst = clock w ∧
     match onCelebrate with
     | Some f =>
         invoked W = invoked w ++ [cb_name f] ∧
         W = exec (try_catch (call f)
                     (λ e, console_error
                             ("[Celebration] Failed during celebration display: "
                              +:+ error_message e))) looping
     | None => invoked W = invoked w ∧ W = looping
     end) ∧
  (∀ questionScreenId celebrationScreenId onCelebrate w,
     element_with_id (default "question-screen" questionScreenId) w = None
     ∨ element_with_id (default "celebration-screen" celebrationScreenId) w = None →
     let W := exec (showCelebration questionScreenId celebrationScreenId onCelebrate) w in
     result (showCelebration questionScreenId celebrationScreenId onCelebrate) w
       = Return tt ∧
     elements W = elements w ∧ timers W = timers w ∧ invoked W = invoked w ∧
     length (console W) = S (length (console w))) ∧
  (∀ a w n,
     ¬ displays a w →
     "active" ∈ classList (element_at n (perform Math_cos Math_sin a w)) →
     "active" ∈ classList (element_at n w)).
Proof.
  split; [|split; [|split]]; [| | |apply active_only_by_display].
  - intros q c cb w qn cn Hq Hc W.
    destruct (element_with_id_valid _ _ _ Hq) as [Hvalid _].
    unfold W, exec, result. rewrite (showCelebration_runs q c cb qn cn w Hq Hc).
    cbn [fst snd].
    change (element_at ?n (set_nextTimer ?v (set_timers ?f ?w))) with (element_at n w).
    assert ("active" ∉ classList (element_at qn
              (update_element qn (with_classList (filter (λ c, c ∉ ["active"]))) w)))
      as Hoff.
    { rewrite element_at_update_eq by exact Hvalid. cbn [classList with_classList].
      rewrite list_elem_of_filter. intros [Hn _]. apply Hn, list_elem_of_here. }
    split; [reflexivity|]. split; [exact Hoff|]. split; [|split].
    + intros n Hn. apply element_at_update_ne, Hn.
    + destruct (decide (cn = qn)) as [->|Hne].
      * intros H. contradiction.
      * rewrite element_at_update_ne by exact Hne. intros H. exact H.
    + repeat split.
  - intros cn cb w Hvalid centre delay shown burst looping W.
    unfold W, exec. cbn [run_task]. rewrite celebrationDisplay_runs.
    fold (exec (classList_add cn "active") w). fold shown.
    fold (exec (createHeartBurst (innerWidth w / 2) (innerHeight w / 2) (Some 50%nat)) shown).
    fold burst.
    fold (exec (startCelebrationLoop (Some 3000%Q)) burst). fold looping.
    cbn [snd].
    assert (burst = set_nextTimer (nextTimer w + 50)
                      (set_timers (λ l, l ++ staggered centre delay w 0 50) shown))
      as Hburst.
    { unfold burst, exec. rewrite createHeartBurst_schedules. reflexivity. }
    assert (looping = set_nextTimer (nextTimer burst + 43)
                        (set_timers (λ l, l ++ staggered centre delay burst 0 40
                                             ++ loop_timers 3000 burst) burst))
      as Hloop.
    { assert (innerWidth burst = innerWidth w ∧ innerHeight burst = innerHeight w)
        as [Hiw Hih] by (rewrite Hburst; split; reflexivity).
      unfold looping, exec. rewrite startCelebrationLoop_runs.
      rewrite Hiw, Hih. reflexivity. }
    assert (element_at cn looping = element_at cn shown) as Hel.
    { rewrite Hloop, Hburst. reflexivity. }
    assert (timers looping
            = timers w ++ staggered centre delay w 0 50
              ++ staggered centre delay burst 0 40 ++ loop_timers 3000 burst) as Htm.
    { rewrite Hloop. world_simpl. rewrite Hburst at 1. world_simpl.
      rewrite <- !app_assoc. reflexivity. }
    assert (invoked looping = invoked w) as Hinv.
    { rewrite Hloop, Hburst. reflexivity. }
    assert ("active" ∈ classList (element_at cn looping)) as Hactive.
    { rewrite Hel. apply classList_add_has, Hvalid. }
    split; [|split; [|split; [|split]]].
    + destruct cb as [f|]; [|exact Hactive].
      destruct (cb_throws f); exact Hactive.
    + destruct cb as [f|]; [|exact Htm].
      destruct (cb_throws f); exact Htm.
    + rewrite Hburst. reflexivity.
    + rewrite Hburst. reflexivity.
    + destruct cb as [f|]; [|split; [exact Hinv | reflexivity]].
      split.
      * destruct (cb_throws f); world_simpl; rewrite Hinv; reflexivity.
      * unfold exec, try_catch, call, bind, modify, console_error.
        destruct (cb_throws f); reflexivity.
  - intros q c cb w H W. unfold W, exec, result.
    rewrite (showCelebration_missing q c cb w H). cbn [fst snd].
    repeat split. world_simpl. rewrite length_app. cbn [length]. lia.
Qed.

(** On the sample page, nothing else being pending, the next turn of the
    event loop after [showCelebration] comes 400 ms later and shows the
    celebration screen. *)
Example celebration_on_the_page :
  let called := exec (showCelebration None None None) page in
  let shown := turn Math_cos Math_sin called in
  classList (element_at 2 called) = ["screen"] ∧
  classList (element_at 3 called) = ["screen"] ∧
  clock shown = 400%Q ∧
  classList (element_at 3 shown) = ["screen"; "active"] ∧
  length (timers shown) = 93%nat.
Proof. vm_compute. repeat split. Qed.

End Celebration.

(** * Further properties of the code *)

(** ** Random numbers and glyphs *)

(** [Math.floor(r * n)] is an index of an array of [n] entries. *)
Lemma floor_index (r : Q) (n : nat) :
  (0 <= r < 1)%Q → (0 < n)%nat →
  0 ≤ Qfloor (r * inject_Z (Z.of_nat n)) < Z.of_nat n.
Proof.
  intros [H0 H1] Hn.
  assert (0 < inject_Z (Z.of_nat n))%Q as Hpos.
  { change 0%Q with (inject_Z 0). rewrite <- Zlt_Qlt. lia. }
  split.
  - change 0 with (Qfloor 0). apply Qfloor_resp_le. nra.
  - rewrite Zlt_Qlt. eapply Qle_lt_trans; [apply Qfloor_le|]. nra.
Qed.

(** The glyph picked from a non-empty array is one of its entries, never
    [undefined]. *)
Lemma picked_listed (arr : list string) (r : Q) :
  arr ≠ [] → (0 <= r < 1)%Q →
  default "" (js_index arr (Qfloor (r * inject_Z (Z.of_nat (length arr))))) ∈ arr.
Proof.
  intros Hne Hr.
  assert (0 < length arr)%nat as Hlen by (destruct arr; [congruence | cbn; lia]).
  pose proof (floor_index _ _ Hr Hlen) as Hi.
  rewrite js_index_nat by lia.
  destruct (lookup_lt_is_Some_2 arr (Z.to_nat (Qfloor (r
              * inject_Z (Z.of_nat (length arr)))))) as [g Hg]; [lia|].
  rewrite Hg. eapply list_elem_of_lookup_2, Hg.
Qed.

Lemma range_bounds (r lo hi : Q) :
  (0 <= r < 1)%Q → (lo <= hi)%Q →
  (lo <= r * (hi - lo) + lo <= hi)%Q ∧ (lo < hi → r * (hi - lo) + lo < hi)%Q.
Proof. intros [H0 H1] H. split; [split|intros Hlt]; nra. Qed.

(** X1. [randomInRange(min, max)] of hearts.ts and [randomBetween(min, max)]
    of runaway-button.ts compute the same number from one draw of
    [Math.random], which is the only effect of either: the number lies
    between the two arguments, both ends included, whichever of them is the
    larger (the caller may pass an inverted range, as a narrow viewport
    makes [getRandomSafePosition] do). *)
Theorem random_number_in_range (min max : Q) w :
  (0 <= random w (drawn w) < 1)%Q →
  ∃ x, randomInRange min max w = (Return x, set_drawn (S (drawn w)) w) ∧
       randomBetween min max w = (Return x, set_drawn (S (drawn w)) w) ∧
       (min <= max → min <= x <= max)%Q ∧
       (max <= min → max <= x <= min)%Q.
Proof.
  intros [H0 H1]. eexists. split; [reflexivity|]. split; [reflexivity|].
  split; intros Hle; split; nra.
Qed.

(** ** The life of a floating heart *)

Lemma below_ceiling (M : Q) (n : nat) :
  (inject_Z (Z.of_nat n) < M)%Q → Qle_bool M (inject_Z (Z.of_nat n)) = false.
Proof.
  intros H. destruct (Qle_bool _ _) eqn:E; [|reflexivity].
  apply Qle_bool_iff in E. lra.
Qed.

(** A freshly built element [e] is attached as the last child of
    [parent]: what the heap then holds. *)
Lemma attach_new e parent d w :
  (parent < length (elements w))%nat →
  let new := length (elements w) in
  let W := update_element new (with_parentNode (Some parent))
             (update_element parent (with_children (λ l, l ++ [new]))
                (set_drawn d (set_elements (λ l, l ++ [e]) w))) in
  element_at new W = with_parentNode (Some parent) e ∧
  element_at parent W = with_children (λ l, l ++ [new]) (element_at parent w) ∧
  (∀ n, n ≠ parent → (n < new)%nat → element_at n W = element_at n w) ∧
  length (elements W) = S new.
Proof.
  intros Hp new W. unfold W.
  set (built := set_drawn _ _).
  assert (length (elements built) = S new) as Hlen.
  { unfold built. cbn. rewrite length_app. cbn. unfold new. lia. }
  assert (parent ≠ new) as Hne by (unfold new; lia).
  split; [|split; [|split]].
  - rewrite element_at_update_eq by (rewrite elements_length_update, Hlen; lia).
    rewrite element_at_update_ne by congruence.
    unfold built. change (element_at ?n (set_drawn ?d ?w)) with (element_at n w).
    unfold new. rewrite element_at_appended. reflexivity.
  - rewrite element_at_update_ne by exact Hne.
    rewrite element_at_update_eq by (rewrite Hlen; lia).
    unfold built. change (element_at ?n (set_drawn ?d ?w)) with (element_at n w).
    rewrite element_at_older by exact Hp. reflexivity.
  - intros n Hn Hlt. rewrite !element_at_update_ne by (unfold new in *; lia).
    unfold built. change (element_at ?n (set_drawn ?d ?w)) with (element_at n w).
    apply element_at_older. exact Hlt.
  - rewrite !elements_length_update. exact Hlen.
Qed.

(** Below the ceiling, [createFloatingHeart] allocates one element, makes it
    the last child of the container and queues its removal. *)
Lemma createFloatingHeart_heart container cfg w :
  (container < length (elements w))%nat →
  (inject_Z (Z.of_nat (length (children (element_at container w)))) < maxHearts cfg)%Q →
  let heart := length (elements w) in
  let W := exec (createFloatingHeart container cfg) w in
  element_at heart W
    = with_parentNode (Some container) (floating_heart_element cfg w) ∧
  element_at container W
    = with_children (λ l, l ++ [heart]) (element_at container w) ∧
  (∀ n, n ≠ container → (n < heart)%nat → element_at n W = element_at n w) ∧
  length (elements W) = S heart ∧
  timers W = timers w ++ [{| t_id := nextTimer w;
                             t_due := (clock w + Qmax 0 (floating_heart_life cfg w))%Q;
                             t_every := None;
                             t_task := RemoveFloatingHeart container heart |}] ∧
  console W = console w ∧ uncaught W = uncaught w.
Proof.
  intros Hc Hroom heart W. unfold W, exec.
  rewrite createFloatingHeart_runs, below_ceiling by exact Hroom. cbn [snd].
  destruct (attach_new (floating_heart_element cfg w) container
              (S (S (S (S (S (drawn w)))))) w Hc) as (Hnew & Hparent & Hrest & Hlen).
  subst heart. cbv zeta in Hnew, Hparent, Hrest, Hlen.
  set (attached := update_element (length (elements w)) _ _) in *.
  assert (∀ n f d, element_at n (set_nextTimer d (set_timers f attached))
                   = element_at n attached) as Hframe by reflexivity.
  rewrite !Hframe, Hnew, Hparent.
  split; [reflexivity|]. split; [reflexivity|].
  split; [intros n Hn Hlt; rewrite Hframe; apply Hrest; assumption|].
  split; [exact Hlen|]. repeat split.
Qed.

(** X2. A spawn that finds the container below the ceiling adds exactly one
    heart, as its last child: a [floating-heart] element showing one of the
    eleven heart glyphs, with a font size within [minSize, maxSize], an
    animation duration within [minDuration, maxDuration], a horizontal
    position in [0, 100) percent and a delay in [0, 3) seconds.  Nothing is
    logged, and the one timer it queues removes that heart
    [(duration + delay) * 1000] ms later. *)
Theorem floating_heart_is_built container cfg w :
  (container < length (elements w))%nat →
  (inject_Z (Z.of_nat (length (children (element_at container w)))) < maxHearts cfg)%Q →
  (∀ i, 0 <= random w i < 1)%Q →
  (minSize cfg <= maxSize cfg)%Q →
  (0 <= minDuration cfg <= maxDuration cfg)%Q →
  let heart := length (elements w) in
  let W := exec (createFloatingHeart container cfg) w in
  children (element_at container W) = children (element_at container w) ++ [heart] ∧
  parentNode (element_at heart W) = Some container ∧
  classList (element_at heart W) = ["floating-heart"] ∧
  textContent (element_at heart W) ∈ HEART_EMOJIS ∧
  console W = console w ∧
  ∃ size duration left delay,
    style (element_at heart W) !! "font-size" = Some (Rem size) ∧
    style (element_at heart W) !! "animation-duration" = Some (Seconds duration) ∧
    style (element_at heart W) !! "left" = Some (Percent left) ∧
    style (element_at heart W) !! "animation-delay" = Some (Seconds delay) ∧
    (minSize cfg <= size <= maxSize cfg)%Q ∧
    (minDuration cfg <= duration <= maxDuration cfg)%Q ∧
    (0 <= left < 100)%Q ∧ (0 <= delay < 3)%Q ∧
    ∃ t, timers W = timers w ++ [t] ∧
         t_task t = RemoveFloatingHeart container heart ∧ t_every t = None ∧
         (t_due t == clock w + (duration + delay) * 1000)%Q.
Proof.
  intros Hc Hroom Hr Hsize Hdur heart W.
  destruct (createFloatingHeart_heart container cfg w Hc Hroom)
    as (Hheart & Hcont & _ & _ & Htimers & Hconsole & _).
  fold heart in Hheart, Hcont, Htimers. fold W in Hheart, Hcont, Htimers, Hconsole.
  rewrite Hheart, Hcont.
  split; [reflexivity|]. split; [reflexivity|]. split; [reflexivity|].
  split; [apply (picked_listed HEART_EMOJIS); [discriminate | apply Hr]|].
  split; [exact Hconsole|].
  eexists _, _, _, _.
  split; [reflexivity|]. split; [reflexivity|]. split; [reflexivity|].
  split; [reflexivity|].
  pose proof (Hr (S (drawn w))) as H1. pose proof (Hr (S (S (drawn w)))) as H2.
  pose proof (Hr (S (S (S (drawn w))))) as H3.
  pose proof (Hr (S (S (S (S (drawn w)))))) as H4.
  split; [apply range_bounds; assumption|].
  split; [apply range_bounds; [assumption | lra]|].
  split; [lra|]. split; [lra|].
  eexists. split; [exact Htimers|]. split; [reflexivity|]. split; [reflexivity|].
  cbn [t_due]. unfold floating_heart_life.
  rewrite Q.max_r; [reflexivity|]. nra.
Qed.

Lemma removeFloatingHeart_runs container heart w :
  removeFloatingHeart container heart w =
  (Return tt,
   if decide (parentNode (element_at heart w) = Some container)
   then unlink heart w else w).
Proof.
  unfold removeFloatingHeart, removeChild, get_parentNode. run_js.
  destruct (decide (parentNode (element_at heart w) = Some container)) as [E|E];
    [|reflexivity].
  cbn. destruct (decide (parentNode (element_at heart w) = Some container));
    [reflexivity | contradiction].
Qed.

(** A node outside the heap has no parent. *)
Lemma blank_detached n w :
  (length (elements w) ≤ n)%nat → parentNode (element_at n w) = None.
Proof.
  intros H. unfold element_at. rewrite lookup_ge_None_2 by exact H. reflexivity.
Qed.

(** X3. The removal callback of a floating heart completes normally in
    every state.  It changes nothing unless the heart is still a child of
    the container it was spawned in (already removed, or moved elsewhere);
    otherwise it detaches the heart.  Running it a second time changes
    nothing. *)
Theorem removeFloatingHeart_guarded container heart w :
  let R := exec (removeFloatingHeart container heart) w in
  result (removeFloatingHeart container heart) w = Return tt ∧
  (parentNode (element_at heart w) ≠ Some container → R = w) ∧
  (parentNode (element_at heart w) = Some container →
   parentNode (element_at heart R) = None ∧ heart ∉ children (element_at container R)) ∧
  removeFloatingHeart container heart R = (Return tt, R).
Proof.
  intros R. unfold R, exec, result. rewrite !removeFloatingHeart_runs. cbn [fst snd].
  split; [reflexivity|].
  destruct (decide (parentNode (element_at heart w) = Some container)) as [E|E].
  - assert (heart < length (elements w))%nat as Hv.
    { destruct (decide (heart < length (elements w))%nat) as [H|H]; [exact H|].
      rewrite blank_detached in E by lia. discriminate E. }
    destruct (unlink_detaches heart container w Hv E) as [Hgone Hout].
    split; [intros H; contradiction|]. split; [intros _; split; assumption|].
    rewrite Hgone.
    destruct (decide (None = Some container)); [discriminate | reflexivity].
  - split; [reflexivity|]. split; [intros H; contradiction|].
    destruct (decide _); [contradiction | reflexivity].
Qed.

Lemma filter_snoc_fresh (l : list nat) (h : nat) :
  Forall (λ c, (c < h)%nat) l → filter (λ c, c ≠ h) (l ++ [h]) = l.
Proof.
  intros Hl. rewrite filter_app, filter_cons, filter_nil.
  destruct (decide (h ≠ h)) as [H|_]; [congruence|]. rewrite app_nil_r.
  induction Hl as [|c l Hc _ IH]; [reflexivity|].
  rewrite filter_cons. destruct (decide (c ≠ h)) as [_|H]; [f_equal; exact IH | lia].
Qed.

(** Cancelling a handle that no pending timer carries removes nothing. *)
Lemma filter_other_ids (l : list timer) (id : nat) :
  Forall (λ u, t_id u ≠ id) l → filter (λ u, t_id u ≠ id) l = l.
Proof.
  induction 1 as [|u l Hu _ IH]; [reflexivity|].
  rewrite filter_cons. destruct (decide (t_id u ≠ id)); [f_equal; exact IH | contradiction].
Qed.

Section RoundTrip.

Variables Math_cos Math_sin : number → number.

(** X4. Spawn, then removal.  When the timer queued by a spawn fires, the
    document is as it was before the spawn: every element that existed then
    is unchanged (the container has its former children again), the heart is
    detached, the timer queue is the one from before, and nothing was logged
    or thrown. *)
Theorem floating_heart_comes_and_goes container cfg w :
  (container < length (elements w))%nat →
  (inject_Z (Z.of_nat (length (children (element_at container w)))) < maxHearts cfg)%Q →
  Forall (λ c, (c < length (elements w))%nat) (children (element_at container w)) →
  (∀ u, u ∈ timers w → (t_id u < nextTimer w)%nat) →
  let heart := length (elements w) in
  let W := exec (createFloatingHeart container cfg) w in
  ∃ t, last (timers W) = Some t ∧
       t_task t = RemoveFloatingHeart container heart ∧
       let R := fire Math_cos Math_sin t W in
       (∀ n, (n < length (elements w))%nat → element_at n R = element_at n w) ∧
       parentNode (element_at heart R) = None ∧
       timers R = timers w ∧ console R = console w ∧ uncaught R = uncaught w.
Proof.
  intros Hc Hroom Hkids Hfresh heart W.
  destruct (createFloatingHeart_heart container cfg w Hc Hroom)
    as (Hheart & Hcont & Hrest & Hlen & Htimers & Hconsole & Huncaught).
  fold heart in Hheart, Hcont, Hrest, Hlen, Htimers.
  fold W in Hheart, Hcont, Hrest, Hlen, Htimers, Hconsole, Huncaught.
  eexists. split; [rewrite Htimers; apply last_snoc|]. split; [reflexivity|].
  intros R. unfold R, fire. cbn [t_every t_task t_id t_due run_task].
  set (W' := set_timers _ _).
  assert (∀ n, element_at n W' = element_at n W) as Hsame by reflexivity.
  unfold top_level. rewrite removeFloatingHeart_runs, Hsame, Hheart.
  cbn [parentNode with_parentNode].
  destruct (decide (Some container = Some container)) as [_|E]; [|congruence].
  assert (parentNode (element_at heart W') = Some container) as Hp
    by (rewrite Hsame, Hheart; reflexivity).
  assert (heart < length (elements W'))%nat as Hv
    by (change (elements W') with (elements W); lia).
  unfold unlink. rewrite Hp.
  change (set_elements ?f W') with
    (update_element heart (with_parentNode None)
       (update_element container (with_children (filter (λ c, c ≠ heart))) W')).
  split; [|split; [|split; [|split]]].
  - intros n Hn. rewrite element_at_update_ne by (unfold heart; lia).
    destruct (decide (n = container)) as [->|Hne].
    + rewrite element_at_update_eq by lia. rewrite Hsame, Hcont.
      destruct (element_at container w) eqn:E. unfold with_children. cbn.
      f_equal. apply filter_snoc_fresh. exact Hkids.
    + rewrite element_at_update_ne by exact Hne. rewrite Hsame.
      apply Hrest; [exact Hne | exact Hn].
  - rewrite element_at_update_eq by (rewrite elements_length_update; exact Hv).
    reflexivity.
  - world_simpl. unfold W'. world_simpl. rewrite Htimers. cbn [t_id].
    rewrite filter_app, filter_cons, filter_nil.
    cbn [t_id]. destruct (decide (nextTimer w ≠ nextTimer w)); [congruence|].
    rewrite app_nil_r. apply filter_other_ids, Forall_forall.
    intros u Hu. specialize (Hfresh u Hu). lia.
  - exact Hconsole.
  - exact Huncaught.
Qed.

End RoundTrip.

(** ** The emitter's schedule *)

(** X5. With the container in the document, [startFloatingHearts] creates no
    heart itself and logs nothing: it queues nine timers.  The first eight
    are one-shot spawns for that container, the i-th due [300 * i] ms after
    the call (the first at once); the last is the recurring spawn, due one
    [spawnInterval] after the call, and its handle is the one the module
    remembers. *)
Theorem startFloatingHearts_schedule containerId config container w :
  element_with_id (default "hearts-container" containerId) w = Some container →
  let cfg := merge_heart_config (default no_heart_overrides config) in
  (0 <= spawnInterval cfg)%Q →
  let W := exec (startFloatingHearts containerId config) w in
  elements W = elements w ∧ console W = console w ∧
  length (timers W) = (length (timers w) + 9)%nat ∧
  (∀ i t, (i < 8)%nat → timers W !! (length (timers w) + i)%nat = Some t →
     t_task t = SpawnHeart container cfg ∧ t_every t = None ∧
     (t_due t == clock w + 300 * inject_Z (Z.of_nat i))%Q) ∧
  ∃ t, last (timers W) = Some t ∧
       t_task t = SpawnHeart container cfg ∧
       t_every t = Some (spawnInterval cfg) ∧
       (t_due t == clock w + spawnInterval cfg)%Q ∧
       heartIntervalId W = Some (t_id t).
Proof.
  intros Hid cfg Hpos W. unfold W, exec.
  rewrite (startFloatingHearts_runs containerId config container w Hid).
  fold cfg. world_simpl.
  split; [reflexivity|]. split; [reflexivity|].
  split; [rewrite !length_app, staggered_length; cbn; lia|].
  split.
  - intros i t Hi. rewrite lookup_app_r by lia.
    replace (length (timers w) + i - length (timers w))%nat with i by lia.
    rewrite lookup_app_l by (rewrite staggered_length; exact Hi).
    rewrite staggered_lookup by exact Hi. intros [= <-]. cbn.
    split; [reflexivity|]. split; [reflexivity|]. apply stagger_due. lra.
  - eexists. split; [rewrite app_assoc; apply last_snoc|]. cbn.
    split; [reflexivity|]. split; [reflexivity|]. split; [|reflexivity].
    rewrite Q.max_r by exact Hpos. reflexivity.
Qed.

Lemma remembered_add_timer t delay every :
  (every = None ∨ ∀ c cfg, t ≠ SpawnHeart c cfg) →
  preserves remembered (add_timer t delay every).
Proof.
  intros Hnew w H u Hu Hs. unfold exec, add_timer in Hu |- *. cbn in Hu |- *.
  apply elem_of_app in Hu as [Hu|Hu]; [apply H; assumption|].
  apply list_elem_of_singleton in Hu as ->. exfalso.
  unfold is_spawn_interval in Hs. cbn in Hs.
  destruct Hnew as [->|Hnew]; [discriminate Hs|].
  destruct every; [|discriminate Hs]. destruct t; try discriminate Hs.
  eapply Hnew. reflexivity.
Qed.

Lemma remembered_clearInterval id : preserves remembered (clearInterval id).
Proof.
  intros w H u Hu Hs. unfold exec, clearInterval, modify in Hu |- *. cbn in Hu |- *.
  apply list_elem_of_filter in Hu as [_ Hu]. apply H; assumption.
Qed.

(** Primitives that queue no recurring spawn, cancel a timer, or touch
    neither the queue nor the remembered handle. *)
Ltac remembered_leaf :=
  first
    [ apply remembered_add_timer; first [left; reflexivity | right; intros ? ?; discriminate]
    | apply remembered_clearInterval
    | let w := fresh "w" in let H := fresh "H" in intros w H; exact H ].

Section Remembered.

Variables Math_cos Math_sin : number → number.

Lemma remembered_run_task t : preserves remembered (run_task Math_cos Math_sin t).
Proof. destruct t; autounfold with page_code; preserves_with remembered_leaf. Qed.

Lemma remembered_run_handler h : preserves remembered (run_handler h).
Proof. destruct h; autounfold with page_code; preserves_with remembered_leaf. Qed.

Lemma remembered_uncaught e w :
  remembered w → remembered (set_uncaught (λ l, l ++ [e]) w).
Proof. intros H. exact H. Qed.

Lemma remembered_fire t w :
  t ∈ timers w → remembered w → remembered (fire Math_cos Math_sin t w).
Proof.
  intros Ht H. unfold fire.
  apply preserves_top_level; [apply remembered_uncaught | apply remembered_run_task |].
  intros u Hu Hs. cbn in Hu |- *.
  destruct (t_every t) as [p|] eqn:E.
  - apply elem_of_app in Hu as [Hu|Hu].
    + apply list_elem_of_filter in Hu as [_ Hu]. apply H; assumption.
    + apply list_elem_of_singleton in Hu as ->. cbn.
      apply H; [exact Ht|]. unfold is_spawn_interval in Hs |- *. cbn in Hs.
      rewrite E. exact Hs.
  - apply list_elem_of_filter in Hu as [_ Hu]. apply H; assumption.
Qed.

Lemma remembered_dispatch target type w :
  remembered w → remembered (dispatch target type w).
Proof.
  unfold dispatch. generalize (filter (λ l, l_type l = type) (listeners (element_at target w))).
  intros ls. revert w. induction ls as [|l ls IH]; intros w H; [exact H|].
  cbn [foldl]. apply IH.
  apply preserves_top_level; [apply remembered_uncaught | apply remembered_run_handler | exact H].
Qed.

Lemma remembered_start containerId config w :
  heartIntervalId w = None → remembered w →
  remembered (exec (startFloatingHearts containerId config) w).
Proof.
  intros Hnone H.
  assert (∀ t, t ∈ timers w → is_spawn_interval t = false) as Hclean.
  { intros t Ht. destruct (is_spawn_interval t) eqn:E; [|reflexivity].
    specialize (H t Ht E). congruence. }
  destruct (element_with_id (default "hearts-container" containerId) w)
    as [container|] eqn:Hid.
  - unfold exec. rewrite (startFloatingHearts_runs containerId config container w Hid).
    cbn [snd]. intros t Ht Hs. cbn in Ht |- *.
    apply elem_of_app in Ht as [Ht|Ht]; [rewrite (Hclean t Ht) in Hs; discriminate Hs|].
    apply elem_of_app in Ht as [Ht|Ht].
    { unfold staggered in Ht. apply list_elem_of_fmap in Ht as (i & -> & _).
      discriminate Hs. }
    apply list_elem_of_singleton in Ht as ->. reflexivity.
  - unfold exec. rewrite (startFloatingHearts_missing containerId config w Hid).
    exact H.
Qed.

Lemma remembered_stop w : remembered w → remembered (exec stopFloatingHearts w).
Proof.
  intros H t Ht Hs.
  rewrite (stopFloatingHearts_clears_remembered w H t Ht) in Hs. discriminate Hs.
Qed.

Lemma startFloatingHearts_returns containerId config w :
  result (startFloatingHearts containerId config) w = Return tt.
Proof.
  destruct (element_with_id (default "hearts-container" containerId) w) eqn:Hid.
  - unfold result. erewrite startFloatingHearts_runs by exact Hid. reflexivity.
  - unfold result. rewrite startFloatingHearts_missing by exact Hid. reflexivity.
Qed.

Lemma remembered_perform a w :
  starts_when_stopped a w → remembered w → remembered (perform Math_cos Math_sin a w).
Proof.
  intros Ha H.
  assert (∀ m : js unit, preserves remembered m → remembered (top_level m w)) as Htop.
  { intros m Hm. apply preserves_top_level; [apply remembered_uncaught | exact Hm | exact H]. }
  destruct a; cbn [perform].
  - destruct (timers w !! i) as [t|] eqn:E; [|exact H].
    apply remembered_fire; [eapply list_elem_of_lookup_2, E | exact H].
  - apply remembered_dispatch, H.
  - rewrite top_level_returns by apply startFloatingHearts_returns.
    apply remembered_start; [exact Ha | exact H].
  - rewrite top_level_returns by apply stopFloatingHearts_returns.
    apply remembered_stop, H.
  - apply Htop. autounfold with page_code. preserves_with remembered_leaf.
  - apply Htop. autounfold with page_code. preserves_with remembered_leaf.
  - apply Htop. autounfold with page_code. preserves_with remembered_leaf.
  - apply Htop. autounfold with page_code. preserves_with remembered_leaf.
  - apply Htop. destruct c; autounfold with page_code; preserves_with remembered_leaf.
  - apply Htop. autounfold with page_code. preserves_with remembered_leaf.
  - apply Htop. autounfold with page_code. preserves_with remembered_leaf.
Qed.

(** X6. The single handle the module keeps is enough as long as the emitter
    is never started while it is running.  From a state in which every
    recurring spawn timer is the remembered one (a freshly loaded page, for
    one), along any sequence of page actions in which each
    [startFloatingHearts] finds [heartIntervalId] empty, that stays true; and
    [stopFloatingHearts] then leaves no recurring spawn timer at all. *)
Theorem emitter_stops_when_started_one_at_a_time actions : ∀ w,
  remembered w →
  disciplined Math_cos Math_sin actions w →
  let reached := run Math_cos Math_sin actions w in
  remembered reached ∧
  ∀ t, t ∈ timers (exec stopFloatingHearts reached) → is_spawn_interval t = false.
Proof.
  induction actions as [|a actions IH]; intros w H Hd.
  - split; [exact H | apply stopFloatingHearts_clears_remembered, H].
  - destruct Hd as [Ha Hd]. cbn. apply IH; [apply remembered_perform; assumption | exact Hd].
Qed.

End Remembered.

(** ** The celebration loop *)

Lemma staggered_ids t delay w from n :
  Forall (λ u, (nextTimer w ≤ t_id u < nextTimer w + n)%nat) (staggered t delay w from n).
Proof.
  unfold staggered. apply Forall_fmap, Forall_forall. intros i Hi.
  apply elem_of_seq in Hi. cbn. lia.
Qed.

(** X7. [startCelebrationLoop] queues the 40 creations of its first burst at
    the centre of the viewport, two one-shot random bursts due 500 and
    1000 ms after the call, and last the recurring random burst (every
    [intervalMs], 2000 by default).  The function it returns cancels the
    recurring burst and nothing else: the 42 one-shot timers stay pending,
    no element is touched, and calling it again changes nothing. *)
Theorem celebration_loop_cancel intervalMs w :
  (∀ u, u ∈ timers w → (t_id u < nextTimer w)%nat) →
  let every := default 2000%Q intervalMs in
  let W := exec (startCelebrationLoop intervalMs) w in
  let pending :=
    timers w
    ++ staggered (BurstHeart (innerWidth w / 2) (innerHeight w / 2))
         (λ i, inject_Z (Z.of_nat i) * 50)%Q w 0 40
    ++ [ {| t_id := (nextTimer w + 40)%nat; t_due := (clock w + 500)%Q;
            t_every := None; t_task := BurstAtRandomPosition |};
         {| t_id := (nextTimer w + 41)%nat; t_due := (clock w + 1000)%Q;
            t_every := None; t_task := BurstAtRandomPosition |} ] in
  ∃ id, result (startCelebrationLoop intervalMs) w = Return (StopCelebration id) ∧
    timers W = pending ++ [ {| t_id := id; t_due := (clock w + Qmax 0 every)%Q;
                               t_every := Some every;
                               t_task := BurstAtRandomPosition |} ] ∧
    let stopped := exec (run_cleanup (StopCelebration id)) W in
    timers stopped = pending ∧ elements stopped = elements w ∧
    exec (run_cleanup (StopCelebration id)) stopped = stopped.
Proof.
  intros Hfresh every W pending. unfold W, exec, result.
  rewrite startCelebrationLoop_runs. fold every. cbn [fst snd].
  eexists. split; [reflexivity|]. world_simpl.
  assert (filter (λ t, t_id t ≠ (nextTimer w + 42)%nat) pending = pending) as Hkeep.
  { apply filter_other_ids. unfold pending. rewrite !Forall_app. split; [|split].
    - apply Forall_forall. intros u Hu. specialize (Hfresh u Hu). lia.
    - eapply Forall_impl; [apply staggered_ids|]. cbn. intros u Hu. lia.
    - repeat constructor; cbn; lia. }
  assert (filter (λ t, t_id t ≠ (nextTimer w + 42)%nat)
            (pending ++ [ {| t_id := (nextTimer w + 42)%nat;
                             t_due := (clock w + Qmax 0 every)%Q;
                             t_every := Some every;
                             t_task := BurstAtRandomPosition |} ]) = pending) as Hgone.
  { rewrite filter_app, Hkeep, filter_cons, filter_nil. cbn [t_id].
    destruct (decide (_ ≠ _)); [congruence | apply app_nil_r]. }
  assert (timers w
          ++ staggered (BurstHeart (innerWidth w / 2) (innerHeight w / 2))
               (λ i, inject_Z (Z.of_nat i) * 50)%Q w 0 40
          ++ loop_timers every w
          = pending ++ [ {| t_id := (nextTimer w + 42)%nat;
                            t_due := (clock w + Qmax 0 every)%Q;
                            t_every := Some every;
                            t_task := BurstAtRandomPosition |} ]) as Hall.
  { unfold pending, loop_timers. rewrite <- !app_assoc. reflexivity. }
  split; [exact Hall|]. cbv zeta.
  unfold run_cleanup, clearInterval, modify. world_simpl.
  rewrite Hall, Hgone. split; [reflexivity|]. split; [reflexivity|].
  apply world_ext; world_simpl; try reflexivity.
  rewrite ?Hall, ?Hgone. exact Hkeep.
Qed.

(** X8. A random burst of the loop: in a viewport of at least 200 by 200 its
    centre lies at least 100 px inside every edge, whatever [Math.random]
    returns, and it schedules 15 heart creations there, 50 ms apart, using
    two draws. *)
Theorem random_burst_position w :
  (200 <= innerWidth w)%Q → (200 <= innerHeight w)%Q →
  (0 <= random w (drawn w) < 1)%Q → (0 <= random w (S (drawn w)) < 1)%Q →
  ∃ x y,
    (100 <= x <= innerWidth w - 100)%Q ∧ (100 <= y <= innerHeight w - 100)%Q ∧
    burstAtRandomPosition w =
    (Return tt,
     set_nextTimer (nextTimer w + 15)
       (set_timers (λ l, l ++ staggered (BurstHeart x y)
                                (λ i, inject_Z (Z.of_nat i) * 50)%Q w 0 15)
          (set_drawn (S (S (drawn w))) w))).
Proof.
  intros Hw Hh Hx Hy.
  exists (random w (drawn w) * (innerWidth w - 100 - 100) + 100)%Q,
         (random w (S (drawn w)) * (innerHeight w - 100 - 100) + 100)%Q.
  split; [split; nra|]. split; [split; nra|].
  unfold burstAtRandomPosition, randomInRange, bind, gets, Math_random, ret.
  world_simpl. rewrite createHeartBurst_schedules. reflexivity.
Qed.

Section Appearance.

Variables Math_cos Math_sin : number → number.

(** X9. What a burst heart looks like: the element carries the class
    [burst-heart] and nothing else, shows one of the twelve celebration
    glyphs, and has a font size from 1 to 3 rem, both ends included.  It becomes the last child of
    the body; no other element changes; four random draws are used. *)
Theorem burst_heart_appearance cx cy w body :
  body_element w = Some body →
  (∀ i, 0 <= random w i < 1)%Q →
  let heart := length (elements w) in
  let W := exec (burstHeart Math_cos Math_sin cx cy) w in
  classList (element_at heart W) = ["burst-heart"] ∧
  textContent (element_at heart W) ∈ CELEBRATION_HEARTS ∧
  (∃ size, style (element_at heart W) !! "font-size" = Some (Rem size) ∧
           (1 <= size <= 3)%Q) ∧
  children (element_at body W) = children (element_at body w) ++ [heart] ∧
  (∀ n, n ≠ body → (n < heart)%nat → element_at n W = element_at n w) ∧
  drawn W = (drawn w + 4)%nat.
Proof.
  intros Hbody Hr heart W.
  pose proof (body_element_valid w body Hbody) as Hvalid.
  unfold W, exec. rewrite burstHeart_runs, Hbody. cbn [snd].
  destruct (attach_new (burst_heart_element Math_cos Math_sin cx cy w) body
              (S (S (S (S (drawn w))))) w Hvalid) as (Hnew & Hparent & Hrest & _).
  subst heart. cbv zeta in Hnew, Hparent, Hrest.
  set (attached := update_element (length (elements w)) _ _) in *.
  assert (∀ n f d, element_at n (set_nextTimer d (set_timers f attached))
                   = element_at n attached) as Hframe by reflexivity.
  rewrite !Hframe, Hnew, Hparent.
  split; [reflexivity|].
  split; [apply (picked_listed CELEBRATION_HEARTS); [discriminate | apply Hr]|].
  split.
  { eexists. split; [reflexivity|]. pose proof (Hr (S (S (S (drawn w))))). split; lra. }
  split; [reflexivity|]. split.
  - intros n Hn Hlt. rewrite Hframe. apply Hrest; assumption.
  - cbn. lia.
Qed.

End Appearance.

(** X10. A callback that throws does not undo the celebration.  The deferred
    step of [showCelebration] completes normally; the failure is logged once
    with the callback's message; the callback was called once; the
    celebration screen is active; and the elements and the 93 queued timers
    (the burst of 50, the loop's 40, its two one-shot bursts and its
    recurring burst) are those of a run without callback. *)
Theorem celebration_survives_callback_failure screen f e w :
  cb_throws f = Some e →
  (screen < length (elements w))%nat →
  let W := exec (celebrationDisplay screen (Some f)) w in
  let quiet := exec (celebrationDisplay screen None) w in
  result (celebrationDisplay screen (Some f)) w = Return tt ∧
  console W = console w
              ++ ["[Celebration] Failed during celebration display: " +:+ error_message e] ∧
  invoked W = invoked w ++ [cb_name f] ∧
  "active" ∈ classList (element_at screen W) ∧
  elements W = elements quiet ∧ timers W = timers quiet ∧
  length (timers W) = (length (timers w) + 93)%nat.
Proof.
  intros Hf Hs W quiet. unfold W, quiet, exec, result.
  rewrite !celebrationDisplay_runs, Hf. cbn [fst snd].
  set (shown := exec (classList_add screen "active") w).
  assert (∀ x, exec (startCelebrationLoop (Some 3000%Q)) x
               = snd (startCelebrationLoop (Some 3000%Q) x)) as Hloop by reflexivity.
  assert (∀ cx cy x, exec (createHeartBurst cx cy (Some 50%nat)) x
                     = snd (createHeartBurst cx cy (Some 50%nat) x)) as Hburst
    by reflexivity.
  rewrite !Hloop, startCelebrationLoop_runs, !Hburst, createHeartBurst_schedules.
  cbn [snd]. world_simpl.
  split; [reflexivity|]. split; [reflexivity|]. split; [reflexivity|].
  split; [apply classList_add_has; exact Hs|].
  split; [reflexivity|]. split; [reflexivity|].
  rewrite !length_app, !staggered_length. cbn. lia.
Qed.

(** ** Sparkles *)

Section Sparkle.

Variables Math_cos Math_sin : number → number.

(** X11. [createSparkle(event)] completes normally and logs nothing when the
    document has a body.  It adds one [sparkle] element showing one of the
    five sparkle glyphs as the last child of the body, at most 15 px from
    the cursor on each axis: [left] between [clientX - 15] and
    [clientX + 15], and [top] between [clientY - 15] and [clientY + 15],
    ends included.  The one timer it queues is due 800 ms
    later, and when it fires the sparkle is detached again. *)
Theorem sparkle_appears_near_the_cursor event w body :
  body_element w = Some body →
  (∀ i, 0 <= random w i < 1)%Q →
  let sparkle := length (elements w) in
  let W := exec (createSparkle event) w in
  result (createSparkle event) w = Return tt ∧ console W = console w ∧
  classList (element_at sparkle W) = ["sparkle"] ∧
  textContent (element_at sparkle W) ∈ sparkleEmojis ∧
  parentNode (element_at sparkle W) = Some body ∧
  children (element_at body W) = children (element_at body w) ++ [sparkle] ∧
  (∃ x y,
     style (element_at sparkle W) !! "left" = Some (Px x) ∧
     style (element_at sparkle W) !! "top" = Some (Px y) ∧
     (clientX event - 15 <= x <= clientX event + 15)%Q ∧
     (clientY event - 15 <= y <= clientY event + 15)%Q) ∧
  ∃ t, timers W = timers w ++ [t] ∧ t_every t = None ∧
       (t_due t == clock w + 800)%Q ∧
       let gone := fire Math_cos Math_sin t W in
       parentNode (element_at sparkle gone) = None ∧
       sparkle ∉ children (element_at body gone).
Proof.
  intros Hbody Hr sparkle W.
  pose proof (body_element_valid w body Hbody) as Hvalid.
  unfold W, exec, result. rewrite createSparkle_runs, Hbody. cbn [fst snd].
  destruct (attach_new (sparkle_element event w) body (S (S (S (drawn w)))) w Hvalid)
    as (Hnew & Hparent & _ & Hlen).
  subst sparkle. cbv zeta in Hnew, Hparent, Hlen.
  set (attached := update_element (length (elements w)) _ _) in *.
  assert (∀ n f d, element_at n (set_nextTimer d (set_timers f attached))
                   = element_at n attached) as Hframe by reflexivity.
  rewrite !Hframe, Hnew, Hparent.
  split; [reflexivity|]. split; [reflexivity|]. split; [reflexivity|].
  split; [apply (picked_listed sparkleEmojis); [discriminate | apply Hr]|].
  split; [reflexivity|]. split; [reflexivity|].
  split.
  { eexists _, _. split; [reflexivity|]. split; [reflexivity|].
    pose proof (Hr (S (drawn w))). pose proof (Hr (S (S (drawn w)))).
    split; split; lra. }
  eexists. split; [reflexivity|]. split; [reflexivity|]. split; [reflexivity|].
  cbv zeta. unfold fire. cbn [t_every t_task t_id t_due run_task].
  set (W' := set_timers _ _).
  assert (∀ n, element_at n W' = element_at n attached) as Hsame by reflexivity.
  unfold top_level. rewrite removeBurstHeart_runs.
  apply unlink_detaches.
  - change (elements W') with (elements attached). lia.
  - rewrite Hsame, Hnew. reflexivity.
Qed.

(** X12. Without a document body the two effects fail differently.
    [createSparkle] completes normally, logs exactly one error, queues no
    timer and leaves every existing element as it was; the creation of a
    burst heart in the same state also completes normally, but logs
    nothing. *)
Theorem sparkle_without_a_body_is_logged event cx cy w :
  body_element w = None →
  let W := exec (createSparkle event) w in
  let B := exec (burstHeart Math_cos Math_sin cx cy) w in
  result (createSparkle event) w = Return tt ∧
  (∃ msg, console W = console w ++ ["[Celebration] Failed to create sparkle: " +:+ msg]) ∧
  timers W = timers w ∧
  (∀ n, (n < length (elements w))%nat → element_at n W = element_at n w) ∧
  result (burstHeart Math_cos Math_sin cx cy) w = Return tt ∧
  console B = console w ∧ timers B = timers w.
Proof.
  intros Hbody W B. unfold W, B, exec, result.
  rewrite createSparkle_runs, burstHeart_runs, Hbody. cbn [fst snd].
  split; [reflexivity|]. split; [eexists; reflexivity|]. split; [reflexivity|].
  split; [|repeat split].
  intros n Hn.
  change (element_at n (set_console ?f (set_drawn ?d ?x))) with (element_at n x).
  apply element_at_older, Hn.
Qed.

End Sparkle.

(** ** The button after an escape *)

Lemma escapeFromCursor_element button cfg w :
  (button < length (elements w))%nat →
  let e := element_at button w in
  let pad := edgePadding cfg in
  let maxX := (innerWidth w - rect_width e - pad)%Q in
  let maxY := (innerHeight w - rect_height e - pad)%Q in
  let x := Qmax pad (Qmin (random w (drawn w) * (maxX - pad) + pad) maxX) in
  let y := Qmax pad (Qmin (random w (S (drawn w)) * (maxY - pad) + pad) maxY) in
  element_at button (exec (escapeFromCursor button cfg) w) =
  with_textContent
    (default "" (js_index (escapeMessages cfg)
                   (Z.min (escapeCount w) (Z.of_nat (length (escapeMessages cfg)) - 1))))
    (with_children (λ _, [])
       ((if decide (button ∈ children e) then with_parentNode None else id)
          (with_style <["transition" := Raw "left 0.2s ease-out, top 0.2s ease-out"]>
             (with_style <["top" := Px y]>
                (with_style <["left" := Px x]>
                   (if isRunaway w then e
                    else with_classList
                           (λ l, if decide ("runaway" ∈ l) then l else l ++ ["runaway"])
                           e)))))).
Proof.
  intros Hb e pad maxX maxY x y. unfold escapeFromCursor. run_js.
  destruct (isRunaway w); cbn;
    repeat first
      [ progress change (element_at button (set_escapeCount ?v ?w)) with (element_at button w)
      | progress change (element_at button (set_drawn ?v ?w)) with (element_at button w)
      | progress change (element_at button (set_isRunaway ?v ?w)) with (element_at button w)
      | rewrite element_at_remove_children
      | rewrite element_at_update_eq by valid ];
    (destruct (decide (button = button)) as [_|E]; [|congruence]);
    reflexivity.
Qed.

(** Of the other elements, an escape touches the children the button had:
    setting its text removes them. *)
Lemma escapeFromCursor_elsewhere button cfg w n :
  n ≠ button →
  element_at n (exec (escapeFromCursor button cfg) w) =
  if decide (n ∈ children (element_at button w))
  then with_parentNode None (element_at n w) else element_at n w.
Proof.
  intros Hn. unfold escapeFromCursor. run_js.
  destruct (isRunaway w); cbn;
    repeat first
      [ progress change (element_at ?m (set_escapeCount ?v ?w)) with (element_at m w)
      | progress change (element_at ?m (set_drawn ?v ?w)) with (element_at m w)
      | progress change (element_at ?m (set_isRunaway ?v ?w)) with (element_at m w)
      | rewrite element_at_remove_children
      | rewrite element_at_update_ne by exact Hn
      | rewrite children_update by (intros ?; reflexivity) ];
    (destruct (decide (n = button)) as [E|_]; [contradiction|]);
    destruct (decide (n ∈ children (element_at button w))); reflexivity.
Qed.

Lemma escapeFromCursor_classes button cfg w :
  (button < length (elements w))%nat →
  classList (element_at button (exec (escapeFromCursor button cfg) w)) =
  if isRunaway w then classList (element_at button w)
  else if decide ("runaway" ∈ classList (element_at button w))
       then classList (element_at button w)
       else classList (element_at button w) ++ ["runaway"].
Proof.
  intros Hb. rewrite escapeFromCursor_element by exact Hb. cbv zeta.
  destruct (decide (button ∈ children (element_at button w))), (isRunaway w);
    reflexivity.
Qed.

Lemma escapeFromCursor_classes_elsewhere button cfg w n :
  n ≠ button →
  classList (element_at n (exec (escapeFromCursor button cfg) w))
  = classList (element_at n w).
Proof.
  intros Hn. rewrite escapeFromCursor_elsewhere by exact Hn.
  destruct (decide _); reflexivity.
Qed.

(** Reads a style property that the code has just set. *)
Ltac style_lookup :=
  cbn [style with_textContent with_children with_style with_classList with_parentNode id];
  repeat (rewrite lookup_insert_ne by discriminate);
  rewrite ?lookup_insert_eq; reflexivity.

(** X13. An escape puts the button itself inside the viewport.  For a
    viewport larger than the button plus twice the padding, after
    [escapeFromCursor] the button's [left] and [top] are pixel values within
    [edgePadding, viewport - size - edgePadding] on each axis, and its
    [transition] is the 0.2 s ease-out of [left] and [top].  Setting the
    button's text removes the children it had: the button has none
    afterwards and each of them is left without a parent.  No other element
    changes. *)
Theorem escape_moves_button_inside_viewport button cfg w :
  (button < length (elements w))%nat →
  (2 * edgePadding cfg + rect_width (element_at button w) < innerWidth w)%Q →
  (2 * edgePadding cfg + rect_height (element_at button w) < innerHeight w)%Q →
  let W := exec (escapeFromCursor button cfg) w in
  let moved := element_at button W in
  ∃ x y,
    style moved !! "left" = Some (Px x) ∧ style moved !! "top" = Some (Px y) ∧
    (edgePadding cfg <= x
     <= innerWidth w - rect_width (element_at button w) - edgePadding cfg)%Q ∧
    (edgePadding cfg <= y
     <= innerHeight w - rect_height (element_at button w) - edgePadding cfg)%Q ∧
    style moved !! "transition" = Some (Raw "left 0.2s ease-out, top 0.2s ease-out") ∧
    children moved = [] ∧
    ∀ n, n ≠ button →
         element_at n W =
         if decide (n ∈ children (element_at button w))
         then with_parentNode None (element_at n w) else element_at n w.
Proof.
  intros Hb Hw Hh W moved. unfold moved, W.
  rewrite escapeFromCursor_element by exact Hb. cbv zeta.
  eexists _, _.
  split; [destruct (decide _), (isRunaway w); style_lookup|].
  split; [destruct (decide _), (isRunaway w); style_lookup|].
  split; [apply clamp_bounds; lra|]. split; [apply clamp_bounds; lra|].
  split; [destruct (decide _), (isRunaway w); style_lookup|].
  split; [reflexivity|].
  intros n Hn. apply escapeFromCursor_elsewhere, Hn.
Qed.

(** X14. An escape raises the module's flag, and it changes the button's
    classes in one way only: [runaway] is added when the flag was still
    clear.  No class is ever removed, and no other class is added. *)
Theorem escape_marks_the_button button cfg w (c : string) :
  (button < length (elements w))%nat →
  let W := exec (escapeFromCursor button cfg) w in
  isRunaway W = true ∧
  (c ∈ classList (element_at button W) ↔
   c ∈ classList (element_at button w) ∨ (isRunaway w = false ∧ c = "runaway")).
Proof.
  intros Hb W. split; [apply escapeFromCursor_flag|].
  unfold W. rewrite escapeFromCursor_classes by exact Hb.
  destruct (isRunaway w).
  - split; [intros H; left; exact H | intros [H|[H _]]; [exact H | discriminate H]].
  - destruct (decide ("runaway" ∈ classList (element_at button w))) as [Hin|Hin].
    + split; [intros H; left; exact H|].
      intros [H|[_ ->]]; [exact H | exact Hin].
    + rewrite elem_of_app, list_elem_of_singleton. split.
      * intros [H|H]; [left; exact H | right; split; [reflexivity | exact H]].
      * intros [H|[_ H]]; [left; exact H | right; exact H].
Qed.

(** X15. Because the flag belongs to the module and not to a button, only
    the first button that escapes is marked: once any button has escaped, an
    escape of another button moves it and counts, but does not give it the
    class [runaway]. *)
Theorem second_button_is_never_marked first second cfg1 cfg2 w :
  first ≠ second →
  (second < length (elements w))%nat →
  "runaway" ∉ classList (element_at second w) →
  let W := exec (escapeFromCursor second cfg2) (exec (escapeFromCursor first cfg1) w) in
  ("runaway" ∉ classList (element_at second W)) ∧
  escapeCount W = escapeCount w + 2.
Proof.
  intros Hne Hs Hnot W. unfold W. split.
  - rewrite escapeFromCursor_classes by (rewrite escapeFromCursor_length; exact Hs).
    rewrite escapeFromCursor_flag.
    rewrite escapeFromCursor_classes_elsewhere by congruence. exact Hnot.
  - rewrite !escapeFromCursor_count. lia.
Qed.


Section Reachable.

Variables Math_cos Math_sin : number → number.

Lemma perform_count_nonneg a w :
  0 ≤ escapeCount w → 0 ≤ escapeCount (perform Math_cos Math_sin a w).
Proof.
  intros H. destruct (resets_counter a) eqn:E.
  - destruct a; try discriminate E. destruct c; try discriminate E.
    cbn. lia.
  - pose proof (perform_keeps_count Math_cos Math_sin a w E). lia.
Qed.

Lemma run_count_nonneg actions : ∀ w,
  0 ≤ escapeCount w → 0 ≤ escapeCount (run Math_cos Math_sin actions w).
Proof.
  induction actions as [|a actions IH]; intros w H; [exact H|].
  cbn. apply IH, perform_count_nonneg, H.
Qed.

(** X17. The No button never shows an empty text.  The counter starts at 0
    and no sequence of page actions makes it negative, so in every state the
    page can reach, an escape with a non-empty message list sets the
    button's text to one of the messages of that list. *)
Theorem escape_text_is_always_a_message actions button cfg w :
  0 ≤ escapeCount w →
  escapeMessages cfg ≠ [] →
  let reached := run Math_cos Math_sin actions w in
  (button < length (elements reached))%nat →
  0 ≤ escapeCount reached ∧
  textContent (element_at button (exec (escapeFromCursor button cfg) reached))
    ∈ escapeMessages cfg.
Proof.
  intros Hc Hne reached Hb.
  assert (0 ≤ escapeCount reached) as Hr by (apply run_count_nonneg, Hc).
  split; [exact Hr|].
  eapply list_elem_of_lookup_2, escape_message_index; assumption.
Qed.

End Reachable.

(** ** The listeners of a registration *)

(** X18. A successful [initRunawayButton] makes each of [mouseenter],
    [touchstart] and [click] on the No button trigger exactly one more
    escape than before, and no other event type any: an event of some type
    advances the counter by the number of listeners the button already had
    for that type, plus one if the type is one of the three. *)
Theorem runaway_button_triggers noButtonId yesButtonId config noButton yesButton type w :
  element_with_id (default "no-button" noButtonId) w = Some noButton →
  element_with_id (default "yes-button" yesButtonId) w = Some yesButton →
  (∀ x, x ∈ listeners (element_at noButton w) → (l_fn x < nextFn w)%nat) →
  let W := exec (initRunawayButton noButtonId yesButtonId config) w in
  escapeCount (dispatch noButton type W) =
  escapeCount w
  + Z.of_nat (length (filter (λ l, l_type l = type) (listeners (element_at noButton w))))
  + (if bool_decide (type ∈ escape_triggers) then 1 else 0).
Proof.
  intros Hno Hyes Hfresh W.
  destruct (initRunawayButton_installs noButtonId yesButtonId config noButton yesButton w
              Hno Hyes Hfresh) as (_ & Hls & Hcount & _).
  fold W in Hls, Hcount.
  rewrite dispatch_count, Hls, Hcount, filter_app, length_app.
  rewrite count_new_listeners by reflexivity.
  destruct (bool_decide _); lia.
Qed.

Lemma run_cleanup_listeners noButton handleEscape w :
  (noButton < length (elements w))%nat →
  listeners (element_at noButton
               (exec (run_cleanup (RunawayCleanup noButton handleEscape)) w)) =
  filter (λ x, ¬ (l_type x = "touchstart" ∧ l_fn x = handleEscape))
    (filter (λ x, ¬ (l_type x = "mouseenter" ∧ l_fn x = handleEscape))
       (listeners (element_at noButton w))).
Proof.
  intros Hv. unfold run_cleanup, removeEventListener. run_js.
  change (element_at noButton (set_isRunaway ?v ?w)) with (element_at noButton w).
  change (element_at noButton (set_escapeCount ?v ?w)) with (element_at noButton w).
  rewrite !element_at_update_eq by valid. reflexivity.
Qed.

Lemma filter_keeps_all {A} (P : A → Prop) `{∀ x, Decision (P x)} (l : list A) :
  (∀ x, x ∈ l → P x) → filter P l = l.
Proof.
  induction l as [|x l IH]; intros Hl; [reflexivity|].
  rewrite filter_cons. destruct (decide (P x)) as [_|Hx].
  - f_equal. apply IH. intros y Hy. apply Hl, list_elem_of_further, Hy.
  - exfalso. apply Hx, Hl, list_elem_of_here.
Qed.

(** X19. The function a successful [initRunawayButton] returns removes the
    [mouseenter] and [touchstart] listeners and resets the counter and the
    flag, but the [click] listener, an anonymous function, stays registered.
    After the cleanup the No button has its former listeners plus that one:
    a hover no longer triggers an escape of this registration, a click still
    does. *)
Theorem cleanup_leaves_the_click_listener
    noButtonId yesButtonId config noButton yesButton w :
  element_with_id (default "no-button" noButtonId) w = Some noButton →
  element_with_id (default "yes-button" yesButtonId) w = Some yesButton →
  (∀ x, x ∈ listeners (element_at noButton w) → (l_fn x < nextFn w)%nat) →
  let W := exec (initRunawayButton noButtonId yesButtonId config) w in
  ∃ c, result (initRunawayButton noButtonId yesButtonId config) w = Return c ∧
    let cleaned := exec (run_cleanup c) W in
    listeners (element_at noButton cleaned) =
      listeners (element_at noButton w)
      ++ [ {| l_type := "click"; l_fn := S (nextFn w);
              l_body := ClickEscape noButton yesButton
                          (merge_runaway_config (default no_runaway_overrides config)) |} ] ∧
    escapeCount cleaned = 0 ∧ isRunaway cleaned = false ∧
    escapeCount (dispatch noButton "click" cleaned) =
      1 + Z.of_nat (length (filter (λ l, l_type l = "click")
                              (listeners (element_at noButton w)))) ∧
    escapeCount (dispatch noButton "mouseenter" cleaned) =
      Z.of_nat (length (filter (λ l, l_type l = "mouseenter")
                          (listeners (element_at noButton w)))).
Proof.
  intros Hno Hyes Hfresh W.
  destruct (initRunawayButton_installs noButtonId yesButtonId config noButton yesButton w
              Hno Hyes Hfresh) as (Hres & Hls & _).
  fold W in Hls.
  destruct (element_with_id_valid _ _ _ Hno) as [Hvalid _].
  assert (noButton < length (elements W))%nat as HvalidW.
  { unfold W, initRunawayButton, getElementById. run_js. rewrite Hno, Hyes. cbn.
    rewrite !length_alter. exact Hvalid. }
  eexists. split; [exact Hres|]. cbv zeta.
  set (cleaned := exec _ W).
  assert (listeners (element_at noButton cleaned) =
          listeners (element_at noButton w)
          ++ [ {| l_type := "click"; l_fn := S (nextFn w);
                  l_body := ClickEscape noButton yesButton
                              (merge_runaway_config (default no_runaway_overrides config)) |} ])
    as Hkept.
  { unfold cleaned. rewrite run_cleanup_listeners, Hls by exact HvalidW.
    rewrite !filter_app.
    rewrite (filter_keeps_all _ (listeners (element_at noButton w)))
      by (intros x Hx [_ E]; specialize (Hfresh x Hx); lia).
    rewrite (filter_keeps_all _ (listeners (element_at noButton w)))
      by (intros x Hx [_ E]; specialize (Hfresh x Hx); lia).
    f_equal.
    rewrite (filter_cons_False (λ x, ¬ (l_type x = "mouseenter" ∧ l_fn x = nextFn w)))
      by (cbn; intros H; apply H; split; reflexivity).
    rewrite (filter_cons_True (λ x, ¬ (l_type x = "mouseenter" ∧ l_fn x = nextFn w)))
      by (cbn; intros [E _]; discriminate E).
    rewrite (filter_cons_True (λ x, ¬ (l_type x = "mouseenter" ∧ l_fn x = nextFn w)))
      by (cbn; intros [E _]; discriminate E).
    rewrite filter_nil.
    rewrite (filter_cons_False (λ x, ¬ (l_type x = "touchstart" ∧ l_fn x = nextFn w)))
      by (cbn; intros H; apply H; split; reflexivity).
    rewrite (filter_cons_True (λ x, ¬ (l_type x = "touchstart" ∧ l_fn x = nextFn w)))
      by (cbn; intros [E _]; discriminate E).
    reflexivity. }
  split; [exact Hkept|]. split; [reflexivity|]. split; [reflexivity|].
  rewrite !dispatch_count, Hkept, !filter_app, !length_app.
  change (escapeCount cleaned) with 0.
  rewrite !filter_cons, !filter_nil. cbn [l_type].
  destruct (decide ("click" = "click")) as [_|E]; [|congruence].
  destruct (decide ("click" = "mouseenter")) as [E|_]; [discriminate E|].
  cbn [length]. split; lia.
Qed.

Lemma growYesButton_runs yes w :
  growYesButton yes w =
  (Return tt,
   update_element yes
     (with_classList (λ l,
        let kept := filter (λ c, c ∉ growth_markers) l in
        let tier := Z.min (escapeCount w / 2) 4 in
        if 0 <? tier
        then if decide ("growing-" +:+ pretty tier ∈ kept) then kept
             else kept ++ ["growing-" +:+ pretty tier]
        else kept)) w).
Proof.
  unfold growYesButton. run_js.
  destruct (0 <? _); cbn; [|reflexivity].
  f_equal. apply world_ext; world_simpl; try reflexivity.
  rewrite list_alter_alter_eq. apply list_alter_ext; [|reflexivity].
  intros e _. destruct e. reflexivity.
Qed.

Lemma run_handler_length h w :
  length (elements (exec (run_handler h) w)) = length (elements w).
Proof.
  rewrite run_handler_exec. destruct h; unfold exec at 1; rewrite growYesButton_runs;
    cbn [snd]; rewrite elements_length_update; apply escapeFromCursor_length.
Qed.

Lemma growYesButton_text yes n w :
  textContent (element_at n (exec (growYesButton yes) w)) = textContent (element_at n w).
Proof.
  unfold exec. rewrite growYesButton_runs. cbn [snd].
  apply textContent_update. intros e. reflexivity.
Qed.

(** X20. From registration to the page the user sees.  After a successful
    [initRunawayButton] on a No button without other listeners, any
    non-empty sequence of [n] hover, touch and click events on it leaves the
    counter advanced by [n], the No button showing the message at index
    [min(count - 1, length - 1)] for the counter value [count] reached, and
    the Yes button carrying, of [growing-1] to [growing-4], exactly the
    marker of tier [min(floor(count / 2), 4)]. *)
Theorem escapes_after_registration noButtonId yesButtonId config noButton yesButton
    (events : list string) (k : Z) w :
  element_with_id (default "no-button" noButtonId) w = Some noButton →
  element_with_id (default "yes-button" yesButtonId) w = Some yesButton →
  listeners (element_at noButton w) = [] →
  0 ≤ escapeCount w →
  Forall (λ type, type ∈ escape_triggers) events →
  events ≠ [] →
  1 ≤ k ≤ 4 →
  let cfg := merge_runaway_config (default no_runaway_overrides config) in
  escapeMessages cfg ≠ [] →
  let W := foldl (λ w type, dispatch noButton type w)
             (exec (initRunawayButton noButtonId yesButtonId config) w) events in
  let n := Z.of_nat (length events) in
  escapeCount W = escapeCount w + n ∧
  escapeMessages cfg
    !! Z.to_nat (Z.min (escapeCount w + n - 1) (Z.of_nat (length (escapeMessages cfg)) - 1))
    = Some (textContent (element_at noButton W)) ∧
  ("growing-" +:+ pretty k ∈ classList (element_at yesButton W) ↔
   k = Z.min ((escapeCount w + n) / 2) 4).
Proof.
  intros Hno Hyes Hnone Hcount Hevents Hne Hk cfg Hmsgs W n.
  destruct (initRunawayButton_installs noButtonId yesButtonId config noButton yesButton w
              Hno Hyes) as (_ & Hls & Hc0 & _).
  { rewrite Hnone. intros x Hx. inversion Hx. }
  fold cfg in Hls. rewrite Hnone in Hls. cbn [app] in Hls.
  destruct (element_with_id_valid _ _ _ Hno) as [Hvn _].
  destruct (element_with_id_valid _ _ _ Hyes) as [Hvy _].
  set (W0 := exec (initRunawayButton noButtonId yesButtonId config) w) in *.
  assert (length (elements W0) = length (elements w)) as Hlen0.
  { unfold W0, initRunawayButton, getElementById. run_js. rewrite Hno, Hyes. cbn.
    rewrite !length_alter. reflexivity. }
  destruct (exists_last Hne) as (before & type & ->).
  apply Forall_app in Hevents as [Hbefore Hlast].
  apply Forall_cons in Hlast as [Hlast _].
  unfold W. rewrite foldl_app. cbn [foldl].
  set (B := foldl (λ w type, dispatch noButton type w) W0 before).
  assert (listeners (element_at noButton B) = listeners (element_at noButton W0) ∧
          length (elements B) = length (elements W0) ∧
          escapeCount B = escapeCount W0 + Z.of_nat (length before)) as (HlsB & HlenB & HcB).
  { unfold B. clear Hne W n. revert Hbefore.
    induction before as [|ty before IH] using rev_ind; intros Hall.
    - cbn. split; [reflexivity|]. split; [reflexivity | lia].
    - apply Forall_app in Hall as [Hall Hty]. apply Forall_cons in Hty as [Hty _].
      destruct (IH Hall) as (IH1 & IH2 & IH3).
      rewrite foldl_app. cbn [foldl].
      rewrite (dispatch_trigger noButton yesButton cfg (nextFn w) ty)
        by (first [exact Hty | rewrite IH1; exact Hls]).
      split; [|split].
      + rewrite <- IH1. apply (run_handler_listeners noButton _ _ _ eq_refl).
      + rewrite run_handler_length. exact IH2.
      + rewrite run_handler_count, IH3, length_app. cbn. lia. }
  rewrite (dispatch_trigger noButton yesButton cfg (nextFn w) type)
    by (first [exact Hlast | rewrite HlsB; exact Hls]).
  unfold n. rewrite length_app. cbn [length].
  rewrite run_handler_exec.
  split; [|split].
  - rewrite growYesButton_count, escapeFromCursor_count, HcB, Hc0. lia.
  - rewrite growYesButton_text.
    replace (escapeCount w + Z.of_nat (length before + 1) - 1) with (escapeCount B)
      by (rewrite HcB, Hc0; lia).
    apply escape_message_index; [lia | lia | exact Hmsgs].
  - rewrite growYesButton_marker
      by (first [exact Hk | rewrite escapeFromCursor_length; lia]).
    rewrite escapeFromCursor_count, HcB, Hc0.
    replace (escapeCount w + Z.of_nat (length before) + 1)
      with (escapeCount w + Z.of_nat (length before + 1)) by lia.
    reflexivity.
Qed.

Lemma filter_idem {A} (P : A → Prop) `{∀ x, Decision (P x)} (l : list A) :
  filter P (filter P l) = filter P l.
Proof.
  induction l as [|x l IH]; [reflexivity|].
  rewrite filter_cons. destruct (decide (P x)) as [Hx|Hx]; [|exact IH].
  rewrite filter_cons. destruct (decide (P x)); [f_equal; exact IH | contradiction].
Qed.

(** X21. [growYesButton] recomputes the growth marker from the counter
    alone: calling it again without an escape in between changes nothing, in
    any state and whatever markers the button carried. *)
Theorem growYesButton_is_idempotent yes w :
  exec (growYesButton yes) (exec (growYesButton yes) w) = exec (growYesButton yes) w.
Proof.
  unfold exec. rewrite !growYesButton_runs. cbn [snd].
  apply world_ext; world_simpl; try reflexivity.
  rewrite list_alter_alter_eq. apply list_alter_ext; [|reflexivity].
  intros e _. destruct e as [? ? cl ? ? ? ? ? ? ?].
  unfold with_classList. cbn. f_equal.
  set (kept := filter (λ c, c ∉ growth_markers) cl).
  set (tier := Z.min (escapeCount w / 2) 4).
  assert (filter (λ c, c ∉ growth_markers) kept = kept) as Hkept by apply filter_idem.
  destruct (0 <? tier) eqn:Ht; [|rewrite !Hkept; reflexivity].
  apply Z.ltb_lt in Ht.
  assert ("growing-" +:+ pretty tier ∈ growth_markers) as Hm
    by (apply marker_listed; unfold tier in *; lia).
  assert ("growing-" +:+ pretty tier ∉ kept) as Hnot.
  { unfold kept. rewrite list_elem_of_filter. intros [Hn _]. apply Hn, Hm. }
  destruct (decide ("growing-" +:+ pretty tier ∈ kept)) as [Hin|_]; [contradiction|].
  rewrite filter_app, Hkept, filter_cons, filter_nil.
  destruct (decide ("growing-" +:+ pretty tier ∉ growth_markers)) as [Hn|_];
    [contradiction|].
  rewrite app_nil_r.
  destruct (decide ("growing-" +:+ pretty tier ∈ kept)) as [Hin|_]; [contradiction|].
  reflexivity.
Qed.

(** ** Failures stay inside *)

Lemma try_catch_returns (m : js unit) (h : exn → js unit) w :
  (∀ e w', result (h e) w' = Return tt) → result (try_catch m h) w = Return tt.
Proof.
  intros Hh. unfold result, try_catch. destruct (m w) as [[[]|e] w']; [reflexivity|].
  apply Hh.
Qed.

Lemma try_catch_then_returns {A} (m : js A) (h : exn → js A) w :
  (∀ e w', ∃ a, result (h e) w' = Return a) →
  result (try_catch m h;; ret tt) w = Return tt.
Proof.
  intros Hh. unfold result, bind, try_catch. destruct (m w) as [[a|e] w']; [reflexivity|].
  destruct (Hh e w') as [a Ha]. unfold result in Ha.
  destruct (h e w') as [[b|e'] w'']; cbn in *; [reflexivity | discriminate Ha].
Qed.

(** No primitive reports an uncaught exception. *)
Ltac uncaught_leaf :=
  let w := fresh "w" in let H := fresh "H" in intros w H; exact H.

Section Contained.

Variables Math_cos Math_sin : number → number.

Lemma run_task_returns t w : result (run_task Math_cos Math_sin t) w = Return tt.
Proof.
  destruct t; cbn [run_task]; unfold result.
  - rewrite createFloatingHeart_runs. reflexivity.
  - rewrite removeFloatingHeart_runs. reflexivity.
  - rewrite burstHeart_runs. reflexivity.
  - rewrite removeBurstHeart_runs. reflexivity.
  - unfold burstAtRandomPosition, randomInRange, bind, gets, Math_random, ret.
    world_simpl. rewrite createHeartBurst_schedules. reflexivity.
  - rewrite celebrationDisplay_runs. reflexivity.
Qed.

Lemma run_task_uncaught u t :
  preserves (λ w, uncaught w = u) (run_task Math_cos Math_sin t).
Proof. destruct t; autounfold with page_code; preserves_with uncaught_leaf. Qed.

Lemma run_handler_uncaught u h : preserves (λ w, uncaught w = u) (run_handler h).
Proof. destruct h; autounfold with page_code; preserves_with uncaught_leaf. Qed.

Lemma contained (m : js unit) w :
  result m w = Return tt → preserves (λ x, uncaught x = uncaught w) m →
  uncaught (top_level m w) = uncaught w.
Proof.
  intros Hr Hm. rewrite top_level_returns by exact Hr. apply Hm. reflexivity.
Qed.

Lemma dispatch_uncaught target type w :
  uncaught (dispatch target type w) = uncaught w.
Proof.
  unfold dispatch. generalize (filter (λ l, l_type l = type) (listeners (element_at target w))).
  intros ls. revert w. induction ls as [|l ls IH]; intros w; [reflexivity|].
  cbn [foldl]. rewrite IH.
  apply contained; [apply run_handler_returns | apply run_handler_uncaught].
Qed.

Lemma perform_uncaught a w :
  uncaught (perform Math_cos Math_sin a w) = uncaught w.
Proof.
  destruct a; cbn [perform].
  - destruct (timers w !! i) as [t|]; [|reflexivity]. unfold fire.
    rewrite contained; [reflexivity | apply run_task_returns | apply run_task_uncaught].
  - apply dispatch_uncaught.
  - apply contained; [apply try_catch_returns; reflexivity|].
    autounfold with page_code. preserves_with uncaught_leaf.
  - apply contained; [apply stopFloatingHearts_returns|].
    autounfold with page_code. preserves_with uncaught_leaf.
  - apply contained; [unfold result; rewrite createHeartBurst_schedules; reflexivity|].
    autounfold with page_code. preserves_with uncaught_leaf.
  - apply contained;
      [unfold result, bind; rewrite startCelebrationLoop_runs; reflexivity|].
    autounfold with page_code. preserves_with uncaught_leaf.
  - apply contained; [apply try_catch_returns; reflexivity|].
    autounfold with page_code. preserves_with uncaught_leaf.
  - apply contained.
    + apply try_catch_then_returns. intros e w'. eexists. reflexivity.
    + autounfold with page_code. preserves_with uncaught_leaf.
  - apply contained; [destruct c; reflexivity|].
    destruct c; autounfold with page_code; preserves_with uncaught_leaf.
  - reflexivity.
  - apply contained; [apply try_catch_returns; reflexivity|].
    autounfold with page_code. preserves_with uncaught_leaf.
Qed.

(** X22. No failure leaves the modules.  Whatever the page does (timers
    firing in any order, events, calls of the exported functions of the
    three modules, [createSparkle] among them, with any arguments, including
    a callback that throws, and calls of the functions they returned), no
    exception reaches the browser: every timer callback, listener and
    exported function completes normally. *)
Theorem no_exception_escapes actions : ∀ w,
  uncaught (run Math_cos Math_sin actions w) = uncaught w.
Proof.
  induction actions as [|a actions IH]; intros w; [reflexivity|].
  change (uncaught (run Math_cos Math_sin actions (perform Math_cos Math_sin a w))
          = uncaught w).
  rewrite IH. apply perform_uncaught.
Qed.

End Contained.

(** * The theorems at concrete inputs *)

Lemma floating_hearts_never_exceed_ceiling_witness :
  let w := run flat_cos flat_sin (replicate 12 (Fire 0))
             (exec (startFloatingHearts None (Some three_hearts)) page) in
  (length (floating_hearts 1 w) ≤ 3)%nat ∧
  (localName (element_at 1 w) ≠ "body" → (length (children (element_at 1 w)) ≤ 3)%nat) ∧
  (∀ cfg,
     (maxHearts cfg == inject_Z (Z.of_nat 3))%Q →
     (3 ≤ length (children (element_at 1 w)))%nat →
     createFloatingHeart 1 cfg w = (Return tt, w)).
Proof.
  apply (floating_hearts_never_exceed_ceiling flat_cos flat_sin 3 None
           (Some three_hearts) page 1 (replicate 12 (Fire 0))).
  - reflexivity.
  - reflexivity.
  - intros t cfg Hin. inversion Hin.
  - reflexivity.
  - repeat constructor.
Defined.

Lemma escape_count_steps_witness :
  result getEscapeCount (exec (escapeFromCursor 4 DEFAULT_RUNAWAY_CONFIG) page) = Return 1
  ∧ 0 ≤ 1
  ∧ (∃ c, result (initRunawayButton None None None) page = Return c ∧
          result getEscapeCount
            (dispatch 4 "touchstart" (exec (initRunawayButton None None None) page))
          = Return (0 + 1 + 0) ∧
          result getEscapeCount
            (perform flat_cos flat_sin (CallCleanup c) (page_after_escapes 5)) = Return 0)
  ∧ (∃ c, result (initRunawayButton None None None) bare_page = Return c ∧
          resets_counter (CallCleanup c) = false).
Proof.
  destruct (escape_count_steps flat_cos flat_sin)
    as (Hstep & Hmono & _ & Hregistered & Hmissing).
  split; [|split; [|split]].
  - apply (Hstep 4%nat DEFAULT_RUNAWAY_CONFIG page 0). reflexivity.
  - apply (Hmono (Dispatch 4 "click")
             (exec (initRunawayButton None None None) page) 0 1);
      vm_compute; reflexivity.
  - destruct (Hregistered None None None 4%nat 5%nat page)
      as (c & Hres & _ & Hevent & _ & Hreset).
    + reflexivity.
    + reflexivity.
    + intros x Hx. inversion Hx.
    + exists c. split; [exact Hres|]. split; [|apply Hreset].
      apply (Hevent "touchstart" 0); [|reflexivity].
      unfold escape_triggers. apply list_elem_of_further, list_elem_of_here.
  - apply (Hmissing None None None bare_page). left. reflexivity.
Defined.

Lemma growth_tier_after_escape_witness :
  let after :=
    exec (run_handler (HandleEscape 4 5 DEFAULT_RUNAWAY_CONFIG)) (page_after_escapes 3) in
  exec (run_handler (ClickEscape 4 5 DEFAULT_RUNAWAY_CONFIG)) (page_after_escapes 3) = after ∧
  escapeCount after = escapeCount (page_after_escapes 3) + 1 ∧
  ("growing-" +:+ pretty 2 ∈ classList (element_at 5 after) ↔
   2 = Z.min (escapeCount after / 2) 4).
Proof.
  apply (growth_tier_after_escape 4 5 DEFAULT_RUNAWAY_CONFIG (page_after_escapes 3) 2).
  - vm_compute. lia.
  - lia.
Defined.

Lemma escape_message_clamped_witness :
  let shown :=
    textContent (element_at 4 (exec (escapeFromCursor 4 DEFAULT_RUNAWAY_CONFIG)
                                 (page_after_escapes 12))) in
  length (escapeMessages DEFAULT_RUNAWAY_CONFIG) = 10%nat ∧
  escapeMessages DEFAULT_RUNAWAY_CONFIG
    !! Z.to_nat (Z.min (escapeCount (page_after_escapes 12)) (10 - 1)) = Some shown ∧
  (9 ≤ escapeCount (page_after_escapes 12) →
   shown = "Тобі мене не зловити! 😜"
   ∧ last (escapeMessages DEFAULT_RUNAWAY_CONFIG) = Some shown).
Proof.
  apply (escape_message_clamped 4 DEFAULT_RUNAWAY_CONFIG (page_after_escapes 12)).
  - vm_compute. lia.
  - vm_compute. discriminate.
  - reflexivity.
Defined.

Lemma escape_state_is_shared_witness :
  let w1 := exec (initRunawayButton None None None) page in
  let w2 := exec (initRunawayButton (Some "yes-button") (Some "no-button") None) w1 in
  ∃ cleanup1 cleanup2,
    result (initRunawayButton None None None) page = Return cleanup1 ∧
    result (initRunawayButton (Some "yes-button") (Some "no-button") None) w1
      = Return cleanup2 ∧
    let first := dispatch 4 "mouseenter" w2 in
    let second := dispatch 5 "click" first in
    result getEscapeCount first = Return (escapeCount page + 1) ∧
    isRunaway first = true ∧
    result getEscapeCount second = Return (escapeCount page + 2) ∧
    let cleaned := exec (run_cleanup cleanup1) second in
    result getEscapeCount cleaned = Return 0 ∧
    isRunaway cleaned = false ∧
    result getEscapeCount (dispatch 5 "click" cleaned) = Return 1 ∧
    isRunaway (dispatch 5 "click" cleaned) = true ∧
    result getEscapeCount
      (exec (run_cleanup cleanup2) (dispatch 5 "click" cleaned)) = Return 0 ∧
    isRunaway (exec (run_cleanup cleanup2) (dispatch 5 "click" cleaned)) = false.
Proof.
  apply (escape_state_is_shared None None (Some "yes-button") (Some "no-button")
           None None 4 5 5 4 "mouseenter" "click" page).
  - reflexivity.
  - reflexivity.
  - reflexivity.
  - reflexivity.
  - discriminate.
  - reflexivity.
  - reflexivity.
  - unfold escape_triggers. apply list_elem_of_here.
  - unfold escape_triggers. repeat first [apply list_elem_of_here | apply list_elem_of_further].
Defined.

Lemma getRandomSafePosition_in_bounds_witness :
  (∃ x y, result (getRandomSafePosition 100 40 DEFAULT_RUNAWAY_CONFIG) page = Return (x, y) ∧
     (edgePadding DEFAULT_RUNAWAY_CONFIG <= x
      <= innerWidth page - 100 - edgePadding DEFAULT_RUNAWAY_CONFIG)%Q ∧
     (edgePadding DEFAULT_RUNAWAY_CONFIG <= y
      <= innerHeight page - 40 - edgePadding DEFAULT_RUNAWAY_CONFIG)%Q) ∧
  (∃ x y, result (getRandomSafePosition 100 40 DEFAULT_RUNAWAY_CONFIG) page = Return (x, y) ∧
     (20 <= x <= 680)%Q ∧ (20 <= y <= 540)%Q).
Proof.
  destruct getRandomSafePosition_in_bounds as [Hgeneral Hscenario]. split.
  - apply (Hgeneral page 100%Q 40%Q DEFAULT_RUNAWAY_CONFIG); reflexivity.
  - apply (Hscenario page DEFAULT_RUNAWAY_CONFIG); reflexivity.
Defined.

Lemma celebration_transition_witness :
  (let W := exec (showCelebration None None None) page in
   ("active" ∉ classList (element_at 2 W)) ∧
   ("active" ∈ classList (element_at 3 W) → "active" ∈ classList (element_at 3 page)) ∧
   timers W = [{| t_id := 1; t_due := (0 + 400)%Q; t_every := None;
                  t_task := CelebrationDisplay 3 None |}]) ∧
  "active" ∈ classList (element_at 3
                          (exec (run_task flat_cos flat_sin (CelebrationDisplay 3 None)) page)) ∧
  elements (exec (showCelebration None None None) bare_page) = elements bare_page ∧
  ("active" ∈ classList (element_at 3 (perform flat_cos flat_sin CallStopFloatingHearts page)) →
   "active" ∈ classList (element_at 3 page)).
Proof.
  destruct (celebration_transition flat_cos flat_sin)
    as (Hshow & Hlater & Hmissing & Honly).
  split; [|split; [|split]].
  - destruct (Hshow None None None page 2%nat 3%nat) as (_ & Hoff & _ & Hnot & Htimers & _);
      [reflexivity | reflexivity |].
    split; [exact Hoff|]. split; [exact Hnot | exact Htimers].
  - destruct (Hlater 3%nat None page) as (Hactive & _); [vm_compute; lia|].
    exact Hactive.
  - destruct (Hmissing None None None bare_page) as (_ & Hsame & _);
      [left; reflexivity|].
    exact Hsame.
  - apply (Honly CallStopFloatingHearts page 3%nat). intros H. exact H.
Defined.


Lemma missing_element_is_logged_once_witness :
  (∃ msg, startFloatingHearts None None bare_page
          = (Return tt, set_console (λ l, l ++ [msg]) bare_page)) ∧
  (∃ msg, showCelebration None None None bare_page
          = (Return tt, set_console (λ l, l ++ [msg]) bare_page)) ∧
  (∃ msg c, initRunawayButton None None None bare_page
            = (Return c, set_console (λ l, l ++ [msg]) bare_page)
            ∧ ∀ w', run_cleanup c w' = (Return tt, w')).
Proof.
  destruct missing_element_is_logged_once as (Hhearts & Hcelebration & Hrunaway).
  split; [|split].
  - apply (Hhearts None None bare_page). reflexivity.
  - apply (Hcelebration None None None bare_page). left. reflexivity.
  - apply (Hrunaway None None None bare_page). left. reflexivity.
Defined.

(** The sample random source stays in [0, 1). *)
Lemma tenths_range (i : nat) : (0 <= tenths i < 1)%Q.
Proof.
  pose proof (Nat.mod_upper_bound i 10) as H.
  unfold tenths, Qle, Qlt. cbn. lia.
Qed.

Lemma random_number_in_range_witness :
  ∃ x, randomInRange 8 18 page = (Return x, set_drawn 1 page) ∧
       randomBetween 8 18 page = (Return x, set_drawn 1 page) ∧
       (8 <= 18 → 8 <= x <= 18)%Q ∧ (18 <= 8 → 18 <= x <= 8)%Q.
Proof.
  apply (random_number_in_range 8 18 page). apply tenths_range.
Defined.

Lemma floating_heart_is_built_witness :
  let W := exec (createFloatingHeart 1 DEFAULT_CONFIG) page in
  children (element_at 1 W) = [6%nat] ∧
  parentNode (element_at 6 W) = Some 1%nat ∧
  classList (element_at 6 W) = ["floating-heart"] ∧
  textContent (element_at 6 W) ∈ HEART_EMOJIS.
Proof.
  destruct (floating_heart_is_built 1 DEFAULT_CONFIG page)
    as (Hkids & Hparent & Hclass & Hglyph & _).
  - vm_compute. lia.
  - reflexivity.
  - apply tenths_range.
  - vm_compute. discriminate.
  - vm_compute. split; discriminate.
  - split; [exact Hkids|]. split; [exact Hparent|]. split; [exact Hclass | exact Hglyph].
Defined.

Lemma removeFloatingHeart_guarded_witness :
  parentNode (element_at 1 (exec (removeFloatingHeart 0 1) page)) = None ∧
  exec (removeFloatingHeart 2 1) page = page.
Proof.
  split.
  - destruct (removeFloatingHeart_guarded 0 1 page) as (_ & _ & Hgone & _).
    destruct Hgone as [Hgone _]; [reflexivity | exact Hgone].
  - destruct (removeFloatingHeart_guarded 2 1 page) as (_ & Hkept & _).
    apply Hkept. discriminate.
Defined.

Lemma floating_heart_comes_and_goes_witness :
  let W := exec (createFloatingHeart 1 DEFAULT_CONFIG) page in
  ∃ t, last (timers W) = Some t ∧
       t_task t = RemoveFloatingHeart 1 6 ∧
       let R := fire flat_cos flat_sin t W in
       (∀ n, (n < 6)%nat → element_at n R = element_at n page) ∧
       parentNode (element_at 6 R) = None ∧
       timers R = timers page ∧ console R = console page ∧ uncaught R = uncaught page.
Proof.
  apply (floating_heart_comes_and_goes flat_cos flat_sin 1 DEFAULT_CONFIG page).
  - vm_compute. lia.
  - reflexivity.
  - constructor.
  - intros u Hu. inversion Hu.
Defined.

Lemma startFloatingHearts_schedule_witness :
  let W := exec (startFloatingHearts None None) page in
  length (timers W) = 9%nat ∧
  ∃ t, last (timers W) = Some t ∧ t_every t = Some 600%Q ∧
       heartIntervalId W = Some (t_id t).
Proof.
  destruct (startFloatingHearts_schedule None None 1 page)
    as (_ & _ & Hlen & _ & t & Hlast & _ & Hevery & _ & Hid).
  - reflexivity.
  - vm_compute. discriminate.
  - split; [exact Hlen|]. exists t. split; [exact Hlast|]. split; [exact Hevery | exact Hid].
Defined.

Lemma emitter_stops_when_started_one_at_a_time_witness :
  let reached :=
    run flat_cos flat_sin
      [ CallStartFloatingHearts None None; Fire 0; CallStopFloatingHearts;
        CallStartFloatingHearts None None ] page in
  remembered reached ∧
  ∀ t, t ∈ timers (exec stopFloatingHearts reached) → is_spawn_interval t = false.
Proof.
  apply (emitter_stops_when_started_one_at_a_time flat_cos flat_sin
           [ CallStartFloatingHearts None None; Fire 0; CallStopFloatingHearts;
             CallStartFloatingHearts None None ] page).
  - intros t Ht. inversion Ht.
  - vm_compute. repeat split.
Defined.

Lemma celebration_loop_cancel_witness :
  ∃ id, result (startCelebrationLoop None) page = Return (StopCelebration id) ∧
        elements (exec (run_cleanup (StopCelebration id))
                    (exec (startCelebrationLoop None) page)) = elements page.
Proof.
  destruct (celebration_loop_cancel None page) as (id & Hres & _ & _ & Hsame & _).
  - intros u Hu. inversion Hu.
  - exists id. split; [exact Hres | exact Hsame].
Defined.

Lemma random_burst_position_witness :
  ∃ x y,
    (100 <= x <= innerWidth page - 100)%Q ∧ (100 <= y <= innerHeight page - 100)%Q ∧
    burstAtRandomPosition page =
    (Return tt,
     set_nextTimer (nextTimer page + 15)
       (set_timers (λ l, l ++ staggered (BurstHeart x y)
                                (λ i, inject_Z (Z.of_nat i) * 50)%Q page 0 15)
          (set_drawn (S (S (drawn page))) page))).
Proof.
  apply (random_burst_position page).
  - vm_compute. discriminate.
  - vm_compute. discriminate.
  - apply tenths_range.
  - apply tenths_range.
Defined.

Lemma burst_heart_appearance_witness :
  let W := exec (burstHeart flat_cos flat_sin 400 300) page in
  classList (element_at 6 W) = ["burst-heart"] ∧
  textContent (element_at 6 W) ∈ CELEBRATION_HEARTS ∧
  children (element_at 0 W) = [1; 2; 3; 6]%nat.
Proof.
  destruct (burst_heart_appearance flat_cos flat_sin 400 300 page 0)
    as (Hclass & Hglyph & _ & Hkids & _).
  - reflexivity.
  - apply tenths_range.
  - split; [exact Hclass|]. split; [exact Hglyph | exact Hkids].
Defined.

Lemma celebration_survives_callback_failure_witness :
  let f := {| cb_name := "onCelebrate"; cb_throws := Some (JsError "no confetti") |} in
  let W := exec (celebrationDisplay 3 (Some f)) page in
  result (celebrationDisplay 3 (Some f)) page = Return tt ∧
  console W = ["[Celebration] Failed during celebration display: no confetti"] ∧
  "active" ∈ classList (element_at 3 W) ∧
  length (timers W) = 93%nat.
Proof.
  destruct (celebration_survives_callback_failure 3
              {| cb_name := "onCelebrate"; cb_throws := Some (JsError "no confetti") |}
              (JsError "no confetti") page)
    as (Hres & Hlog & _ & Hactive & _ & _ & Hlen).
  - reflexivity.
  - vm_compute. lia.
  - split; [exact Hres|]. split; [exact Hlog|]. split; [exact Hactive | exact Hlen].
Defined.

Lemma sparkle_appears_near_the_cursor_witness :
  let W := exec (createSparkle {| clientX := 400; clientY := 300 |}) page in
  textContent (element_at 6 W) ∈ sparkleEmojis ∧
  parentNode (element_at 6 W) = Some 0%nat ∧
  ∃ x y,
    style (element_at 6 W) !! "left" = Some (Px x) ∧
    style (element_at 6 W) !! "top" = Some (Px y) ∧
    (400 - 15 <= x <= 400 + 15)%Q ∧ (300 - 15 <= y <= 300 + 15)%Q.
Proof.
  destruct (sparkle_appears_near_the_cursor flat_cos flat_sin
              {| clientX := 400; clientY := 300 |} page 0)
    as (_ & _ & _ & Hglyph & Hparent & _ & Hnear & _).
  - reflexivity.
  - apply tenths_range.
  - split; [exact Hglyph|]. split; [exact Hparent | exact Hnear].
Defined.

Lemma sparkle_without_a_body_is_logged_witness :
  let W := exec (createSparkle {| clientX := 400; clientY := 300 |}) no_document in
  result (createSparkle {| clientX := 400; clientY := 300 |}) no_document = Return tt ∧
  (∃ msg, console W = console no_document
                      ++ ["[Celebration] Failed to create sparkle: " +:+ msg]) ∧
  console (exec (burstHeart flat_cos flat_sin 400 300) no_document) = console no_document.
Proof.
  destruct (sparkle_without_a_body_is_logged flat_cos flat_sin
              {| clientX := 400; clientY := 300 |} 400 300 no_document)
    as (Hres & Hlog & _ & _ & _ & Hquiet & _).
  - reflexivity.
  - split; [exact Hres|]. split; [exact Hlog | exact Hquiet].
Defined.

Lemma escape_moves_button_inside_viewport_witness :
  let moved := element_at 4 (exec (escapeFromCursor 4 DEFAULT_RUNAWAY_CONFIG) page) in
  ∃ x y,
    style moved !! "left" = Some (Px x) ∧ style moved !! "top" = Some (Px y) ∧
    (20 <= x <= 800 - 100 - 20)%Q ∧ (20 <= y <= 600 - 40 - 20)%Q.
Proof.
  destruct (escape_moves_button_inside_viewport 4 DEFAULT_RUNAWAY_CONFIG page)
    as (x & y & Hleft & Htop & Hx & Hy & _).
  - vm_compute. lia.
  - reflexivity.
  - reflexivity.
  - exists x, y. split; [exact Hleft|]. split; [exact Htop|]. split; [exact Hx | exact Hy].
Defined.

Lemma escape_marks_the_button_witness :
  let W := exec (escapeFromCursor 4 DEFAULT_RUNAWAY_CONFIG) page in
  isRunaway W = true ∧
  ("runaway" ∈ classList (element_at 4 W) ↔
   "runaway" ∈ classList (element_at 4 page) ∨ (isRunaway page = false ∧ "runaway" = "runaway")).
Proof.
  apply (escape_marks_the_button 4 DEFAULT_RUNAWAY_CONFIG page "runaway").
  vm_compute. lia.
Defined.

Lemma second_button_is_never_marked_witness :
  let W := exec (escapeFromCursor 5 DEFAULT_RUNAWAY_CONFIG)
             (exec (escapeFromCursor 4 DEFAULT_RUNAWAY_CONFIG) page) in
  ("runaway" ∉ classList (element_at 5 W)) ∧ escapeCount W = escapeCount page + 2.
Proof.
  apply (second_button_is_never_marked 4 5 DEFAULT_RUNAWAY_CONFIG DEFAULT_RUNAWAY_CONFIG page).
  - discriminate.
  - vm_compute. lia.
  - change (classList (element_at 5 page)) with ["btn"].
    intros H. apply list_elem_of_singleton in H. discriminate H.
Defined.


Lemma escape_text_is_always_a_message_witness :
  let reached :=
    run flat_cos flat_sin
      [CallInitRunawayButton None None None; Dispatch 4 "click"] page in
  0 ≤ escapeCount reached ∧
  textContent (element_at 4 (exec (escapeFromCursor 4 DEFAULT_RUNAWAY_CONFIG) reached))
    ∈ escapeMessages DEFAULT_RUNAWAY_CONFIG.
Proof.
  apply (escape_text_is_always_a_message flat_cos flat_sin
           [CallInitRunawayButton None None None; Dispatch 4 "click"]
           4 DEFAULT_RUNAWAY_CONFIG page).
  - vm_compute. discriminate.
  - discriminate.
  - vm_compute. lia.
Defined.

Lemma runaway_button_triggers_witness :
  escapeCount (dispatch 4 "click" (exec (initRunawayButton None None None) page)) = 1 ∧
  escapeCount (dispatch 4 "keydown" (exec (initRunawayButton None None None) page)) = 0.
Proof.
  split.
  - apply (runaway_button_triggers None None None 4 5 "click" page);
      [reflexivity | reflexivity | intros x Hx; inversion Hx].
  - apply (runaway_button_triggers None None None 4 5 "keydown" page);
      [reflexivity | reflexivity | intros x Hx; inversion Hx].
Defined.

Lemma cleanup_leaves_the_click_listener_witness :
  ∃ c, result (initRunawayButton None None None) page = Return c ∧
       let cleaned := exec (run_cleanup c) (exec (initRunawayButton None None None) page) in
       escapeCount cleaned = 0 ∧
       escapeCount (dispatch 4 "click" cleaned) = 1 ∧
       escapeCount (dispatch 4 "mouseenter" cleaned) = 0.
Proof.
  destruct (cleanup_leaves_the_click_listener None None None 4 5 page)
    as (c & Hres & _ & Hzero & _ & Hclick & Hhover).
  - reflexivity.
  - reflexivity.
  - intros x Hx. inversion Hx.
  - exists c. split; [exact Hres|]. split; [exact Hzero|]. split; [exact Hclick | exact Hhover].
Defined.

Lemma escapes_after_registration_witness :
  let W := foldl (λ w type, dispatch 4 type w)
             (exec (initRunawayButton None None None) page)
             ["mouseenter"; "click"; "touchstart"] in
  escapeCount W = 3 ∧
  escapeMessages DEFAULT_RUNAWAY_CONFIG !! 2%nat = Some (textContent (element_at 4 W)) ∧
  ("growing-1" ∈ classList (element_at 5 W) ↔ 1 = Z.min (3 / 2) 4).
Proof.
  destruct (escapes_after_registration None None None 4 5
              ["mouseenter"; "click"; "touchstart"] 1 page)
    as (Hcount & Htext & Htier).
  - reflexivity.
  - reflexivity.
  - reflexivity.
  - vm_compute. discriminate.
  - repeat constructor.
  - discriminate.
  - lia.
  - discriminate.
  - split; [exact Hcount|]. split; [exact Htext | exact Htier].
Defined.
